(** * The Figma bridge of [src/index.ts]: pending-request correlation

    A shallow embedding of the tool-to-WebSocket bridge of the MCP server:
    [serverState], [isFigmaConnected], [sendToFigma], [handleFigmaResponse],
    the handlers installed by [startWebSocketServer] on the socket
    ("connection", "message", "close", "error") and the [CallToolRequestSchema]
    handler.  The Node runtime is modelled as an explicit store (sockets,
    armed timers, promise settlements, frames handed to [ws.send]); every
    handler is a function on that store, and the event loop is a step
    function over a list of events. *)

From Stdlib Require Import QArith Qcanon.
From stdpp Require Import numbers gmap strings list fin_maps pretty.

Open Scope string_scope.
Open Scope list_scope.
Open Scope nat_scope.

#[local] Set Warnings "-register-all,-clear-no-such-hyp".

(** ** JavaScript values that cross the bridge *)

(** A number as [JSON.parse] yields it: a finite double, or the infinity a
    literal such as [1e999] overflows to ([NaN] has no JSON text).  The finite
    doubles are kept as the rationals they are; the bridge does no arithmetic
    on them, and [-0] is not told from [0], which none of its operations
    ([ToBoolean], [String], [JSON.stringify]) does either. *)
Inductive number : Type :=
  | Finite (q : Qc)
  | Infinite (negative : bool).

(** The values [JSON.parse] yields; an object is the list of its own
    members. *)
Inductive json : Type :=
  | JNull
  | JBool (b : bool)
  | JNum (x : number)
  | JStr (s : string)
  | JArr (items : list json)
  | JObj (members : list (string * json)).

(** [any]: a JSON value, or [undefined] ([None]). *)
Definition any : Type := option json.

(** [ToBoolean]. *)
Definition truthy (v : any) : bool :=
  match v with
  | None | Some JNull => false
  | Some (JBool b) => b
  | Some (JNum (Finite q)) => negb (bool_decide (q = Qc_of_Z 0))
  | Some (JNum (Infinite _)) => true
  | Some (JStr s) => negb (String.eqb s EmptyString)
  | Some (JArr _) | Some (JObj _) => true
  end.

(** Whether [v] is the string [k]. *)
Definition same_string (v : any) (k : string) : bool :=
  match v with
  | Some (JStr s) => String.eqb s k
  | _ => false
  end.

(** [JSON.parse(JSON.stringify(v))], the value a receiver reads from the text
    [JSON.stringify] writes for [v]: an infinite number is written [null],
    everything else as it is. *)
Fixpoint serialized (v : json) : json :=
  match v with
  | JNum (Infinite _) => JNull
  | JArr items => JArr (map serialized items)
  | JObj members => JObj (map (λ m, (m.1, serialized m.2)) members)
  | _ => v
  end.

Fixpoint member (k : string) (ms : list (string * json)) : any :=
  match ms with
  | [] => None
  | (k', v) :: ms' => if decide (k = k') then Some v else member k ms'
  end.

(** [v?.k] for a member name that no prototype defines. *)
Definition optional_member (v : any) (k : string) : any :=
  match v with
  | Some (JObj ms) => member k ms
  | _ => None
  end.

(** An [Error] (or [TypeError]) instance; only its [message] is ever read. *)
Record Error : Type := mkError { message : string }.

(** ** The insertion-ordered [Map<string, V>] *)

Module JsMap.
Section JsMap.
Context {V : Type}.

Definition t : Type := list (string * V).

Definition empty : t := [].

Fixpoint get (k : string) (m : t) : option V :=
match m with
| [] => None
| (k', v) :: m' => if decide (k = k') then Some v else get k m'
end.

(** An existing key keeps its position, a new key goes last. *)
Fixpoint set (k : string) (v : V) (m : t) : t :=
match m with
| [] => [(k, v)]
| (k', v') :: m' =>
    if decide (k = k') then (k, v) :: m' else (k', v') :: set k v m'
end.

Fixpoint delete (k : string) (m : t) : t :=
match m with
| [] => []
| (k', v) :: m' =>
    if decide (k = k') then delete k m' else (k', v) :: delete k m'
end.

Definition entries (m : t) : list (string * V) := m.

Definition keys (m : t) : list string := m.*1.

Definition size (m : t) : nat := length m.
End JsMap.
Arguments t : clear implicits.
End JsMap.

(** ** Wire protocol (the interfaces at the top of [index.ts]) *)

Record FigmaToolRequest : Type := {
  req_id : string;
  req_tool : string;
  req_args : json;
}.

(** The fields are typed as the interface declares them ([error?: string]).
    The cast [data as FigmaToolResponse] on line 280 is unchecked; a value
    that need not inhabit the interface is an [UncheckedResponse] below. *)
Record FigmaToolResponse : Type := {
  res_id : string;
  res_success : bool;
  res_data : any;
  res_error : option string;
}.

Record FigmaEvent : Type := {
  ev_event : string;
  ev_data : any;
}.

(** A parsed inbound value as the "message" handler sees it.  The handler
    reads the discriminant [data.type] and then casts the same value to
    [FigmaToolResponse] or [FigmaEvent]; the record keeps the discriminant
    ([None]: member missing or not a string) next to the two views the casts
    give. *)
Record WebSocketMessage : Type := {
  msg_type : option string;
  as_FigmaToolResponse : FigmaToolResponse;
  as_FigmaEvent : FigmaEvent;
}.

(** A value whose [type] is ["tool_response"], read without the types the
    unchecked cast on line 280 asserts: the members as [JSON.parse] gave
    them. *)
Record UncheckedResponse : Type := {
  raw_id : any;
  raw_success : any;
  raw_data : any;
  raw_error : any;
}.

(** What [JSON.parse(message.toString())] followed by the read of [data.type]
    does: it throws ([Unparseable]: the text is not JSON, or it is the value
    [null]) or yields a value with its discriminant.  [Parsed] is a value
    that inhabits the declared interfaces.  [Unchecked] is a value whose
    [type] is ["tool_response"] and whose other members are whatever the peer
    sent; it comes with [String(response.error)] as the template literal on
    line 170 evaluates it: the text, or the [TypeError] thrown for an object
    that cannot be converted to a primitive (one with a member named
    [toString]). *)
Inductive Inbound : Type :=
  | Unparseable
  | Parsed (data : WebSocketMessage)
  | Unchecked (response : UncheckedResponse) (error_text : Error + string).

(** A frame handed to [ws.send]. *)
Inductive Outbound : Type :=
  | Welcome
  | ToolRequest (r : FigmaToolRequest).

(** ** Runtime store *)

Inductive ReadyState : Type := CONNECTING | OPEN | CLOSING | CLOSED.

Global Instance ReadyState_eq_dec : EqDecision ReadyState.
Proof. solve_decision. Defined.

(** How a promise was settled by one call of its [resolve] or [reject]. *)
Inductive Outcome : Type :=
  | Fulfilled (value : any)
  | Rejected (reason : Error).

(** [PendingRequest]: [pr_settle] is the promise whose [resolve]/[reject] pair
    the entry holds, [pr_timeout] the handle returned by [setTimeout]. *)
Record PendingRequest : Type := {
  pr_id : string;
  pr_toolName : string;
  pr_timestamp : N;
  pr_settle : nat;
  pr_timeout : nat;
}.

(** The closure passed to [setTimeout] in [sendToFigma]: it captures
    [requestId] and the [reject] of the promise under construction. *)
Record Timer : Type := {
  tm_delay : N;
  tm_requestId : string;
  tm_reject : nat;
}.

Record ServerState : Type := {
  figmaConnection : option nat;
  pendingRequests : JsMap.t PendingRequest;
  isConnected : bool;
}.

Record World : Type := {
  serverState : ServerState;
  sockets : gmap nat ReadyState;        (* readyState of every socket object *)
  nextSocket : nat;
  outbox : list (nat * Outbound);       (* calls of ws.send, oldest first *)
  timers : gmap nat Timer;              (* armed timeouts *)
  nextTimer : nat;
  settled : list (nat * Outcome);       (* calls of resolve/reject, oldest first *)
  nextPromise : nat;
  uuidCalls : nat;                      (* calls of randomUUID so far *)
}.

Definition REQUEST_TIMEOUT : N := 5000.

Definition initial : World := {|
  serverState := {| figmaConnection := None;
                    pendingRequests := JsMap.empty;
                    isConnected := false |};
  sockets := ∅; nextSocket := 0; outbox := [];
  timers := ∅; nextTimer := 0;
  settled := []; nextPromise := 0; uuidCalls := 0;
|}.

(** *** Store updates *)

Definition with_serverState (st : ServerState) (w : World) : World :=
  {| serverState := st; sockets := sockets w; nextSocket := nextSocket w;
     outbox := outbox w; timers := timers w; nextTimer := nextTimer w;
     settled := settled w; nextPromise := nextPromise w;
     uuidCalls := uuidCalls w |}.

Definition with_pendingRequests (m : JsMap.t PendingRequest) (w : World) : World :=
  with_serverState
    {| figmaConnection := figmaConnection (serverState w);
       pendingRequests := m;
       isConnected := isConnected (serverState w) |} w.

Definition with_timers (ts : gmap nat Timer) (w : World) : World :=
  {| serverState := serverState w; sockets := sockets w;
     nextSocket := nextSocket w; outbox := outbox w;
     timers := ts; nextTimer := nextTimer w;
     settled := settled w; nextPromise := nextPromise w;
     uuidCalls := uuidCalls w |}.

Definition with_sockets (ss : gmap nat ReadyState) (w : World) : World :=
  {| serverState := serverState w; sockets := ss;
     nextSocket := nextSocket w; outbox := outbox w;
     timers := timers w; nextTimer := nextTimer w;
     settled := settled w; nextPromise := nextPromise w;
     uuidCalls := uuidCalls w |}.

(** [clearTimeout(h)]. *)
Definition clearTimeout (h : nat) (w : World) : World :=
  with_timers (delete h (timers w)) w.

(** [serverState.pendingRequests.delete(id)]. *)
Definition pendingRequests_delete (id : string) (w : World) : World :=
  with_pendingRequests (JsMap.delete id (pendingRequests (serverState w))) w.

(** One call of the [resolve] or [reject] function of promise [p]. *)
Definition settle (p : nat) (o : Outcome) (w : World) : World :=
  {| serverState := serverState w; sockets := sockets w;
     nextSocket := nextSocket w; outbox := outbox w;
     timers := timers w; nextTimer := nextTimer w;
     settled := settled w ++ [(p, o)]; nextPromise := nextPromise w;
     uuidCalls := uuidCalls w |}.

(** [ws.send(frame)] as far as the store sees it: the attempt is recorded. *)
Definition record_send (ws : nat) (f : Outbound) (w : World) : World :=
  {| serverState := serverState w; sockets := sockets w;
     nextSocket := nextSocket w; outbox := outbox w ++ [(ws, f)];
     timers := timers w; nextTimer := nextTimer w;
     settled := settled w; nextPromise := nextPromise w;
     uuidCalls := uuidCalls w |}.

(** The state of promise [p] as its awaiter sees it: the first settlement
    wins, later calls of [resolve]/[reject] are ignored by the runtime. *)
Fixpoint first_settlement (p : nat) (log : list (nat * Outcome)) : option Outcome :=
  match log with
  | [] => None
  | (q, o) :: log' => if decide (p = q) then Some o else first_settlement p log'
  end.

Definition promise_state (w : World) (p : nat) : option Outcome :=
  first_settlement p (settled w).

(** How many times [resolve]/[reject] of promise [p] were called. *)
Definition occurrences (p : nat) (l : list nat) : nat :=
  length (filter (λ q, q = p) l).

Definition settle_count (w : World) (p : nat) : nat :=
  occurrences p (settled w).*1.

(** ** The bridge *)

Definition NOT_CONNECTED : string :=
  "Figma plugin is not connected. Please open Figma and run the MCP plugin.".

Definition TIMEOUT_MESSAGE : string :=
  "Request timeout: Figma did not respond within " +:+ pretty REQUEST_TIMEOUT +:+ "ms".

Definition DISCONNECTED : string := "Figma plugin disconnected".

Definition UNKNOWN_FIGMA_ERROR : string := "Unknown error from Figma".

Definition isFigmaConnected (w : World) : bool :=
  match figmaConnection (serverState w) with
  | None => false
  | Some ws => bool_decide (sockets w !! ws = Some OPEN)
  end.

(** The callback given to [setTimeout] (lines 113-117).  It runs only while
    its timer is armed, and a timeout fires once. *)
Definition timeoutCallback (h : nat) (w : World) : World :=
  match timers w !! h with
  | None => w
  | Some t =>
      settle (tm_reject t) (Rejected (mkError TIMEOUT_MESSAGE))
        (pendingRequests_delete (tm_requestId t)
           (with_timers (delete h (timers w)) w))
  end.

Section Bridge.
(** [randomUUID()]: the value returned by the n-th call. *)
Variable randomUUID : nat → string.

(** [sendToFigma(toolName, args)].  [now] is the reading of [Date.now()];
    [sendThrows] is [Some text] when the statement
    [serverState.figmaConnection!.send(JSON.stringify(request))] throws,
    [text] being the thrown value as the template literal on line 144 prints
    it.  The frame handed to [send] is the text [JSON.stringify(request)]; it
    is recorded as the request a receiver parses from that text.  The result
    is the exception thrown before the promise exists, or the promise.
    Console output is not part of the store. *)
Definition sendToFigma (toolName : string) (args : json) (now : N)
    (sendThrows : option string) (w : World) : World * (Error + nat) :=
  if negb (isFigmaConnected w) then (w, inl (mkError NOT_CONNECTED))
  else
    let requestId := randomUUID (uuidCalls w) in
    let promise := nextPromise w in
    let timeout := nextTimer w in
    let request :=
      {| req_id := requestId; req_tool := toolName; req_args := serialized args |} in
    let w1 :=
      {| serverState :=
           {| figmaConnection := figmaConnection (serverState w);
              pendingRequests :=
                JsMap.set requestId
                  {| pr_id := requestId; pr_toolName := toolName;
                     pr_timestamp := now; pr_settle := promise;
                     pr_timeout := timeout |}
                  (pendingRequests (serverState w));
              isConnected := isConnected (serverState w) |};
         sockets := sockets w; nextSocket := nextSocket w;
         outbox := outbox w;
         timers :=
           <[timeout := {| tm_delay := REQUEST_TIMEOUT;
                           tm_requestId := requestId;
                           tm_reject := promise |}]> (timers w);
         nextTimer := S timeout;
         settled := settled w;
         nextPromise := S promise;
         uuidCalls := S (uuidCalls w) |} in
    let attempt :=
      match figmaConnection (serverState w1) with
      | Some ws => (record_send ws (ToolRequest request) w1, sendThrows)
      | None => (w1, Some "TypeError: Cannot read properties of null (reading 'send')")
      end in
    match attempt.2 with
    | None => (attempt.1, inr promise)
    | Some error =>
        (settle promise
           (Rejected (mkError ("Failed to send request to Figma: " +:+ error)))
           (pendingRequests_delete requestId (clearTimeout timeout attempt.1)),
         inr promise)
    end.
End Bridge.

(** [handleFigmaResponse(response)]. *)
Definition handleFigmaResponse (response : FigmaToolResponse) (w : World) : World :=
  match JsMap.get (res_id response) (pendingRequests (serverState w)) with
  | None => w
  | Some pending =>
      let w1 := pendingRequests_delete (res_id response)
                  (clearTimeout (pr_timeout pending) w) in
      if res_success response then
        settle (pr_settle pending) (Fulfilled (res_data response)) w1
      else
        settle (pr_settle pending)
          (Rejected (mkError
             (match res_error response with
              | Some e => if String.eqb e EmptyString then UNKNOWN_FIGMA_ERROR else e
              | None => UNKNOWN_FIGMA_ERROR
              end))) w1
  end.

(** [handleFigmaResponse] on a value that need not inhabit its parameter
    type.  [Map.get] finds nothing under a key that is not a string;
    [response.success] is tested for truthiness; when it is falsy the log
    line on line 170 converts [response.error] to a string, and if that
    throws, the entry is already deleted and its timer cleared (lines
    162-163) while [reject] on line 171 is never reached: the handler of
    "message" catches the exception on line 287. *)
Definition handleFigmaResponse_unchecked (response : UncheckedResponse)
    (error_text : Error + string) (w : World) : World :=
  match raw_id response with
  | Some (JStr id) =>
      match JsMap.get id (pendingRequests (serverState w)) with
      | None => w
      | Some pending =>
          let w1 := pendingRequests_delete id
                      (clearTimeout (pr_timeout pending) w) in
          if truthy (raw_success response) then
            settle (pr_settle pending) (Fulfilled (raw_data response)) w1
          else
            match error_text with
            | inl _ => w1
            | inr text =>
                settle (pr_settle pending)
                  (Rejected (mkError (if truthy (raw_error response) then text
                                      else UNKNOWN_FIGMA_ERROR))) w1
            end
      end
  | _ => w
  end.

(** [wss.on("connection", ws => ...)]: the socket object is new and open. *)
Definition onConnection (w : World) : World :=
  let ws := nextSocket w in
  record_send ws Welcome
    {| serverState :=
         {| figmaConnection := Some ws;
            pendingRequests := pendingRequests (serverState w);
            isConnected := true |};
       sockets := <[ws := OPEN]> (sockets w);
       nextSocket := S ws;
       outbox := outbox w; timers := timers w; nextTimer := nextTimer w;
       settled := settled w; nextPromise := nextPromise w;
       uuidCalls := uuidCalls w |}.

(** [ws.on("message", ...)]: whatever is thrown inside is caught and
    logged. *)
Definition onMessage (message : Inbound) (w : World) : World :=
  match message with
  | Unparseable => w
  | Parsed data =>
      if decide (msg_type data = Some "tool_response") then
        handleFigmaResponse (as_FigmaToolResponse data) w
      else if decide (msg_type data = Some "event") then w
      else w
  | Unchecked response error_text =>
      handleFigmaResponse_unchecked response error_text w
  end.

(** The body of the [for ... of serverState.pendingRequests.entries()] loop. *)
Definition rejectPending (w : World) (entry : string * PendingRequest) : World :=
  pendingRequests_delete entry.1
    (settle (pr_settle entry.2) (Rejected (mkError DISCONNECTED))
       (clearTimeout (pr_timeout entry.2) w)).

(** [ws.on("close", ...)].  The closure does not mention [ws]. *)
Definition onClose (w : World) : World :=
  let w1 :=
    with_serverState
      {| figmaConnection := None;
         pendingRequests := pendingRequests (serverState w);
         isConnected := false |} w in
  fold_left rejectPending (JsMap.entries (pendingRequests (serverState w1))) w1.

(** [ws.on("error", ...)] only logs. *)
Definition onError (w : World) : World := w.

(** ** The event loop *)

(** Everything that can run between two turns of the loop.  A socket handle
    names a socket object created by an earlier "connection"; handlers exist
    only on such sockets.  [ReadyStateChange] is the transport moving a socket
    through its life cycle without the bridge being told. *)
Inductive Event : Type :=
  | Connection
  | ReadyStateChange (ws : nat) (rs : ReadyState)
  | Message (ws : nat) (message : Inbound)
  | Close (ws : nat)
  | SocketError (ws : nat)
  | TimerFires (h : nat)
  | SendToFigma (toolName : string) (args : json) (now : N)
      (sendThrows : option string).

Section EventLoop.
Variable randomUUID : nat → string.

Definition known_socket (ws : nat) (w : World) : bool :=
  bool_decide (is_Some (sockets w !! ws)).

Definition step (w : World) (e : Event) : World :=
  match e with
  | Connection => onConnection w
  | ReadyStateChange ws rs =>
      if known_socket ws w then with_sockets (<[ws := rs]> (sockets w)) w
      else w
  | Message ws message =>
      if known_socket ws w then onMessage message w else w
  | Close ws =>
      if known_socket ws w
      then onClose (with_sockets (<[ws := CLOSED]> (sockets w)) w)
      else w
  | SocketError ws => if known_socket ws w then onError w else w
  | TimerFires h => timeoutCallback h w
  | SendToFigma toolName args now sendThrows =>
      (sendToFigma randomUUID toolName args now sendThrows w).1
  end.

Definition run (es : list Event) (w : World) : World := fold_left step es w.

Definition reachable (w : World) : Prop := ∃ es, w = run es initial.
End EventLoop.

(** ** The control-plane handler *)

Inductive ContentItem : Type := TextContent (text : string).

(** The object returned to the MCP client; [isError] absent reads [false]. *)
Record CallToolResult : Type := {
  content : list ContentItem;
  isError : bool;
}.

(** One [if (name === "...") { ... }] block of the handler: the defaults and
    checks on the arguments (an early [return], or the arguments passed to
    [sendToFigma]) and the formatting of the awaited result, which may throw. *)
Record Tool : Type := {
  tool_name : string;
  tool_prepare : any → CallToolResult + json;
  tool_format : any → any → Error + CallToolResult;
}.

Definition dq : string :=
  String (Ascii.Ascii false true false false false true false false) EmptyString.

Definition nl : string :=
  String (Ascii.Ascii false true false true false false false false) EmptyString.

(** The [catch (error)] block of the handler (lines 237-249). *)
Definition catch_block (name : string) (error : Error) : CallToolResult :=
  {| content :=
       [TextContent ("Error executing tool " +:+ dq +:+ name +:+ dq +:+ ": "
                     +:+ message error)];
     isError := true |}.

Fixpoint find_tool (name : string) (tools : list Tool) : option Tool :=
  match tools with
  | [] => None
  | t :: tools' =>
      if decide (name = tool_name t) then Some t else find_tool name tools'
  end.

(** The handler up to its [await], or to its [return] when it has none. *)
Inductive Handling : Type :=
  | Returned (result : CallToolResult)
  | Awaiting (promise : nat) (resume : Outcome → CallToolResult).

(** The rest of the [try] block once the awaited promise settles. *)
Definition resumeHandler (t : Tool) (name : string) (args : any)
    (o : Outcome) : CallToolResult :=
  match o with
  | Rejected error => catch_block name error
  | Fulfilled result =>
      match tool_format t args result with
      | inl error => catch_block name error
      | inr r => r
      end
  end.

Section Handler.
Variable randomUUID : nat → string.
Variable tools : list Tool.

(** [server.setRequestHandler(CallToolRequestSchema, ...)]. *)
Definition callTool (name : string) (args : any) (now : N)
    (sendThrows : option string) (w : World) : World * Handling :=
  match find_tool name tools with
  | None => (w, Returned (catch_block name (mkError ("Unknown tool: " +:+ name))))
  | Some t =>
      match tool_prepare t args with
      | inl early => (w, Returned early)
      | inr toolArgs =>
          match sendToFigma randomUUID (tool_name t) toolArgs now sendThrows w with
          | (w', inl error) => (w', Returned (catch_block name error))
          | (w', inr promise) => (w', Awaiting promise (resumeHandler t name args))
          end
      end
  end.

End Handler.

(** *** The [ping] tool of [index.ts] *)

Section Ping.
(** [String(v)] as a template literal applies it: the text, or the
    [TypeError] it throws on an object that cannot be converted. *)
Variable ToString : any → Error + string.

Definition DEFAULT_PING : string := "Hello from Claude Desktop!".

(** [(args as any)?.message || "Hello from Claude Desktop!"]. *)
Definition ping_message (args : any) : json :=
  match optional_member args "message" with
  | Some v => if truthy (Some v) then v else JStr DEFAULT_PING
  | None => JStr DEFAULT_PING
  end.

(** [result.k]: reading a member of [undefined] or [null] throws. *)
Definition read_member (v : any) (k : string) : Error + any :=
  match v with
  | None =>
      inl (mkError ("Cannot read properties of undefined (reading '" +:+ k +:+ "')"))
  | Some JNull =>
      inl (mkError ("Cannot read properties of null (reading '" +:+ k +:+ "')"))
  | Some (JObj ms) => inr (member k ms)
  | Some _ => inr None
  end.

Definition ping_format (args result : any) : Error + CallToolResult :=
  match ToString (Some (ping_message args)) with
  | inl e => inl e
  | inr yours =>
  match read_member result "message" with
  | inl e => inl e
  | inr m =>
  match ToString m with
  | inl e => inl e
  | inr m' =>
  match ToString (optional_member result "timestamp") with
  | inl e => inl e
  | inr ts =>
  match ToString (optional_member result "figmaVersion") with
  | inl e => inl e
  | inr fv =>
      inr {| content :=
               [TextContent
                  ("🏓 PONG! Full round-trip successful!" +:+ nl +:+ nl
                   +:+ "Your message: " +:+ dq +:+ yours +:+ dq +:+ nl
                   +:+ "Figma response: " +:+ m' +:+ nl
                   +:+ "Figma timestamp: " +:+ ts +:+ nl
                   +:+ "Figma version: " +:+ fv +:+ nl
                   +:+ "MCP Server: figma-mcp-server v1.0.0")];
             isError := false |}
  end end end end end.

Definition ping : Tool := {|
  tool_name := "ping";
  tool_prepare := λ args, inr (JObj [("message", ping_message args)]);
  tool_format := ping_format;
|}.

(** The handler of [src/index.ts] knows exactly the tools it lists. *)
Definition tools_index_ts : list Tool := [ping].

Definition listTools : list string := ["ping"].
End Ping.

(** * Vocabulary of the statements *)

(** ** Outcomes and closed forms *)

(** The outcome a response settles its call with. *)
Definition response_outcome (response : FigmaToolResponse) : Outcome :=
  if res_success response then Fulfilled (res_data response)
  else Rejected (mkError
         (match res_error response with
          | Some e => if String.eqb e EmptyString then UNKNOWN_FIGMA_ERROR else e
          | None => UNKNOWN_FIGMA_ERROR
          end)).

(** The store after one entry was removed and its call settled. *)
Definition resolved (k : string) (pending : PendingRequest) (o : Outcome)
    (w : World) : World :=
  {| serverState :=
       {| figmaConnection := figmaConnection (serverState w);
          pendingRequests := JsMap.delete k (pendingRequests (serverState w));
          isConnected := isConnected (serverState w) |};
     sockets := sockets w; nextSocket := nextSocket w; outbox := outbox w;
     timers := delete (pr_timeout pending) (timers w); nextTimer := nextTimer w;
     settled := settled w ++ [(pr_settle pending, o)];
     nextPromise := nextPromise w; uuidCalls := uuidCalls w |}.

(** What the "close" loop records for one entry, and the timers it leaves. *)
Definition disconnect_rejection (entry : string * PendingRequest) : nat * Outcome :=
  (pr_settle entry.2, Rejected (mkError DISCONNECTED)).

Definition disarm_all (es : list (string * PendingRequest))
    (ts : gmap nat Timer) : gmap nat Timer :=
  fold_left (λ ts' e, delete (pr_timeout e.2) ts') es ts.

(** The promise an entry of the table settles. *)
Definition promise_of (entry : string * PendingRequest) : nat := pr_settle entry.2.

(** Promise [p] belongs to an entry of the pending-request table. *)
Definition registered (w : World) (p : nat) : Prop :=
  p ∈ promise_of <$> pendingRequests (serverState w).

(** ** The correlation invariant *)

Section Consistency.
Variable randomUUID : nat → string.

(** What ties the table, the armed timers and the settlement record
    together.  It only reads six components of the store. *)
Record Consistent (tbl : JsMap.t PendingRequest) (ts : gmap nat Timer)
    (nT : nat) (log : list (nat * Outcome)) (nP nU : nat) : Prop := {
  table_keys : NoDup (JsMap.keys tbl);
  table_ids : ∀ k pending, (k, pending) ∈ tbl → ∃ i, i < nU ∧ k = randomUUID i;
  table_timer : ∀ k pending, (k, pending) ∈ tbl →
    ∃ t, ts !! pr_timeout pending = Some t
         ∧ tm_requestId t = k ∧ tm_reject t = pr_settle pending;
  timer_table : ∀ h t, ts !! h = Some t →
    ∃ pending, (tm_requestId t, pending) ∈ tbl
               ∧ pr_timeout pending = h ∧ pr_settle pending = tm_reject t;
  timer_bound : ∀ h t, ts !! h = Some t → h < nT;
  table_promises : NoDup (promise_of <$> tbl);
  promise_bound : ∀ p, p ∈ promise_of <$> tbl → p < nP;
  settled_bound : ∀ p, p ∈ log.*1 → p < nP;
  pending_unsettled : ∀ p, p ∈ promise_of <$> tbl → occurrences p log.*1 = 0;
  resolved_once : ∀ p, occurrences p log.*1 ≤ 1;
}.

(** Every call made so far and no longer in the table was settled. *)
Definition Answered (tbl : JsMap.t PendingRequest) (log : list (nat * Outcome))
    (nP : nat) : Prop :=
  ∀ p, p < nP → p ∉ promise_of <$> tbl → p ∈ log.*1.

Definition answered (w : World) : Prop :=
  Answered (pendingRequests (serverState w)) (settled w) (nextPromise w).

Definition consistent (w : World) : Prop :=
  Consistent (pendingRequests (serverState w)) (timers w) (nextTimer w)
    (settled w) (nextPromise w) (uuidCalls w).
End Consistency.

Arguments table_keys {_ _ _ _ _ _ _} _.
Arguments table_ids {_ _ _ _ _ _ _} _.
Arguments table_timer {_ _ _ _ _ _ _} _.
Arguments timer_table {_ _ _ _ _ _ _} _.
Arguments timer_bound {_ _ _ _ _ _ _} _.
Arguments table_promises {_ _ _ _ _ _ _} _.
Arguments promise_bound {_ _ _ _ _ _ _} _.
Arguments settled_bound {_ _ _ _ _ _ _} _.
Arguments pending_unsettled {_ _ _ _ _ _ _} _.
Arguments resolved_once {_ _ _ _ _ _ _} _.

(** ** Batches of calls and of responses *)



(** ** Classifying inbound messages *)

Definition is_tool_response (message : Inbound) : bool :=
  match message with
  | Unparseable => false
  | Parsed data => bool_decide (msg_type data = Some "tool_response")
  | Unchecked _ _ => true
  end.

(** A response of the declared interface as the value it is at run time,
    and what [String] gives for its [error]. *)
Definition unchecked (response : FigmaToolResponse) : UncheckedResponse :=
  {| raw_id := Some (JStr (res_id response));
     raw_success := Some (JBool (res_success response));
     raw_data := res_data response;
     raw_error := JStr <$> res_error response |}.

Definition declared_error_text (response : FigmaToolResponse) : string :=
  match res_error response with
  | Some e => e
  | None => "undefined"
  end.

(** Whether line 170 cannot throw on the frame of event [e], if it has one:
    the line is reached only with a falsy [success], and throws only when the
    conversion of [error] does. *)
Definition error_prints (e : Event) : bool :=
  match e with
  | Message _ (Unchecked response (inl _)) => truthy (raw_success response)
  | _ => true
  end.

(** ** Sample inputs *)

(** A source of ids that never repeats itself: the decimal numerals. *)
Definition sample_uuid : nat → string := pretty.


(** A stand-in for [String(v)] covering the values the examples print; of
    the numbers, only the integers and the infinities are printed as
    JavaScript prints them. *)
Definition sample_ToString (v : any) : Error + string :=
  match v with
  | None => inr "undefined"
  | Some JNull => inr "null"
  | Some (JBool true) => inr "true"
  | Some (JBool false) => inr "false"
  | Some (JNum (Finite q)) =>
      inr (if bool_decide (Qden q = 1%positive) then pretty (Qnum q)
           else pretty (Qnum q) +:+ "/" +:+ pretty (Zpos (Qden q)))
  | Some (JNum (Infinite negative)) =>
      inr (if negative then "-Infinity" else "Infinity")
  | Some (JStr s) => inr s
  | Some (JArr _) => inr EmptyString
  | Some (JObj ms) =>
      match member "toString" ms with
      | Some _ => inl (mkError "Cannot convert object to primitive value")
      | None => inr "[object Object]"
      end
  end.

Definition hi : json := JObj [("message", JStr "hi")].

Definition sample_response (id : string) (value : json) : FigmaToolResponse :=
  {| res_id := id; res_success := true; res_data := Some value; res_error := None |}.

Definition sample_envelope (type : option string) (r : FigmaToolResponse) : Inbound :=
  Parsed {| msg_type := type; as_FigmaToolResponse := r;
            as_FigmaEvent := {| ev_event := "selectionchange"; ev_data := None |} |}.

(** A failure report whose [error] is an object with a member named
    [toString], which [String] cannot convert. *)
Definition sample_unprintable : UncheckedResponse :=
  {| raw_id := Some (JStr "0");
     raw_success := Some (JBool false);
     raw_data := None;
     raw_error := Some (JObj [("toString", JNum (Finite (Qc_of_Z 1)))]) |}.

(** The plugin connects; two calls are made; the second is answered twice. *)
Definition sample_trace : list Event :=
  [ Connection;
    SendToFigma "ping" hi 10 None;
    SendToFigma "ping" hi 11 None;
    Message 0 (sample_envelope (Some "tool_response") (sample_response "1" hi));
    Message 0 (sample_envelope (Some "tool_response") (sample_response "1" JNull)) ].

(** ** What went out on the wire, and what a handler leaves alone *)

(** The tool requests handed to [ws.send], oldest first, with the socket each
    was handed to; and the sockets that were sent the welcome message. *)
Definition sent_requests (w : World) : list (nat * FigmaToolRequest) :=
  omap (λ x, match x.2 with ToolRequest r => Some (x.1, r) | Welcome => None end)
       (outbox w).

Definition welcomed (w : World) : list nat :=
  omap (λ x, match x.2 with Welcome => Some x.1 | ToolRequest _ => None end)
       (outbox w).

(** The components only [sendToFigma] and the "connection" handler advance. *)
Definition counters (w : World) : list (nat * Outbound) * nat * nat * nat * nat :=
  (outbox w, nextSocket w, nextTimer w, nextPromise w, uuidCalls w).

(** The components that say which socket is connected. *)
Definition connection (w : World) : option nat * bool * gmap nat ReadyState * nat :=
  (figmaConnection (serverState w), isConnected (serverState w), sockets w,
   nextSocket w).

(** Whether event [e] is one of those that resolve the entry filed under
    [k] whose timer is [h]: any "close", a response carrying [k], the firing
    of [h]. *)
Definition concerns (e : Event) (k : string) (h : nat) : bool :=
  match e with
  | Close _ => true
  | Message _ (Parsed data) =>
      bool_decide (msg_type data = Some "tool_response"
                   ∧ res_id (as_FigmaToolResponse data) = k)
  | Message _ (Unchecked response _) =>
      same_string (raw_id response) k
  | TimerFires h' => bool_decide (h' = h)
  | _ => false
  end.

(** The failure text a response carries, as [handleFigmaResponse] reads it. *)
Definition failure_text (response : FigmaToolResponse) : string :=
  match res_error response with
  | Some e => if String.eqb e EmptyString then UNKNOWN_FIGMA_ERROR else e
  | None => UNKNOWN_FIGMA_ERROR
  end.

(** * The tool blocks of the twelve-tool handler ([unnamed/part_000]) *)

(** [a || d]. *)
Definition or_default (a : any) (d : json) : json :=
  match a with
  | Some v => if truthy a then v else d
  | None => d
  end.

Definition Array_isArray (v : any) : bool :=
  match v with
  | Some (JArr _) => true
  | _ => false
  end.

(** [v.length === 0], read only once [v] is known to be an array. *)
Definition length_is_zero (v : any) : bool :=
  match v with
  | Some (JArr []) => true
  | _ => false
  end.

(** [!nodeIds || !Array.isArray(nodeIds) || nodeIds.length === 0]. *)
Definition nodeIds_rejected (nodeIds : any) : bool :=
  negb (truthy nodeIds) || negb (Array_isArray nodeIds) || length_is_zero nodeIds.

(** An object literal [{ a, b, ... }] as [JSON.stringify] on line 138 of
    [sendToFigma] prints it, the only reader it has: members whose value is
    [undefined] are left out. *)
Definition object_literal (ms : list (string * any)) : json :=
  JObj (omap (λ m, pair m.1 <$> m.2) ms).

(** The early [return { content: [{ type: "text", text }], isError: true }]. *)
Definition refusal (text : string) : CallToolResult :=
  {| content := [TextContent text]; isError := true |}.

Section TwelveTools.
(** The statements of a block that follow its [await]: they build the text
    shown to the client from the arguments and the awaited result. *)
Variable format : string → any → any → Error + CallToolResult.

Definition get_selection : Tool := {|
  tool_name := "get_selection";
  tool_prepare := λ args,
    inr (object_literal
           [("includeChildren",
             Some (or_default (optional_member args "includeChildren") (JBool false)))]);
  tool_format := format "get_selection";
|}.

Definition set_selection : Tool := {|
  tool_name := "set_selection";
  tool_prepare := λ args,
    let nodeIds := optional_member args "nodeIds" in
    if nodeIds_rejected nodeIds then
      inl (refusal "Error: nodeIds parameter is required and must be a non-empty array of node IDs.")
    else inr (object_literal [("nodeIds", nodeIds)]);
  tool_format := format "set_selection";
|}.

Definition find_nodes : Tool := {|
  tool_name := "find_nodes";
  tool_prepare := λ args,
    let searchTerm := optional_member args "searchTerm" in
    let nodeType := optional_member args "nodeType" in
    let visibleOnly := or_default (optional_member args "visibleOnly") (JBool false) in
    let searchScope := or_default (optional_member args "searchScope") (JStr "page") in
    inr (object_literal [("searchTerm", searchTerm); ("nodeType", nodeType);
                         ("visibleOnly", Some visibleOnly);
                         ("searchScope", Some searchScope)]);
  tool_format := format "find_nodes";
|}.

Definition get_node_properties : Tool := {|
  tool_name := "get_node_properties";
  tool_prepare := λ args,
    let nodeIds := optional_member args "nodeIds" in
    if nodeIds_rejected nodeIds then
      inl (refusal "Error: nodeIds parameter is required and must be a non-empty array.")
    else inr (object_literal [("nodeIds", nodeIds)]);
  tool_format := format "get_node_properties";
|}.

Definition get_text_content : Tool := {|
  tool_name := "get_text_content";
  tool_prepare := λ args,
    inr (object_literal [("nodeIds", optional_member args "nodeIds")]);
  tool_format := format "get_text_content";
|}.

Definition set_text_content : Tool := {|
  tool_name := "set_text_content";
  tool_prepare := λ args,
    let nodeId := optional_member args "nodeId" in
    let text := optional_member args "text" in
    if negb (truthy nodeId) || negb (truthy text) then
      inl (refusal "Error: Both nodeId and text parameters are required.")
    else inr (object_literal [("nodeId", nodeId); ("text", text)]);
  tool_format := format "set_text_content";
|}.

Definition create_text_node : Tool := {|
  tool_name := "create_text_node";
  tool_prepare := λ args,
    let text := optional_member args "text" in
    let x := or_default (optional_member args "x") (JNum (Finite (Qc_of_Z 0))) in
    let y := or_default (optional_member args "y") (JNum (Finite (Qc_of_Z 0))) in
    let fontSize := or_default (optional_member args "fontSize") (JNum (Finite (Qc_of_Z 16))) in
    let fontFamily := or_default (optional_member args "fontFamily") (JStr "Inter") in
    let fontStyle := or_default (optional_member args "fontStyle") (JStr "Regular") in
    let parentId := optional_member args "parentId" in
    if negb (truthy text) then inl (refusal "Error: text parameter is required.")
    else inr (object_literal [("text", text); ("x", Some x); ("y", Some y);
                              ("fontSize", Some fontSize);
                              ("fontFamily", Some fontFamily);
                              ("fontStyle", Some fontStyle);
                              ("parentId", parentId)]);
  tool_format := format "create_text_node";
|}.

Definition rename_node : Tool := {|
  tool_name := "rename_node";
  tool_prepare := λ args,
    let nodeIds := optional_member args "nodeIds" in
    let newName := optional_member args "newName" in
    if nodeIds_rejected nodeIds || negb (truthy newName) then
      inl (refusal "Error: Both nodeIds (array) and newName (string) parameters are required.")
    else inr (object_literal [("nodeIds", nodeIds); ("newName", newName)]);
  tool_format := format "rename_node";
|}.

Definition set_node_visibility : Tool := {|
  tool_name := "set_node_visibility";
  tool_prepare := λ args,
    let nodeIds := optional_member args "nodeIds" in
    let visible := optional_member args "visible" in
    if nodeIds_rejected nodeIds || bool_decide (visible = None) then
      inl (refusal "Error: Both nodeIds (array) and visible (boolean) parameters are required.")
    else inr (object_literal [("nodeIds", nodeIds); ("visible", visible)]);
  tool_format := format "set_node_visibility";
|}.

Definition set_node_lock : Tool := {|
  tool_name := "set_node_lock";
  tool_prepare := λ args,
    let nodeIds := optional_member args "nodeIds" in
    let locked := optional_member args "locked" in
    if nodeIds_rejected nodeIds || bool_decide (locked = None) then
      inl (refusal "Error: Both nodeIds (array) and locked (boolean) parameters are required.")
    else inr (object_literal [("nodeIds", nodeIds); ("locked", locked)]);
  tool_format := format "set_node_lock";
|}.

End TwelveTools.

(** * The plugin ([figma-plugin/code.js] and its later versions) *)

Module Plugin.

(** An [Error] thrown inside the plugin, with its [name] and [message]. *)
Record Thrown : Type := {
  thrown_name : string;
  thrown_message : string;
}.

(** [error.message || String(error)]: with an empty message,
    [Error.prototype.toString] gives the name. *)
Definition error_text (error : Thrown) : string :=
  if String.eqb (thrown_message error) EmptyString then thrown_name error
  else thrown_message error.

(** What the lookup [toolHandlers[toolName]] can find. *)
Inductive Property : Type :=
  | Missing
  | NotCallable
  | Callable (handler : any → Thrown + any).

(** A message from the UI, read through [msg.type] and the destructuring
    [const { id, tool, args } = msg]. *)
Record Message : Type := {
  msg_type : option string;
  msg_id : string;
  msg_tool : string;
  msg_args : any;
}.

(** The calls of [figma.ui.postMessage]. *)
Inductive Post : Type :=
  | ConnectionStatusReady
  | StartConnection
  | StartDisconnection
  | ToolResponse (response : FigmaToolResponse).

Section Sandbox.
(** [figma.version]. *)
Variable figma_version : any.
(** What the prototype of the [toolHandlers] object offers under a name the
    object does not define itself, seen as a handler. *)
Variable Object_prototype : string → Property.
(** The [TypeError]s of the sandbox: reading a member of [undefined] or
    [null], and calling what is not a function. *)
Variable cannot_read : any → string → Thrown.
Variable not_a_function : Thrown.

(** [toolHandlers.ping]; [now] is [new Date().toISOString()]. *)
Definition ping (now : string) (args : any) : Thrown + any :=
  match args with
  | None | Some JNull => inl (cannot_read args "message")
  | _ =>
      inr (Some (object_literal
                   [("message",
                     Some (or_default (optional_member args "message")
                             (JStr "Pong from Figma!")));
                    ("timestamp", Some (JStr now));
                    ("figmaVersion", figma_version)]))
  end.

(** [toolHandlers[toolName]] for the registry of [code.js], whose only own
    member is [ping]. *)
Definition toolHandlers (now : string) (toolName : string) : Property :=
  if decide (toolName = "ping") then Callable (ping now)
  else Object_prototype toolName.

Definition executeTool (now : string) (toolName : string) (args : any) : Thrown + any :=
  match toolHandlers now toolName with
  | Missing =>
      inl {| thrown_name := "Error";
             thrown_message := "Unknown tool: " +:+ toolName |}
  | NotCallable => inl not_a_function
  | Callable handler => handler args
  end.

(** [figma.ui.onmessage]: the posts it makes, in order. *)
Definition onmessage (now : string) (msg : Message) : list Post :=
  (if decide (msg_type msg = Some "check-connection")
   then [ConnectionStatusReady] else [])
  ++ (if decide (msg_type msg = Some "connect-to-mcp")
      then [StartConnection] else [])
  ++ (if decide (msg_type msg = Some "disconnect-from-mcp")
      then [StartDisconnection] else [])
  ++ (if decide (msg_type msg = Some "tool_request") then
        [ToolResponse
           match executeTool now (msg_tool msg) (msg_args msg) with
           | inr data =>
               {| res_id := msg_id msg; res_success := true;
                  res_data := data; res_error := None |}
           | inl error =>
               {| res_id := msg_id msg; res_success := false;
                  res_data := None; res_error := Some (error_text error) |}
           end]
      else []).
End Sandbox.

(** ** Nodes of the document *)

Section Document.
(** Property values that are only copied: numbers, font names, fills. *)
Variable value : Type.

(** A node as the plugin reads it.  [None] for a position, a size or
    [node_children] means the property is not in the node. *)
Inductive SceneNode : Type := Node {
  node_id : string;
  node_name : string;
  node_type : string;
  node_visible : bool;
  node_locked : bool;
  node_x : option value;
  node_y : option value;
  node_width : option value;
  node_height : option value;
  node_characters : option value;
  node_fontSize : option value;
  node_fontName : option value;
  node_children : option (list SceneNode);
}.

Record TextData : Type := {
  td_characters : option value;
  td_fontSize : option value;
  td_fontName : option value;
}.

(** The plain object [serializeNode] builds. *)
Inductive NodeData : Type := Data {
  d_id : string;
  d_name : string;
  d_type : string;
  d_visible : bool;
  d_locked : bool;
  d_x : option value;
  d_y : option value;
  d_width : option value;
  d_height : option value;
  d_text : option TextData;
  d_children : option (list NodeData);
}.

Fixpoint serializeNode (node : SceneNode) (includeChildren : bool) : NodeData :=
  match node with
  | Node id name type visible locked x y width height
         characters fontSize fontName children =>
      Data id name type visible locked x y width height
        (if decide (type = "TEXT")
         then Some {| td_characters := characters; td_fontSize := fontSize;
                      td_fontName := fontName |}
         else None)
        (if includeChildren then
           match children with
           | Some cs => Some ((λ child, serializeNode child false) <$> cs)
           | None => None
           end
         else None)
  end.

(** An element of the list [scanChildren] returns: the serialized child with
    its [level] and [childCount]. *)
Record ScanEntry : Type := {
  se_data : NodeData;
  se_level : Z;
  se_childCount : nat;
}.

Definition has_children (node : SceneNode) : bool :=
  match node_children node with
  | Some _ => true
  | None => false
  end.

(** ['children' in child ? child.children.length : 0]. *)
Definition child_count (node : SceneNode) : nat :=
  match node_children node with
  | Some cs => length cs
  | None => 0
  end.

(** [v === s] for a string [s]. *)
Definition is_string (v : any) (s : string) : bool :=
  match v with
  | Some (JStr s') => String.eqb s' s
  | _ => false
  end.

(** [scanChildren] of the [scan_frame] handler, with the [depth] and [filter]
    of its closure; [depth] is taken to be an integer. *)
Fixpoint scanChildren (depth : Z) (filter : any) (node : SceneNode)
    (currentDepth currentLevel : Z) {struct node} : list ScanEntry :=
  if bool_decide (depth < currentDepth)%Z then []
  else
    match node with
    | Node _ _ _ _ _ _ _ _ _ _ _ _ children =>
        match children with
        | None => []
        | Some cs =>
            (fix each (cs : list SceneNode) : list ScanEntry :=
               match cs with
               | [] => []
               | child :: rest =>
                   (if truthy filter && negb (is_string filter (node_type child))
                    then
                      if bool_decide (currentDepth < depth)%Z
                      then scanChildren depth filter child (currentDepth + 1)
                             currentLevel
                      else []
                    else
                      {| se_data := serializeNode child false;
                         se_level := currentLevel;
                         se_childCount := child_count child |}
                      :: (if bool_decide (currentDepth < depth)%Z
                             && has_children child
                          then scanChildren depth filter child (currentDepth + 1)
                                 (currentLevel + 1)
                          else []))
                   ++ each rest
               end) cs
        end
    end.

(** What the [set_selection] handler does to the editor and returns. *)
Record SetSelection : Type := {
  selectedCount : nat;
  selected : list NodeData;
  notFound : list json;
  selection : list SceneNode;          (* figma.currentPage.selection = ... *)
  zoomed : option (list SceneNode);    (* scrollAndZoomIntoView(...), if called *)
}.

Section Editor.
(** [figma.getNodeById]. *)
Variable getNodeById : json → option SceneNode.
Variable cannot_read : any → string → Thrown.

(** One turn of the [for (const id of nodeIds)] loop on the two arrays. *)
Definition visit (acc : list SceneNode * list json) (id : json)
    : list SceneNode * list json :=
  match getNodeById id with
  | Some node => (acc.1 ++ [node], acc.2)
  | None => (acc.1, acc.2 ++ [id])
  end.

(** [toolHandlers.set_selection]. *)
Definition set_selection (args : any) : Thrown + SetSelection :=
  match args with
  | None | Some JNull => inl (cannot_read args "nodeIds")
  | _ =>
      match or_default (optional_member args "nodeIds") (JArr []) with
      | JArr nodeIds =>
          let found := fold_left visit nodeIds ([], []) in
          inr {| selectedCount := length found.1;
                 selected := (λ node, serializeNode node false) <$> found.1;
                 notFound := found.2;
                 selection := found.1;
                 zoomed := if bool_decide (0 < length found.1)
                           then Some found.1 else None |}
      | _ => inl {| thrown_name := "Error";
                    thrown_message := "nodeIds must be an array" |}
      end
  end.
End Editor.
End Document.
End Plugin.

(** ** Vocabulary for the plugin's statements *)

(** What one turn of the loop of [scanChildren] appends for [child]. *)
Definition scan_child {value : Type} (depth : Z) (filter : any)
    (currentDepth currentLevel : Z) (child : Plugin.SceneNode value)
    : list (Plugin.ScanEntry value) :=
  if truthy filter && negb (Plugin.is_string filter (Plugin.node_type value child))
  then
    if bool_decide (currentDepth < depth)%Z
    then Plugin.scanChildren value depth filter child (currentDepth + 1) currentLevel
    else []
  else
    {| Plugin.se_data := Plugin.serializeNode value child false;
       Plugin.se_level := currentLevel;
       Plugin.se_childCount := Plugin.child_count value child |}
    :: (if bool_decide (currentDepth < depth)%Z && Plugin.has_children value child
        then Plugin.scanChildren value depth filter child (currentDepth + 1)
               (currentLevel + 1)
        else []).

(** The number of nodes of a subtree. *)
Fixpoint node_size {value : Type} (node : Plugin.SceneNode value) : nat :=
  match node with
  | Plugin.Node _ _ _ _ _ _ _ _ _ _ _ _ _ children =>
      match children with
      | None => 1
      | Some cs =>
          S ((fix sum (cs : list (Plugin.SceneNode value)) : nat :=
                match cs with
                | [] => 0
                | c :: rest => node_size c + sum rest
                end) cs)
      end
  end.

(** Whether no infinite number occurs in [v], so that [JSON.stringify]
    writes [v] as it is. *)
Fixpoint finite (v : json) : bool :=
  match v with
  | JNum (Infinite _) => false
  | JArr items => forallb finite items
  | JObj members => forallb (λ m, finite m.2) members
  | _ => true
  end.

(** The tool response as the server parses it from the text the UI page
    forwards for the plugin's post. *)
Definition relayed (response : FigmaToolResponse) : FigmaToolResponse :=
  {| res_id := res_id response; res_success := res_success response;
     res_data := serialized <$> res_data response;
     res_error := res_error response |}.

(** The tool request as the plugin receives it from the UI. *)
Definition as_plugin_message (request : FigmaToolRequest) : Plugin.Message :=
  {| Plugin.msg_type := Some "tool_request";
     Plugin.msg_id := req_id request;
     Plugin.msg_tool := req_tool request;
     Plugin.msg_args := Some (req_args request) |}.

(** ** Sample inputs for the tool blocks and the plugin *)

(** A formatter that prints nothing. *)
Definition sample_format (name : string) (args data : any) : Error + CallToolResult :=
  inr {| content := [TextContent name]; isError := false |}.

(** A [String] that never throws. *)
Definition plain_ToString (v : any) : Error + string :=
  match sample_ToString v with
  | inr text => inr text
  | inl _ => inr "[object Object]"
  end.

Definition sample_cannot_read (v : any) (k : string) : Plugin.Thrown :=
  {| Plugin.thrown_name := "TypeError";
     Plugin.thrown_message := "Cannot read properties of undefined (reading '"
                              +:+ k +:+ "')" |}.

Definition sample_not_a_function : Plugin.Thrown :=
  {| Plugin.thrown_name := "TypeError";
     Plugin.thrown_message := "handler is not a function" |}.

(** A prototype that offers [toString] and the accessor [__proto__]. *)
Definition sample_prototype (name : string) : Plugin.Property :=
  if decide (name = "toString")
  then Plugin.Callable (λ _, inr (Some (JStr "[object Undefined]")))
  else if decide (name = "__proto__") then Plugin.NotCallable
  else Plugin.Missing.

Definition sample_leaf (id name type : string) : Plugin.SceneNode Z :=
  Plugin.Node Z id name type true false (Some 0%Z) (Some 0%Z) (Some 100%Z)
    (Some 20%Z) (Some 1%Z) (Some 16%Z) (Some 2%Z) None.

Definition sample_group (id name : string) (children : list (Plugin.SceneNode Z))
    : Plugin.SceneNode Z :=
  Plugin.Node Z id name "GROUP" true false (Some 0%Z) (Some 0%Z) (Some 100%Z)
    (Some 20%Z) None None None (Some children).

(** A frame holding a title, and a group holding a label and an icon. *)
Definition sample_frame : Plugin.SceneNode Z :=
  Plugin.Node Z "1:1" "Card" "FRAME" true false (Some 0%Z) (Some 0%Z) (Some 320%Z)
    (Some 200%Z) None None None
    (Some [sample_leaf "1:2" "Title" "TEXT";
           sample_group "1:3" "Row" [sample_leaf "1:4" "Label" "TEXT";
                                     sample_leaf "1:5" "Icon" "VECTOR"]]).

Definition sample_getNodeById (id : json) : option (Plugin.SceneNode Z) :=
  match id with
  | JStr "1:1" => Some sample_frame
  | JStr "1:2" => Some (sample_leaf "1:2" "Title" "TEXT")
  | _ => None
  end.

(** * Properties *)

(** ** The insertion-ordered map *)

Section JsMapFacts.
Context {V : Type}.
Implicit Types (m : JsMap.t V) (k : string) (v : V).

Lemma get_set_eq m k v : JsMap.get k (JsMap.set k v m) = Some v.
Proof.
  induction m as [|[k' v'] m IH]; simpl.
  - by rewrite decide_True.
  - destruct (decide (k = k')); simpl.
    + by rewrite decide_True.
    + by rewrite decide_False.
Qed.

Lemma get_set_ne m k k' v :
  k ≠ k' → JsMap.get k' (JsMap.set k v m) = JsMap.get k' m.
Proof.
  intros Hne. induction m as [|[k0 v0] m IH]; simpl.
  - by rewrite decide_False.
  - destruct (decide (k = k0)) as [->|]; simpl.
    + by rewrite !decide_False.
    + by rewrite IH.
Qed.

Lemma get_delete_eq m k : JsMap.get k (JsMap.delete k m) = None.
Proof.
  induction m as [|[k' v'] m IH]; simpl; [done|].
  destruct (decide (k = k')); simpl; [done|]. by rewrite decide_False.
Qed.

Lemma get_delete_ne m k k' :
  k ≠ k' → JsMap.get k' (JsMap.delete k m) = JsMap.get k' m.
Proof.
  intros Hne. induction m as [|[k0 v0] m IH]; simpl; [done|].
  destruct (decide (k = k0)) as [->|]; simpl.
  - by rewrite decide_False.
  - by rewrite IH.
Qed.

Lemma get_None_keys m k : JsMap.get k m = None ↔ k ∉ JsMap.keys m.
Proof.
  unfold JsMap.keys. induction m as [|[k' v'] m IH]; simpl.
  - split; [intros _; apply not_elem_of_nil | done].
  - rewrite not_elem_of_cons, <- IH. destruct (decide (k = k')); [|tauto].
    split; [done | intros [? _]; done].
Qed.

Lemma get_Some_elem_of m k v : JsMap.get k m = Some v → (k, v) ∈ m.
Proof.
  induction m as [|[k' v'] m IH]; simpl; [done|].
  destruct (decide (k = k')) as [->|]; intros H.
  - injection H as ->. apply list_elem_of_here.
  - apply list_elem_of_further. auto.
Qed.

Lemma elem_of_get m k v :
  NoDup (JsMap.keys m) → (k, v) ∈ m → JsMap.get k m = Some v.
Proof.
  unfold JsMap.keys. induction m as [|[k' v'] m IH]; simpl.
  - intros _ H. by apply elem_of_nil in H.
  - rewrite NoDup_cons. intros [Hk Hnd] [H|H]%elem_of_cons.
    + injection H as -> ->. by rewrite decide_True.
    + rewrite decide_False; [auto|].
      intros ->. apply Hk. apply (list_elem_of_fmap_2 fst) in H. done.
Qed.

Lemma delete_fresh m k : JsMap.get k m = None → JsMap.delete k m = m.
Proof.
  induction m as [|[k' v'] m IH]; simpl; [done|].
  destruct (decide (k = k')); [done|]. intros H. by rewrite IH.
Qed.

Lemma set_fresh m k v : JsMap.get k m = None → JsMap.set k v m = m ++ [(k, v)].
Proof.
  induction m as [|[k' v'] m IH]; simpl; [done|].
  destruct (decide (k = k')); [done|]. intros H. by rewrite IH.
Qed.

Lemma delete_app m1 m2 k :
  JsMap.delete k (m1 ++ m2) = JsMap.delete k m1 ++ JsMap.delete k m2.
Proof.
  induction m1 as [|[k' v'] m1 IH]; simpl; [done|].
  destruct (decide (k = k')); simpl; by rewrite IH.
Qed.

Lemma delete_set_fresh m k v :
  JsMap.get k m = None → JsMap.delete k (JsMap.set k v m) = m.
Proof.
  intros H. rewrite set_fresh, delete_app, delete_fresh by done.
  simpl. rewrite decide_True by done. apply app_nil_r.
Qed.

Lemma elem_of_delete m k k' v :
  (k', v) ∈ JsMap.delete k m ↔ (k', v) ∈ m ∧ k' ≠ k.
Proof.
  induction m as [|[k0 v0] m IH]; simpl.
  - split; [intros H; by apply elem_of_nil in H | intros [H _]; by apply elem_of_nil in H].
  - destruct (decide (k = k0)) as [->|Hne].
    + rewrite IH, elem_of_cons. naive_solver.
    + rewrite !elem_of_cons, IH. naive_solver.
Qed.

Lemma keys_delete m k x :
  x ∈ JsMap.keys (JsMap.delete k m) ↔ x ∈ JsMap.keys m ∧ x ≠ k.
Proof.
  unfold JsMap.keys. rewrite !list_elem_of_fmap. split.
  - intros ([k' v] & -> & [H Hne]%elem_of_delete). split; [|done].
    exists (k', v). done.
  - intros [([k' v] & -> & H) Hne]. exists (k', v). split; [done|].
    apply elem_of_delete. done.
Qed.

Lemma NoDup_keys_delete m k :
  NoDup (JsMap.keys m) → NoDup (JsMap.keys (JsMap.delete k m)).
Proof.
  unfold JsMap.keys. induction m as [|[k' v'] m IH]; simpl; [done|].
  rewrite NoDup_cons. intros [Hk Hnd].
  destruct (decide (k = k')); [auto|]. simpl. apply NoDup_cons. split; [|auto].
  intros H. apply Hk. by apply (keys_delete m k k').
Qed.

(** Deleting, one after the other, every key the loop visits. *)
Lemma delete_all (es : list (string * V)) m :
  (∀ k, k ∈ JsMap.keys m → k ∈ es.*1) →
  fold_left (λ m' e, JsMap.delete e.1 m') es m = [].
Proof.
  revert m. induction es as [|[k v] es IH]; intros m Hsub; simpl.
  - destruct m as [|[k v] m]; [done|].
    exfalso. eapply not_elem_of_nil, (Hsub k). apply list_elem_of_here.
  - apply IH. intros x [Hx Hne]%keys_delete.
    apply Hsub in Hx. simpl in Hx. apply elem_of_cons in Hx as [->|Hx]; done.
Qed.
End JsMapFacts.

(** ** The "close" handler in closed form *)

Lemma disarm_all_lookup_Some es ts h t :
  disarm_all es ts !! h = Some t →
  ts !! h = Some t ∧ ∀ e, e ∈ es → pr_timeout e.2 ≠ h.
Proof.
  unfold disarm_all. revert ts. induction es as [|e es IH]; intros ts; simpl.
  - intros H. split; [done|]. intros e He. by apply elem_of_nil in He.
  - intros H. apply IH in H as [H Hes].
    destruct (decide (pr_timeout e.2 = h)) as [<-|Hne].
    + by rewrite lookup_delete_eq in H.
    + rewrite lookup_delete_ne in H by done. split; [done|].
      intros e' [->|He']%elem_of_cons; auto.
Qed.

Lemma disarm_all_lookup_elem es ts e :
  e ∈ es → disarm_all es ts !! pr_timeout e.2 = None.
Proof.
  intros He. destruct (disarm_all es ts !! pr_timeout e.2) as [t|] eqn:H; [|done].
  apply disarm_all_lookup_Some in H as [_ H]. by destruct (H e He).
Qed.

Lemma disarm_all_lookup_other es ts h :
  (∀ e, e ∈ es → pr_timeout e.2 ≠ h) → disarm_all es ts !! h = ts !! h.
Proof.
  unfold disarm_all. revert ts. induction es as [|e es IH]; intros ts Hes; simpl.
  - done.
  - rewrite IH.
    + apply lookup_delete_ne, Hes, list_elem_of_here.
    + intros e' He'. apply Hes. by apply list_elem_of_further.
Qed.

Lemma rejectPending_fold es w :
  fold_left rejectPending es w =
  {| serverState :=
       {| figmaConnection := figmaConnection (serverState w);
          pendingRequests :=
            fold_left (λ m e, JsMap.delete e.1 m) es (pendingRequests (serverState w));
          isConnected := isConnected (serverState w) |};
     sockets := sockets w; nextSocket := nextSocket w; outbox := outbox w;
     timers := disarm_all es (timers w); nextTimer := nextTimer w;
     settled := settled w ++ (disconnect_rejection <$> es);
     nextPromise := nextPromise w; uuidCalls := uuidCalls w |}.
Proof.
  revert w. induction es as [|e es IH]; intros w.
  - destruct w as [[] ? ? ? ? ? ? ? ?]. simpl. by rewrite app_nil_r.
  - simpl. rewrite IH. simpl. by rewrite <- app_assoc.
Qed.

Lemma onClose_closed_form w :
  onClose w =
  {| serverState :=
       {| figmaConnection := None; pendingRequests := []; isConnected := false |};
     sockets := sockets w; nextSocket := nextSocket w; outbox := outbox w;
     timers := disarm_all (pendingRequests (serverState w)) (timers w);
     nextTimer := nextTimer w;
     settled := settled w ++ (disconnect_rejection <$> pendingRequests (serverState w));
     nextPromise := nextPromise w; uuidCalls := uuidCalls w |}.
Proof.
  unfold onClose, JsMap.entries. rewrite rejectPending_fold. simpl.
  by rewrite delete_all.
Qed.

(** A response whose id has no entry changes nothing. *)
Lemma handleFigmaResponse_unknown response w :
  JsMap.get (res_id response) (pendingRequests (serverState w)) = None →
  handleFigmaResponse response w = w.
Proof. unfold handleFigmaResponse. by intros ->. Qed.

Lemma handleFigmaResponse_known response pending w :
  JsMap.get (res_id response) (pendingRequests (serverState w)) = Some pending →
  handleFigmaResponse response w =
  resolved (res_id response) pending (response_outcome response) w.
Proof.
  unfold handleFigmaResponse, response_outcome. intros ->.
  by destruct (res_success response).
Qed.

(** ** Counting settlements *)

Lemma occurrences_app (p : nat) (l1 l2 : list nat) :
  occurrences p (l1 ++ l2) = occurrences p l1 + occurrences p l2.
Proof. unfold occurrences. by rewrite filter_app, length_app. Qed.

Lemma occurrences_cons (p q : nat) (l : list nat) :
  occurrences p (q :: l) = (if decide (q = p) then 1 else 0) + occurrences p l.
Proof.
  unfold occurrences. rewrite filter_cons. by destruct (decide (q = p)).
Qed.

Lemma occurrences_absent (p : nat) (l : list nat) : p ∉ l → occurrences p l = 0.
Proof.
  induction l as [|q l IH]; [done|].
  rewrite not_elem_of_cons, occurrences_cons. intros [Hne Hl].
  rewrite decide_False by done. auto.
Qed.

Lemma occurrences_present (p : nat) (l : list nat) : p ∈ l → 1 ≤ occurrences p l.
Proof.
  induction l as [|q l IH]; [by intros ?%elem_of_nil|].
  rewrite elem_of_cons, occurrences_cons. intros [->|Hl].
  - rewrite decide_True by done. lia.
  - specialize (IH Hl). lia.
Qed.

Lemma occurrences_NoDup (p : nat) (l : list nat) : NoDup l → p ∈ l → occurrences p l = 1.
Proof.
  induction l as [|q l IH]; [by intros _ ?%elem_of_nil|].
  rewrite NoDup_cons, elem_of_cons, occurrences_cons. intros [Hq Hnd] [->|Hl].
  - rewrite decide_True, occurrences_absent by done. done.
  - rewrite decide_False, IH by (done || by intros ->). done.
Qed.

Lemma occurrences_le_1_NoDup (l : list nat) : (∀ p, occurrences p l ≤ 1) → NoDup l.
Proof.
  induction l as [|q l IH]; intros H; [by apply NoDup_nil|].
  apply NoDup_cons. split.
  - intros Hq. apply occurrences_present in Hq.
    specialize (H q). rewrite occurrences_cons, decide_True in H by done. lia.
  - apply IH. intros p. specialize (H p). rewrite occurrences_cons in H. lia.
Qed.

(** With at most one settlement of [p] on record, the awaiter sees it. *)
Lemma first_settlement_unique (p : nat) (o : Outcome) (log : list (nat * Outcome)) :
  (p, o) ∈ log → occurrences p log.*1 ≤ 1 → first_settlement p log = Some o.
Proof.
  induction log as [|[q o'] log IH]; [by intros ?%elem_of_nil|].
  rewrite elem_of_cons, fmap_cons, occurrences_cons. cbn [first_settlement fst].
  intros [Heq|Hin] Hcount.
  - injection Heq as -> ->. by rewrite decide_True.
  - destruct (decide (p = q)) as [->|Hne].
    + assert (q ∈ log.*1) as Hq by apply (list_elem_of_fmap_2 fst _ _ Hin).
      apply occurrences_present in Hq.
      rewrite decide_True in Hcount by done. lia.
    + apply IH; [done|]. rewrite decide_False in Hcount by done. lia.
Qed.

Lemma NoDup_fmap_eq {A B} (f : A → B) (l : list A) x y :
  NoDup (f <$> l) → x ∈ l → y ∈ l → f x = f y → x = y.
Proof.
  induction l as [|a l IH]; [by intros _ ?%elem_of_nil|].
  rewrite fmap_cons, NoDup_cons, !elem_of_cons.
  intros [Ha Hnd] [->|Hx] [->|Hy] Hf; try done.
  - destruct Ha. rewrite Hf. by apply list_elem_of_fmap_2.
  - destruct Ha. rewrite <- Hf. by apply list_elem_of_fmap_2.
  - auto.
Qed.

Lemma NoDup_fmap_delete {V B} (f : string * V → B) (m : JsMap.t V) k :
  NoDup (f <$> m) → NoDup (f <$> JsMap.delete k m).
Proof.
  induction m as [|[k' v'] m IH]; [done|]. cbn [JsMap.delete].
  rewrite fmap_cons, NoDup_cons. intros [Hk Hnd].
  destruct (decide (k = k')); [auto|].
  rewrite fmap_cons. apply NoDup_cons. split; [|auto].
  intros ([k0 v0] & Hf & [Hin _]%elem_of_delete)%list_elem_of_fmap.
  apply Hk. rewrite Hf. by apply list_elem_of_fmap_2.
Qed.

(** ** The correlation invariant *)

Lemma fst_disconnect_rejection (es : list (string * PendingRequest)) :
  (disconnect_rejection <$> es).*1 = promise_of <$> es.
Proof. by rewrite <- list_fmap_compose. Qed.

Section Invariant.
Variable randomUUID : nat → string.
Hypothesis randomUUID_unique : Inj (=) (=) randomUUID.

Lemma Consistent_initial : Consistent randomUUID [] ∅ 0 [] 0 0.
Proof.
  split; try (intros ? ? ?%elem_of_nil; done); try (intros ? ?%elem_of_nil; done).
  - apply NoDup_nil_2.
  - intros h t H. by rewrite lookup_empty in H.
  - intros h t H. by rewrite lookup_empty in H.
  - apply NoDup_nil_2.
  - intros p. cbn. lia.
Qed.

Section Preservation.
Context {tbl : JsMap.t PendingRequest} {ts : gmap nat Timer} {nT : nat}
        {log : list (nat * Outcome)} {nP nU : nat}.
Hypothesis H : Consistent randomUUID tbl ts nT log nP nU.

Lemma same_key_same_entry k e1 e2 : (k, e1) ∈ tbl → (k, e2) ∈ tbl → e1 = e2.
Proof.
  intros H1 H2. apply elem_of_get in H1, H2; try apply (table_keys H).
  congruence.
Qed.

Lemma fresh_id : JsMap.get (randomUUID nU) tbl = None.
Proof.
  apply get_None_keys. unfold JsMap.keys.
  intros ([k e] & Hk & Hin)%list_elem_of_fmap. simpl in Hk. subst k.
  destruct (table_ids H _ _ Hin) as (i & Hi & Heq).
  apply randomUUID_unique in Heq. lia.
Qed.

Lemma fresh_timer : ts !! nT = None.
Proof.
  destruct (ts !! nT) as [t|] eqn:Ht; [|done].
  apply (timer_bound H) in Ht. lia.
Qed.

Lemma fresh_promise : nP ∉ log.*1.
Proof. intros Hin. apply (settled_bound H) in Hin. lia. Qed.

(** One entry is removed, its timer disarmed, its promise settled. *)
Lemma Consistent_resolve k pending o :
  (k, pending) ∈ tbl →
  Consistent randomUUID (JsMap.delete k tbl) (delete (pr_timeout pending) ts) nT
    (log ++ [(pr_settle pending, o)]) nP nU.
Proof.
  intros Hin. destruct H as [Hkeys Hids Htt Htim Htb Hprom Hpb Hsb Hpu Hro].
  assert (Hp0 : pr_settle pending ∈ promise_of <$> tbl)
    by apply (list_elem_of_fmap_2 promise_of _ _ Hin).
  assert (F2 : pr_settle pending ∉ promise_of <$> JsMap.delete k tbl).
  { intros ([k' e'] & Heq & [Hin' Hne]%elem_of_delete)%list_elem_of_fmap.
    assert ((k', e') = (k, pending)) as [= -> ->]; [|done].
    by apply (NoDup_fmap_eq promise_of tbl). }
  assert (F3 : ∀ p, p ∈ promise_of <$> JsMap.delete k tbl → p ∈ promise_of <$> tbl).
  { intros p ([k' e'] & -> & [Hin' _]%elem_of_delete)%list_elem_of_fmap.
    by apply list_elem_of_fmap_2. }
  assert (F4 : ∀ p, p ∈ promise_of <$> tbl → p ≠ pr_settle pending →
                    p ∈ promise_of <$> JsMap.delete k tbl).
  { intros p ([k' e'] & -> & Hin')%list_elem_of_fmap Hne.
    apply (list_elem_of_fmap_2 promise_of). apply elem_of_delete.
    split; [done|]. intros ->. apply Hne. unfold promise_of. simpl.
    f_equal. by apply (same_key_same_entry k). }
  split.
  - by apply NoDup_keys_delete.
  - intros k' e' [Hin' _]%elem_of_delete. eauto.
  - intros k' e' [Hin' Hne]%elem_of_delete.
    destruct (Htt _ _ Hin') as (t & Ht & Hk' & Hr).
    exists t. split; [|done]. rewrite lookup_delete_ne; [done|].
    intros Heq. destruct (Htt _ _ Hin) as (t0 & Ht0 & Hk0 & _).
    rewrite Heq in Ht0. congruence.
  - intros h t [Hne Ht]%lookup_delete_Some.
    destruct (Htim _ _ Ht) as (e & He & Hh & Hs).
    exists e. split; [|done]. apply elem_of_delete. split; [done|].
    intros Heq. rewrite Heq in He.
    rewrite (same_key_same_entry _ _ _ He Hin) in Hh. done.
  - intros h t [_ Ht]%lookup_delete_Some. eauto.
  - by apply NoDup_fmap_delete.
  - intros p Hp. auto.
  - intros p. rewrite fmap_app, elem_of_app. simpl.
    intros [Hp| ->%list_elem_of_singleton]; auto.
  - intros p Hp. rewrite fmap_app, occurrences_app, Hpu by auto. simpl.
    rewrite occurrences_cons, decide_False; [done|].
    intros <-. by apply F2.
  - intros p. rewrite fmap_app, occurrences_app. simpl.
    rewrite occurrences_cons. destruct (decide (pr_settle pending = p)) as [<-|Hne].
    + rewrite Hpu by done. cbn. lia.
    + specialize (Hro p). cbn. lia.
Qed.

(** One entry is removed and its timer disarmed, but nothing is settled. *)
Lemma Consistent_abandon k pending :
  (k, pending) ∈ tbl →
  Consistent randomUUID (JsMap.delete k tbl) (delete (pr_timeout pending) ts) nT
    log nP nU.
Proof.
  intros Hin. destruct H as [Hkeys Hids Htt Htim Htb Hprom Hpb Hsb Hpu Hro].
  assert (F3 : ∀ p, p ∈ promise_of <$> JsMap.delete k tbl → p ∈ promise_of <$> tbl).
  { intros p ([k' e'] & -> & [Hin' _]%elem_of_delete)%list_elem_of_fmap.
    by apply list_elem_of_fmap_2. }
  split.
  - by apply NoDup_keys_delete.
  - intros k' e' [Hin' _]%elem_of_delete. eauto.
  - intros k' e' [Hin' Hne]%elem_of_delete.
    destruct (Htt _ _ Hin') as (t & Ht & Hk' & Hr).
    exists t. split; [|done]. rewrite lookup_delete_ne; [done|].
    intros Heq. destruct (Htt _ _ Hin) as (t0 & Ht0 & Hk0 & _).
    rewrite Heq in Ht0. congruence.
  - intros h t [Hne Ht]%lookup_delete_Some.
    destruct (Htim _ _ Ht) as (e & He & Hh & Hs).
    exists e. split; [|done]. apply elem_of_delete. split; [done|].
    intros Heq. rewrite Heq in He.
    rewrite (same_key_same_entry _ _ _ He Hin) in Hh. done.
  - intros h t [_ Ht]%lookup_delete_Some. eauto.
  - by apply NoDup_fmap_delete.
  - intros p Hp. auto.
  - done.
  - intros p Hp. auto.
  - done.
Qed.

(** The "close" loop: every entry rejected, every timer disarmed. *)
Lemma Consistent_disconnect :
  Consistent randomUUID [] (disarm_all tbl ts) nT
  (log ++ (disconnect_rejection <$> tbl)) nP nU.
Proof.
  destruct H as [Hkeys Hids Htt Htim Htb Hprom Hpb Hsb Hpu Hro].
  split; try (intros ? ? ?%elem_of_nil; done); try (intros ? ?%elem_of_nil; done).
  - apply NoDup_nil_2.
  - intros h t [Ht Hno]%disarm_all_lookup_Some.
    destruct (Htim _ _ Ht) as (e & He & Hh & _).
    destruct (Hno _ He). done.
  - intros h t [Ht _]%disarm_all_lookup_Some. eauto.
  - apply NoDup_nil_2.
  - intros p. rewrite fmap_app, fst_disconnect_rejection, elem_of_app.
    intros [Hp|Hp]; auto.
  - intros p. rewrite fmap_app, fst_disconnect_rejection, occurrences_app.
    destruct (decide (p ∈ promise_of <$> tbl)) as [Hp|Hp].
    + rewrite Hpu, occurrences_NoDup by done. done.
    + rewrite (occurrences_absent p (promise_of <$> tbl)) by done.
      specialize (Hro p). lia.
Qed.

(** A successful [sendToFigma]: a new entry under a fresh id. *)
Lemma Consistent_register toolName now :
  Consistent randomUUID
    (JsMap.set (randomUUID nU)
       {| pr_id := randomUUID nU; pr_toolName := toolName;
          pr_timestamp := now; pr_settle := nP; pr_timeout := nT |} tbl)
    (<[nT := {| tm_delay := REQUEST_TIMEOUT; tm_requestId := randomUUID nU;
                tm_reject := nP |}]> ts)
    (S nT) log (S nP) (S nU).
Proof.
  pose proof fresh_id as Hid. pose proof fresh_timer as Htm.
  pose proof fresh_promise as Hpr.
  rewrite set_fresh by done.
  destruct H as [Hkeys Hids Htt Htim Htb Hprom Hpb Hsb Hpu Hro].
  split.
  - unfold JsMap.keys. rewrite fmap_app. apply NoDup_app. split; [done|].
    split; [|apply NoDup_singleton].
    intros x Hx ->%list_elem_of_singleton. by apply get_None_keys in Hid.
  - intros k e [Hin| [= -> ->]%list_elem_of_singleton]%elem_of_app.
    + destruct (Hids _ _ Hin) as (i & Hi & ->). exists i. split; [lia|done].
    + exists nU. split; [lia|done].
  - intros k e [Hin| [= -> ->]%list_elem_of_singleton]%elem_of_app.
    + destruct (Htt _ _ Hin) as (t & Ht & Hk & Hr). exists t.
      split; [|done]. rewrite lookup_insert_ne; [done|].
      apply Htb in Ht. lia.
    + eexists. rewrite lookup_insert_eq. done.
  - intros h t [[<- <-]|[Hne Ht]]%lookup_insert_Some.
    + eexists. split; [apply elem_of_app; right;
                         apply list_elem_of_singleton; reflexivity | done].
    + destruct (Htim _ _ Ht) as (e & He & Hh & Hs). exists e.
      split; [|done]. apply elem_of_app. by left.
  - intros h t [[<- <-]|[Hne Ht]]%lookup_insert_Some; [lia|].
    apply Htb in Ht. lia.
  - rewrite fmap_app. apply NoDup_app. split; [done|].
    split; [|apply NoDup_singleton].
    intros x Hx ->%list_elem_of_singleton. apply Hpb in Hx.
    unfold promise_of in Hx. simpl in Hx. lia.
  - intros p. rewrite fmap_app, elem_of_app.
    intros [Hp| ->%list_elem_of_singleton].
    + apply Hpb in Hp. lia.
    + unfold promise_of. simpl. lia.
  - intros p Hp. apply Hsb in Hp. lia.
  - intros p. rewrite fmap_app, elem_of_app.
    intros [Hp| ->%list_elem_of_singleton]; [auto|].
    by apply occurrences_absent.
  - done.
Qed.

(** A [sendToFigma] whose [ws.send] throws: only the counters advance
    and the new promise is rejected. *)
Lemma Consistent_send_failure o :
  Consistent randomUUID tbl ts (S nT) (log ++ [(nP, o)]) (S nP) (S nU).
Proof.
  pose proof fresh_promise as Hpr.
  destruct H as [Hkeys Hids Htt Htim Htb Hprom Hpb Hsb Hpu Hro].
  split; try done.
  - intros k e Hin. destruct (Hids _ _ Hin) as (i & Hi & ->).
    exists i. split; [lia|done].
  - intros h t Ht. apply Htb in Ht. lia.
  - intros p Hp. apply Hpb in Hp. lia.
  - intros p. rewrite fmap_app, elem_of_app. simpl.
    intros [Hp| ->%list_elem_of_singleton]; [|lia]. apply Hsb in Hp. lia.
  - intros p Hp. rewrite fmap_app, occurrences_app, Hpu by done. simpl.
    rewrite occurrences_cons, decide_False; [done|].
    apply Hpb in Hp. lia.
  - intros p. rewrite fmap_app, occurrences_app. simpl.
    rewrite occurrences_cons. destruct (decide (nP = p)) as [<-|Hne].
    + rewrite occurrences_absent by done. cbn. lia.
    + specialize (Hro p). cbn. lia.
Qed.
End Preservation.
End Invariant.

(** ** Every reachable store is consistent *)

Lemma isFigmaConnected_true w :
  isFigmaConnected w = true ↔
  ∃ ws, figmaConnection (serverState w) = Some ws ∧ sockets w !! ws = Some OPEN.
Proof.
  unfold isFigmaConnected. destruct (figmaConnection (serverState w)) as [ws|].
  - rewrite bool_decide_eq_true. split; [eauto|]. by intros (? & [= <-] & ?).
  - split; [done|]. by intros (? & ? & ?).
Qed.

Section Reachable.
Variable randomUUID : nat → string.
Hypothesis randomUUID_unique : Inj (=) (=) randomUUID.

Lemma consistent_timeoutCallback h w :
  consistent randomUUID w → consistent randomUUID (timeoutCallback h w).
Proof.
  unfold timeoutCallback. intros H. destruct (timers w !! h) as [t|] eqn:Ht; [|done].
  destruct (timer_table H _ _ Ht) as (e & He & <- & <-).
  apply (Consistent_resolve randomUUID H _ _ (Rejected (mkError TIMEOUT_MESSAGE)) He).
Qed.

Lemma consistent_handleFigmaResponse response w :
  consistent randomUUID w → consistent randomUUID (handleFigmaResponse response w).
Proof.
  intros H.
  destruct (JsMap.get (res_id response) (pendingRequests (serverState w)))
    as [pending|] eqn:Hget.
  - rewrite (handleFigmaResponse_known _ _ _ Hget).
    apply (Consistent_resolve randomUUID H). by apply get_Some_elem_of.
  - by rewrite handleFigmaResponse_unknown.
Qed.

Lemma consistent_handleFigmaResponse_unchecked response error_text w :
  consistent randomUUID w →
  consistent randomUUID (handleFigmaResponse_unchecked response error_text w).
Proof.
  intros H. unfold handleFigmaResponse_unchecked.
  destruct (raw_id response) as [[| | |id| |]|]; try done.
  destruct (JsMap.get id (pendingRequests (serverState w))) as [pending|] eqn:Hget;
    [|done].
  apply get_Some_elem_of in Hget.
  destruct (truthy (raw_success response)).
  - apply (Consistent_resolve randomUUID H _ _ _ Hget).
  - destruct error_text as [error|text].
    + apply (Consistent_abandon randomUUID randomUUID_unique H _ _ Hget).
    + apply (Consistent_resolve randomUUID H _ _ _ Hget).
Qed.

Lemma consistent_onClose w :
  consistent randomUUID w → consistent randomUUID (onClose w).
Proof.
  intros H. rewrite onClose_closed_form. apply (Consistent_disconnect randomUUID H).
Qed.

Lemma consistent_sendToFigma toolName args now sendThrows w :
  consistent randomUUID w →
  consistent randomUUID (sendToFigma randomUUID toolName args now sendThrows w).1.
Proof.
  intros H. unfold sendToFigma.
  destruct (isFigmaConnected w) eqn:Hc; [|done]. simpl.
  apply isFigmaConnected_true in Hc as (ws & Hws & _). rewrite Hws. simpl.
  destruct sendThrows as [error|]; simpl.
  - unfold consistent. simpl.
    rewrite delete_set_fresh by apply (fresh_id randomUUID randomUUID_unique H).
    rewrite delete_insert_id by apply (fresh_timer randomUUID H).
    apply (Consistent_send_failure randomUUID H).
  - apply (Consistent_register randomUUID randomUUID_unique H).
Qed.

Lemma consistent_step w e :
  consistent randomUUID w → consistent randomUUID (step randomUUID w e).
Proof.
  intros H. destruct e as [|ws rs|ws message|ws|ws|h|toolName args now sendThrows]; simpl.
  - done.
  - by destruct (known_socket ws w).
  - destruct (known_socket ws w); [|done].
    destruct message as [|data|response error_text]; simpl; [done| |].
    + repeat case_decide; try done. by apply consistent_handleFigmaResponse.
    + by apply consistent_handleFigmaResponse_unchecked.
  - destruct (known_socket ws w); [|done]. by apply consistent_onClose.
  - by destruct (known_socket ws w).
  - by apply consistent_timeoutCallback.
  - by apply consistent_sendToFigma.
Qed.

Lemma consistent_run es w :
  consistent randomUUID w → consistent randomUUID (run randomUUID es w).
Proof.
  unfold run. revert w. induction es as [|e es IH]; intros w H; simpl; [done|].
  by apply IH, consistent_step.
Qed.

Lemma reachable_consistent w : reachable randomUUID w → consistent randomUUID w.
Proof.
  intros [es ->]. apply consistent_run, Consistent_initial.
Qed.
End Reachable.

(** ** Calls that were answered *)

Section AnsweredFacts.
Variable randomUUID : nat → string.
Hypothesis randomUUID_unique : Inj (=) (=) randomUUID.
Context {tbl : JsMap.t PendingRequest} {ts : gmap nat Timer} {nT : nat}
        {log : list (nat * Outcome)} {nP nU : nat}.
Hypothesis H : Consistent randomUUID tbl ts nT log nP nU.
Hypothesis A : Answered tbl log nP.

Lemma Answered_resolve k pending o :
  (k, pending) ∈ tbl →
  Answered (JsMap.delete k tbl) (log ++ [(pr_settle pending, o)]) nP.
Proof.
  intros Hin p Hlt Hp. rewrite fmap_app, elem_of_app. simpl.
  destruct (decide (p = pr_settle pending)) as [->|Hne].
  - right. apply list_elem_of_here.
  - left. apply A; [done|].
    intros ([k' e'] & -> & Hin')%list_elem_of_fmap. apply Hp.
    apply (list_elem_of_fmap_2 promise_of). apply elem_of_delete.
    split; [done|]. intros ->. apply Hne. unfold promise_of. simpl.
    f_equal. by apply (same_key_same_entry randomUUID H k).
Qed.

Lemma Answered_disconnect :
  Answered [] (log ++ (disconnect_rejection <$> tbl)) nP.
Proof.
  intros p Hlt _. rewrite fmap_app, fst_disconnect_rejection, elem_of_app.
  destruct (decide (p ∈ promise_of <$> tbl)); [by right|]. left. by apply A.
Qed.

Lemma Answered_register toolName now :
  Answered
    (JsMap.set (randomUUID nU)
       {| pr_id := randomUUID nU; pr_toolName := toolName;
          pr_timestamp := now; pr_settle := nP; pr_timeout := nT |} tbl)
    log (S nP).
Proof.
  rewrite set_fresh by apply (fresh_id randomUUID randomUUID_unique H).
  intros p Hlt. rewrite fmap_app, not_elem_of_app. intros [Hp Hne].
  apply A; [|done]. assert (p ≠ nP); [|lia]. intros ->. apply Hne.
  by apply list_elem_of_singleton.
Qed.

Lemma Answered_send_failure o : Answered tbl (log ++ [(nP, o)]) (S nP).
Proof.
  intros p Hlt Hp. rewrite fmap_app, elem_of_app. simpl.
  destruct (decide (p = nP)) as [->|Hne].
  - right. apply list_elem_of_here.
  - left. apply A; [lia|done].
Qed.
End AnsweredFacts.

Section AnsweredReachable.
Variable randomUUID : nat → string.
Hypothesis randomUUID_unique : Inj (=) (=) randomUUID.

Lemma answered_handleFigmaResponse response w :
  consistent randomUUID w → answered w → answered (handleFigmaResponse response w).
Proof.
  intros H A.
  destruct (JsMap.get (res_id response) (pendingRequests (serverState w)))
    as [pending|] eqn:Hget.
  - rewrite (handleFigmaResponse_known _ _ _ Hget).
    apply (Answered_resolve randomUUID H A). by apply get_Some_elem_of.
  - by rewrite handleFigmaResponse_unknown.
Qed.

Lemma answered_step w e :
  consistent randomUUID w → answered w → error_prints e = true →
  answered (step randomUUID w e).
Proof.
  intros H A He.
  destruct e as [|ws rs|ws message|ws|ws|h|toolName args now sendThrows];
    cbn [step].
  - done.
  - by destruct (known_socket ws w).
  - destruct (known_socket ws w); [|done].
    destruct message as [|data|response error_text]; cbn [onMessage]; [done| |].
    + repeat case_decide; try done. by apply answered_handleFigmaResponse.
    + unfold handleFigmaResponse_unchecked.
      destruct (raw_id response) as [[| | |id| |]|]; try done.
      destruct (JsMap.get id (pendingRequests (serverState w)))
        as [pending|] eqn:Hget; [|done].
      apply get_Some_elem_of in Hget.
      destruct (truthy (raw_success response)) eqn:Hsuccess;
        [apply (Answered_resolve randomUUID H A _ _ _ Hget)|].
      destruct error_text as [error|text];
        [simpl in He; congruence|].
      apply (Answered_resolve randomUUID H A _ _ _ Hget).
  - destruct (known_socket ws w); [|done]. rewrite onClose_closed_form.
    apply (Answered_disconnect A).
  - by destruct (known_socket ws w).
  - unfold timeoutCallback. destruct (timers w !! h) as [t|] eqn:Ht; [|done].
    destruct (timer_table H _ _ Ht) as (e & Hin & <- & <-).
    apply (Answered_resolve randomUUID H A _ _ _ Hin).
  - unfold sendToFigma.
    destruct (isFigmaConnected w) eqn:Hc; [|done]. simpl.
    apply isFigmaConnected_true in Hc as (ws & Hws & _). rewrite Hws. simpl.
    destruct sendThrows as [error|]; simpl.
    + unfold answered. simpl.
      rewrite delete_set_fresh by apply (fresh_id randomUUID randomUUID_unique H).
      apply (Answered_send_failure A).
    + apply (Answered_register randomUUID randomUUID_unique H A).
Qed.

Lemma answered_run es w :
  consistent randomUUID w → answered w → Forall (λ e, error_prints e = true) es →
  answered (run randomUUID es w).
Proof.
  unfold run. revert w. induction es as [|e es IH]; intros w H A Hes; simpl; [done|].
  apply Forall_cons in Hes as [He Hes].
  apply IH; [by apply consistent_step|by apply answered_step|done].
Qed.
End AnsweredReachable.

(** ** Exactly-once resolution *)

Lemma Consistent_count_le_1 randomUUID tbl ts nT log nP nU p :
  Consistent randomUUID tbl ts nT log nP nU → occurrences p log.*1 ≤ 1.
Proof.
  intros H. apply (resolved_once H).
Qed.

Lemma timeoutCallback_armed h t w :
  timers w !! h = Some t →
  timeoutCallback h w =
  {| serverState :=
       {| figmaConnection := figmaConnection (serverState w);
          pendingRequests := JsMap.delete (tm_requestId t) (pendingRequests (serverState w));
          isConnected := isConnected (serverState w) |};
     sockets := sockets w; nextSocket := nextSocket w; outbox := outbox w;
     timers := delete h (timers w); nextTimer := nextTimer w;
     settled := settled w ++ [(tm_reject t, Rejected (mkError TIMEOUT_MESSAGE))];
     nextPromise := nextPromise w; uuidCalls := uuidCalls w |}.
Proof. unfold timeoutCallback. by intros ->. Qed.

Lemma handleFigmaResponse_unchecked_unknown response error_text k w :
  raw_id response = Some (JStr k) →
  JsMap.get k (pendingRequests (serverState w)) = None →
  handleFigmaResponse_unchecked response error_text w = w.
Proof. unfold handleFigmaResponse_unchecked. by intros -> ->. Qed.

(** C1, as amended.  In every store the event loop can reach, no promise is
    settled twice and a call still in the table has no settlement on record;
    when no frame received so far made line 170 throw, a call made so far
    is either still in the table, unsettled, or out of it and settled exactly
    once.  For an entry in the table, each of the three resolving paths (a
    response of the declared interface with its id, its timeout, the "close"
    of any socket the server has accepted, whether or not the call was sent
    on it) removes the entry and settles its promise once, and a frame with
    that id arriving afterwards changes nothing.  A response whose id has no
    entry changes nothing.  The ids drawn from [randomUUID] are taken to be
    pairwise distinct. *)
Theorem pending_call_resolved_exactly_once
    (randomUUID : nat → string) (Hunique : Inj (=) (=) randomUUID)
    (es : list Event) :
  let w := run randomUUID es initial in
  let table w' := pendingRequests (serverState w') in
  let ignored k w' :=
    (∀ late, res_id late = k → handleFigmaResponse late w' = w')
    ∧ (∀ late error_text, raw_id late = Some (JStr k) →
         handleFigmaResponse_unchecked late error_text w' = w') in
  (∀ p, settle_count w p ≤ 1)
  ∧ (∀ p, registered w p → settle_count w p = 0)
  ∧ (Forall (λ e, error_prints e = true) es →
     ∀ p, p < nextPromise w →
       (registered w p ∧ settle_count w p = 0)
       ∨ (¬ registered w p ∧ settle_count w p = 1))
  ∧ (∀ k pending, JsMap.get k (table w) = Some pending →
       (∀ response, res_id response = k →
          let w' := handleFigmaResponse response w in
          JsMap.get k (table w') = None
          ∧ settled w' = settled w ++ [(pr_settle pending, response_outcome response)]
          ∧ settle_count w' (pr_settle pending) = 1
          ∧ ignored k w')
       ∧ (let w' := step randomUUID w (TimerFires (pr_timeout pending)) in
          JsMap.get k (table w') = None
          ∧ settled w' = settled w ++ [(pr_settle pending, Rejected (mkError TIMEOUT_MESSAGE))]
          ∧ settle_count w' (pr_settle pending) = 1
          ∧ ignored k w')
       ∧ (∀ ws, known_socket ws w = true →
          let w' := step randomUUID w (Close ws) in
          JsMap.get k (table w') = None
          ∧ promise_state w' (pr_settle pending) = Some (Rejected (mkError DISCONNECTED))
          ∧ settle_count w' (pr_settle pending) = 1
          ∧ ignored k w'))
  ∧ (∀ response, JsMap.get (res_id response) (table w) = None →
       handleFigmaResponse response w = w).
Proof.
  intros w table ignored.
  assert (Hw : consistent randomUUID w)
    by (apply reachable_consistent; [done | by exists es]).
  assert (Hone : ∀ k pending o, (k, pending) ∈ table w →
            occurrences (pr_settle pending)
              (settled w ++ [(pr_settle pending, o)]).*1 = 1).
  { intros k pending o Hin.
    rewrite fmap_app, occurrences_app, (pending_unsettled Hw).
    - simpl. by rewrite occurrences_cons, decide_True.
    - by apply (list_elem_of_fmap_2 promise_of _ _ Hin). }
  assert (Hgone : ∀ k w', JsMap.get k (table w') = None → ignored k w').
  { intros k w' Hnone. split.
    - intros late Hlate. apply handleFigmaResponse_unknown. by rewrite Hlate.
    - intros late error_text Hlate.
      by apply (handleFigmaResponse_unchecked_unknown _ _ k). }
  split; [|split; [|split; [|split]]].
  - intros p. apply (Consistent_count_le_1 _ _ _ _ _ _ _ _ Hw).
  - intros p Hp. by apply (pending_unsettled Hw).
  - intros Hes p Hp. unfold registered, settle_count.
    destruct (decide (p ∈ promise_of <$> table w)) as [Hin|Hout].
    + left. split; [done|]. by apply (pending_unsettled Hw).
    + right. split; [done|].
      assert (Ha : answered w).
      { apply (answered_run randomUUID Hunique es initial);
          [apply Consistent_initial | intros p' Hlt; simpl in Hlt; lia | done]. }
      pose proof (occurrences_present _ _ (Ha p Hp Hout)) as Hge.
      pose proof (resolved_once Hw p) as Hle. lia.
  - intros k pending Hget. pose proof (get_Some_elem_of _ _ _ Hget) as Hin.
    split; [|split].
    + intros response <- w'. subst w'.
      rewrite (handleFigmaResponse_known _ _ _ Hget). unfold table. simpl.
      split; [apply get_delete_eq|]. split; [done|].
      split; [by apply (Hone (res_id response))|].
      apply Hgone. apply get_delete_eq.
    + destruct (table_timer Hw _ _ Hin) as (t & Ht & Hk & Hr).
      intros w'. subst w'. cbn [step]. rewrite (timeoutCallback_armed _ _ _ Ht).
      unfold table. simpl. rewrite Hk, Hr.
      split; [apply get_delete_eq|]. split; [done|].
      split; [by apply (Hone k)|].
      apply Hgone. apply get_delete_eq.
    + intros ws Hws w'. subst w'. cbn [step]. rewrite Hws.
      set (w0 := with_sockets (<[ws:=CLOSED]> (sockets w)) w).
      assert (Hw0 : consistent randomUUID w0) by exact Hw.
      pose proof (consistent_onClose randomUUID w0 Hw0) as Hc.
      assert (Hrec : (pr_settle pending, Rejected (mkError DISCONNECTED))
                       ∈ settled (onClose w0)).
      { rewrite onClose_closed_form. simpl. apply elem_of_app. right.
        apply (list_elem_of_fmap_2 disconnect_rejection _ _ Hin). }
      pose proof (Consistent_count_le_1 _ _ _ _ _ _ _ (pr_settle pending) Hc) as Hle.
      split; [by rewrite onClose_closed_form|].
      split; [by apply first_settlement_unique|].
      split.
      * apply (list_elem_of_fmap_2 fst) in Hrec. apply occurrences_present in Hrec.
        unfold settle_count. simpl in Hrec. lia.
      * apply Hgone. by rewrite onClose_closed_form.
  - intros response Hget. by apply handleFigmaResponse_unknown.
Qed.

(** ** Correlation of concurrent calls *)


Section Correlation.
Variable randomUUID : nat → string.
Hypothesis randomUUID_unique : Inj (=) (=) randomUUID.





End Correlation.



Lemma handleFigmaResponse_other response w k :
  res_id response ≠ k →
  JsMap.get k (pendingRequests (serverState (handleFigmaResponse response w)))
  = JsMap.get k (pendingRequests (serverState w)).
Proof.
  intros Hne.
  destruct (JsMap.get (res_id response) (pendingRequests (serverState w)))
    as [pending|] eqn:Hget.
  - rewrite (handleFigmaResponse_known _ _ _ Hget). simpl. by apply get_delete_ne.
  - by rewrite handleFigmaResponse_unknown.
Qed.



(** ** Dispatch without an open connection *)

(** C5.  While [isFigmaConnected] is false, [sendToFigma] throws the
    not-connected error and returns the store it was given: no id was drawn
    ([uuidCalls]), no entry filed, no timer armed, nothing sent; and the
    control-plane handler answers at once, without awaiting any promise. *)
Theorem not_connected_fails_fast
    (randomUUID : nat → string) (tools : list Tool) (t : Tool)
    (name : string) (args : any) (toolArgs : json) (now : N)
    (sendThrows : option string) (w : World) :
  isFigmaConnected w = false →
  (∀ toolName a, sendToFigma randomUUID toolName a now sendThrows w
                 = (w, inl (mkError NOT_CONNECTED)))
  ∧ (find_tool name tools = Some t → tool_prepare t args = inr toolArgs →
     callTool randomUUID tools name args now sendThrows w
     = (w, Returned (catch_block name (mkError NOT_CONNECTED)))).
Proof.
  intros Hc.
  assert (Hsend : ∀ toolName a, sendToFigma randomUUID toolName a now sendThrows w
                                = (w, inl (mkError NOT_CONNECTED))).
  { intros toolName a. unfold sendToFigma. by rewrite Hc. }
  split; [done|]. intros Hfind Hprep. unfold callTool.
  by rewrite Hfind, Hprep, Hsend.
Qed.

(** C10.  The connection counts as active exactly when a handle is stored
    and the socket it names is in state [OPEN]; with a handle stored whose
    socket is in any other state, [sendToFigma] throws the not-connected error
    and hands nothing to [ws.send]. *)
Theorem active_means_stored_and_open
    (randomUUID : nat → string) (toolName : string) (args : json) (now : N)
    (sendThrows : option string) (w : World) :
  (isFigmaConnected w = true ↔
     ∃ ws, figmaConnection (serverState w) = Some ws ∧ sockets w !! ws = Some OPEN)
  ∧ ∀ ws rs,
      figmaConnection (serverState w) = Some ws →
      sockets w !! ws = Some rs → rs ≠ OPEN →
      let r := sendToFigma randomUUID toolName args now sendThrows w in
      r = (w, inl (mkError NOT_CONNECTED)) ∧ outbox r.1 = outbox w.
Proof.
  split; [apply isFigmaConnected_true|].
  intros ws rs Hws Hrs Hne r. subst r.
  assert (isFigmaConnected w = false) as Hc.
  { destruct (isFigmaConnected w) eqn:Hc; [|done].
    apply isFigmaConnected_true in Hc as (ws' & Hws' & Hopen). congruence. }
  unfold sendToFigma. by rewrite Hc.
Qed.

(** ** Roll-back when the send throws *)

(** C7.  In a reachable store with an open connection, a [sendToFigma]
    whose [ws.send] throws leaves the pending-request table and the set of
    armed timers exactly as they were before the call (the timer it armed is
    disarmed again), and the promise it returns is rejected, once, with the
    send-failure message.  The ids drawn from [randomUUID] are taken to be
    pairwise distinct. *)
Theorem send_failure_rolls_back
    (randomUUID : nat → string) (Hunique : Inj (=) (=) randomUUID)
    (es : list Event) (toolName : string) (args : json) (now : N)
    (error : string) :
  let w := run randomUUID es initial in
  let r := sendToFigma randomUUID toolName args now (Some error) w in
  let failure := Rejected (mkError ("Failed to send request to Figma: " +:+ error)) in
  isFigmaConnected w = true →
  pendingRequests (serverState r.1) = pendingRequests (serverState w)
  ∧ timers r.1 = timers w
  ∧ timers r.1 !! nextTimer w = None
  ∧ r.2 = inr (nextPromise w)
  ∧ settled r.1 = settled w ++ [(nextPromise w, failure)]
  ∧ promise_state r.1 (nextPromise w) = Some failure
  ∧ settle_count r.1 (nextPromise w) = 1.
Proof.
  intros w r failure Hc.
  assert (Hw : consistent randomUUID w)
    by (apply reachable_consistent; [done | by exists es]).
  pose proof (fresh_id randomUUID Hunique Hw) as Hid.
  pose proof (fresh_timer randomUUID Hw) as Htm.
  pose proof (fresh_promise randomUUID Hw) as Hpr.
  assert (Hr : pendingRequests (serverState r.1) = pendingRequests (serverState w)
               ∧ timers r.1 = timers w ∧ r.2 = inr (nextPromise w)
               ∧ settled r.1 = settled w ++ [(nextPromise w, failure)]).
  { subst r. unfold sendToFigma. rewrite Hc.
    apply isFigmaConnected_true in Hc as (ws & Hws & Hopen).
    destruct w as [[conn tbl flag] ? ? ? ? ? ? ? ?]. simpl in *. subst conn. simpl.
    by rewrite delete_set_fresh, delete_insert_id. }
  destruct Hr as (Htbl & Hts & Hret & Hlog).
  assert (Hcount : settle_count r.1 (nextPromise w) = 1).
  { unfold settle_count. rewrite Hlog, fmap_app, occurrences_app. simpl.
    by rewrite occurrences_absent, occurrences_cons, decide_True. }
  repeat split; try done.
  - by rewrite Hts.
  - apply first_settlement_unique.
    + rewrite Hlog. apply elem_of_app. right. by apply list_elem_of_singleton.
    + unfold settle_count in Hcount. lia.
Qed.

(** ** Connection loss *)

(** C3.  When the socket held as the active connection closes, the table
    becomes empty and the connection absent; the settlement record grows by
    one rejection with the disconnect reason per former entry, in table
    order; the timer of every former entry is disarmed; and any message
    arriving afterwards, in particular a response bearing a former id,
    leaves the store as it is. *)
Theorem close_rejects_all_pending
    (randomUUID : nat → string) (ws : nat) (w : World) :
  figmaConnection (serverState w) = Some ws →
  known_socket ws w = true →
  let w' := step randomUUID w (Close ws) in
  let former := pendingRequests (serverState w) in
  pendingRequests (serverState w') = []
  ∧ figmaConnection (serverState w') = None
  ∧ settled w' = settled w ++ (disconnect_rejection <$> former)
  ∧ length (disconnect_rejection <$> former) = JsMap.size former
  ∧ (∀ k pending, (k, pending) ∈ former →
       (pr_settle pending, Rejected (mkError DISCONNECTED)) ∈ settled w'
       ∧ timers w' !! pr_timeout pending = None)
  ∧ (∀ response, handleFigmaResponse response w' = w')
  ∧ (∀ message, onMessage message w' = w').
Proof.
  intros _ Hknown w' former. subst w'. simpl. rewrite Hknown.
  rewrite onClose_closed_form. simpl. fold former.
  assert (Hdrop : ∀ response w0,
            pendingRequests (serverState w0) = [] → handleFigmaResponse response w0 = w0).
  { intros response w0 Hempty. apply handleFigmaResponse_unknown. by rewrite Hempty. }
  split; [done|]. split; [done|]. split; [done|].
  split; [by rewrite length_fmap|]. split; [|split].
  - intros k pending Hin. split.
    + apply elem_of_app. right.
      apply (list_elem_of_fmap_2 disconnect_rejection _ (k, pending)). done.
    + apply (disarm_all_lookup_elem former _ (k, pending)). done.
  - intros response. by apply Hdrop.
  - intros [|data|response error_text]; simpl; [done| |].
    + case_decide; [by apply Hdrop|]. by case_decide.
    + unfold handleFigmaResponse_unchecked.
      by destruct (raw_id response) as [[| | |id| |]|].
Qed.

(** C4 (as the code has it).  The "close" handler never looks at the socket
    it was installed on: the close of any socket the server has accepted,
    the active one or one superseded by a later "connection", sets the
    connection to absent and rejects every pending entry with the disconnect
    reason. *)
Theorem close_of_any_socket_disconnects
    (randomUUID : nat → string) (ws : nat) (w : World) :
  known_socket ws w = true →
  let w' := step randomUUID w (Close ws) in
  figmaConnection (serverState w') = None
  ∧ isConnected (serverState w') = false
  ∧ pendingRequests (serverState w') = []
  ∧ settled w' = settled w ++ (disconnect_rejection <$> pendingRequests (serverState w)).
Proof.
  intros Hknown w'. subst w'. simpl. rewrite Hknown.
  by rewrite onClose_closed_form.
Qed.

(** ** Inbound messages that are not responses *)

(** C9.  A message that does not parse, or whose [type] is anything but
    ["tool_response"] (an event, another string, no string at all), leaves
    the whole store as it is: the table, the connection and the sockets, the
    timers and the settlement record. *)
Theorem non_response_message_is_dropped
    (randomUUID : nat → string) (ws : nat) (message : Inbound) (w : World) :
  is_tool_response message = false →
  onMessage message w = w ∧ step randomUUID w (Message ws message) = w.
Proof.
  intros Hno.
  assert (onMessage message w = w) as Hdrop.
  { destruct message as [|data|response error_text]; simpl in *; [done| |done].
    apply bool_decide_eq_false in Hno. rewrite decide_False by done.
    by case_decide. }
  split; [done|]. simpl. by destruct (known_socket ws w).
Qed.

(** ** The control-plane handler *)

Lemma find_tool_None name tools :
  find_tool name tools = None ↔ name ∉ tool_name <$> tools.
Proof.
  induction tools as [|t tools IH]; cbn [find_tool].
  - split; [intros _; apply not_elem_of_nil | done].
  - rewrite fmap_cons, not_elem_of_cons, <- IH.
    destruct (decide (name = tool_name t)); [|tauto].
    split; [done | intros [? _]; done].
Qed.

(** The tools the handler of [index.ts] dispatches are the tools it lists. *)
Lemma tools_index_ts_listed ToString :
  tool_name <$> tools_index_ts ToString = listTools.
Proof. reflexivity. Qed.

(** C6.  For a name that none of the handler's tool blocks matches, the
    handler returns the unknown-tool failure and the store it was given,
    whatever the state of the connection: nothing was filed, armed or sent. *)
Theorem unknown_tool_fails_without_dispatch
    (randomUUID : nat → string) (tools : list Tool) (name : string)
    (args : any) (now : N) (sendThrows : option string) (w : World) :
  name ∉ tool_name <$> tools →
  callTool randomUUID tools name args now sendThrows w
  = (w, Returned (catch_block name (mkError ("Unknown tool: " +:+ name)))).
Proof.
  intros Hname. unfold callTool. apply find_tool_None in Hname. by rewrite Hname.
Qed.


(** * Worked examples *)

Lemma sample_uuid_unique : Inj (=) (=) sample_uuid.
Proof. exact pretty_nat_inj. Qed.

Example sample_trace_settled :
  settled (run sample_uuid sample_trace initial) = [(1, Fulfilled (Some hi))]
  ∧ JsMap.keys (pendingRequests (serverState (run sample_uuid sample_trace initial)))
    = ["0"].
Proof. by vm_compute. Qed.

Example TIMEOUT_MESSAGE_text :
  TIMEOUT_MESSAGE = "Request timeout: Figma did not respond within 5000ms".
Proof. reflexivity. Qed.

(** [ping] while nothing is connected: refused at once, nothing filed. *)
Example ping_not_connected :
  callTool sample_uuid (tools_index_ts sample_ToString) "ping" (Some hi) 10 None initial
  = (initial, Returned (catch_block "ping" (mkError NOT_CONNECTED))).
Proof. reflexivity. Qed.

(** [ping] that is never answered: when its timer fires the call is rejected
    with the timeout reason and its entry is gone. *)
Example ping_times_out :
  let w := run sample_uuid [Connection; SendToFigma "ping" hi 10 None; TimerFires 0]
             initial in
  promise_state w 0 = Some (Rejected (mkError TIMEOUT_MESSAGE))
  ∧ pendingRequests (serverState w) = []
  ∧ timers w = ∅.
Proof. by vm_compute. Qed.

(** The end-to-end scenario of the specification: [ping] with
    [{message: "hi"}], answered at once with [{message: "hi"}]. *)
Example ping_round_trip :
  let r := callTool sample_uuid (tools_index_ts sample_ToString) "ping" (Some hi)
             10 None (run sample_uuid [Connection] initial) in
  let w' := handleFigmaResponse (sample_response "0" hi) r.1 in
  promise_state w' 0 = Some (Fulfilled (Some hi))
  ∧ pendingRequests (serverState w') = []
  ∧ ∃ resume, r.2 = Awaiting 0 resume ∧ isError (resume (Fulfilled (Some hi))) = false.
Proof.
  split; [by vm_compute|]. split; [by vm_compute|]. eexists. split; reflexivity.
Qed.

(** C4, refuted as stated.  Socket 0 connects, socket 1 connects and
    supersedes it, a call is sent on socket 1; then socket 0 closes.  That
    stale close clears the connection held by socket 1, which is still open,
    and rejects the call pending on it. *)
Lemma stale_close_clears_newer_connection :
  let w := run sample_uuid [Connection; Connection; SendToFigma "ping" hi 10 None]
             initial in
  let w' := step sample_uuid w (Close 0) in
  (figmaConnection (serverState w) = Some 1
   ∧ isFigmaConnected w = true
   ∧ JsMap.keys (pendingRequests (serverState w)) = ["0"]
   ∧ settled w = [])
  ∧ (sockets w' !! 1 = Some OPEN
     ∧ figmaConnection (serverState w') = None
     ∧ pendingRequests (serverState w') = []
     ∧ settled w' = [(0, Rejected (mkError DISCONNECTED))]).
Proof. by vm_compute. Qed.

(** C1, refuted as stated.  Socket 0 connects, socket 1 connects and
    supersedes it, and a call is sent on socket 1.  No response arrives, the
    timer of the call is still armed and socket 1 stays open; yet the close of
    socket 0, on which the call was never sent, removes the entry and rejects
    the call. *)
Lemma call_rejected_by_close_of_another_socket :
  let w := run sample_uuid [Connection; Connection; SendToFigma "ping" hi 10 None]
             initial in
  let w' := step sample_uuid w (Close 0) in
  (sent_requests w
   = [(1, {| req_id := "0"; req_tool := "ping"; req_args := hi |})]
   ∧ JsMap.keys (pendingRequests (serverState w)) = ["0"]
   ∧ promise_state w 0 = None)
  ∧ (sockets w' !! 1 = Some OPEN
     ∧ is_Some (timers w !! 0)
     ∧ JsMap.get "0" (pendingRequests (serverState w')) = None
     ∧ promise_state w' 0 = Some (Rejected (mkError DISCONNECTED))).
Proof.
  split; [by vm_compute|]. split; [by vm_compute|].
  split; [eexists; by vm_compute|]. by vm_compute.
Qed.


(** ** The theorems at concrete inputs *)

Lemma pending_call_resolved_exactly_once_witness :
  let w := run sample_uuid sample_trace initial in
  let pending := {| pr_id := "0"; pr_toolName := "ping"; pr_timestamp := 10;
                    pr_settle := 0; pr_timeout := 0 |} in
  Inj (=) (=) sample_uuid
  ∧ Forall (λ e, error_prints e = true) sample_trace
  ∧ JsMap.get "0" (pendingRequests (serverState w)) = Some pending
  ∧ known_socket 0 w = true
  ∧ (∀ p, settle_count w p ≤ 1)
  ∧ (∀ p, p < nextPromise w →
       (registered w p ∧ settle_count w p = 0)
       ∨ (¬ registered w p ∧ settle_count w p = 1))
  ∧ settle_count (step sample_uuid w (Close 0)) 0 = 1.
Proof.
  intros w pending.
  assert (H1 : Forall (λ e, error_prints e = true) sample_trace)
    by (repeat constructor).
  assert (H2 : JsMap.get "0" (pendingRequests (serverState w)) = Some pending)
    by reflexivity.
  assert (H3 : known_socket 0 w = true) by reflexivity.
  split; [exact sample_uuid_unique|]. split; [exact H1|]. split; [exact H2|].
  split; [exact H3|].
  destruct (pending_call_resolved_exactly_once sample_uuid sample_uuid_unique
              sample_trace) as (Hle & _ & Honce & Hpaths & _).
  split; [exact Hle|]. split; [exact (Honce H1)|].
  destruct (Hpaths "0" pending H2) as (_ & _ & Hclose).
  exact (proj1 (proj2 (proj2 (Hclose 0 H3)))).
Defined.


Lemma close_rejects_all_pending_witness :
  let w := run sample_uuid [Connection; SendToFigma "ping" hi 10 None] initial in
  let w' := step sample_uuid w (Close 0) in
  figmaConnection (serverState w) = Some 0
  ∧ known_socket 0 w = true
  ∧ pendingRequests (serverState w') = []
  ∧ ∀ response, handleFigmaResponse response w' = w'.
Proof.
  intros w w'.
  assert (H1 : figmaConnection (serverState w) = Some 0) by reflexivity.
  assert (H2 : known_socket 0 w = true) by reflexivity.
  split; [exact H1|]. split; [exact H2|].
  destruct (close_rejects_all_pending sample_uuid 0 w H1 H2)
    as (Hempty & _ & _ & _ & _ & Hlate & _).
  split; [exact Hempty | exact Hlate].
Defined.

Lemma close_of_any_socket_disconnects_witness :
  let w := run sample_uuid [Connection; Connection; SendToFigma "ping" hi 10 None]
             initial in
  known_socket 0 w = true
  ∧ figmaConnection (serverState w) = Some 1
  ∧ figmaConnection (serverState (step sample_uuid w (Close 0))) = None.
Proof.
  intros w.
  assert (H : known_socket 0 w = true) by reflexivity.
  split; [exact H|]. split; [reflexivity|].
  exact (proj1 (close_of_any_socket_disconnects sample_uuid 0 w H)).
Defined.

Lemma not_connected_fails_fast_witness :
  isFigmaConnected initial = false
  ∧ callTool sample_uuid (tools_index_ts sample_ToString) "ping" (Some hi) 10 None initial
    = (initial, Returned (catch_block "ping" (mkError NOT_CONNECTED))).
Proof.
  assert (H : isFigmaConnected initial = false) by reflexivity.
  split; [exact H|].
  exact (proj2 (not_connected_fails_fast sample_uuid (tools_index_ts sample_ToString)
                  (ping sample_ToString) "ping" (Some hi) hi 10 None initial H)
           eq_refl eq_refl).
Defined.

Lemma unknown_tool_fails_without_dispatch_witness :
  ("export_png" ∉ tool_name <$> tools_index_ts sample_ToString)
  ∧ (∀ w, callTool sample_uuid (tools_index_ts sample_ToString) "export_png" None 10 None w
          = (w, Returned (catch_block "export_png" (mkError "Unknown tool: export_png")))).
Proof.
  assert (H : "export_png" ∉ tool_name <$> tools_index_ts sample_ToString).
  { apply (bool_decide_unpack _). reflexivity. }
  split; [exact H|]. intros w.
  exact (unknown_tool_fails_without_dispatch sample_uuid _ "export_png" None 10 None w H).
Defined.

Lemma send_failure_rolls_back_witness :
  let w := run sample_uuid [Connection; SendToFigma "ping" hi 10 None] initial in
  let r := sendToFigma sample_uuid "ping" hi 11 (Some "Error: socket hang up") w in
  Inj (=) (=) sample_uuid
  ∧ isFigmaConnected w = true
  ∧ pendingRequests (serverState r.1) = pendingRequests (serverState w)
  ∧ timers r.1 = timers w.
Proof.
  intros w r.
  assert (Hc : isFigmaConnected w = true) by reflexivity.
  split; [exact sample_uuid_unique|]. split; [exact Hc|].
  destruct (send_failure_rolls_back sample_uuid sample_uuid_unique
              [Connection; SendToFigma "ping" hi 10 None] "ping" hi 11
              "Error: socket hang up" Hc) as (Htbl & Hts & _).
  split; [exact Htbl | exact Hts].
Defined.

Lemma non_response_message_is_dropped_witness :
  let w := run sample_uuid [Connection; SendToFigma "ping" hi 10 None] initial in
  let event := sample_envelope (Some "event") (sample_response "0" hi) in
  is_tool_response event = false
  ∧ is_tool_response Unparseable = false
  ∧ step sample_uuid w (Message 0 event) = w
  ∧ step sample_uuid w (Message 0 Unparseable) = w.
Proof.
  intros w event.
  assert (H1 : is_tool_response event = false) by reflexivity.
  assert (H2 : is_tool_response Unparseable = false) by reflexivity.
  split; [exact H1|]. split; [exact H2|]. split.
  - exact (proj2 (non_response_message_is_dropped sample_uuid 0 event w H1)).
  - exact (proj2 (non_response_message_is_dropped sample_uuid 0 Unparseable w H2)).
Defined.

Lemma active_means_stored_and_open_witness :
  let w := run sample_uuid [Connection; ReadyStateChange 0 CLOSING] initial in
  figmaConnection (serverState w) = Some 0
  ∧ sockets w !! 0 = Some CLOSING
  ∧ CLOSING ≠ OPEN
  ∧ sendToFigma sample_uuid "ping" hi 10 None w = (w, inl (mkError NOT_CONNECTED)).
Proof.
  intros w.
  assert (H1 : figmaConnection (serverState w) = Some 0) by reflexivity.
  assert (H2 : sockets w !! 0 = Some CLOSING) by reflexivity.
  assert (H3 : CLOSING ≠ OPEN) by discriminate.
  split; [exact H1|]. split; [exact H2|]. split; [exact H3|].
  exact (proj1 (proj2 (active_means_stored_and_open sample_uuid "ping" hi 10 None w)
                  0 CLOSING H1 H2 H3)).
Defined.


(** * Further properties of the bridge *)

(** ** Tools for reasoning about reachable stores *)

Lemma reachable_step_ind (randomUUID : nat → string) (P : World → Prop) :
  P initial →
  (∀ w e, reachable randomUUID w → P w → P (step randomUUID w e)) →
  ∀ w, reachable randomUUID w → P w.
Proof.
  intros Hinit Hstep w [es ->]. induction es as [|e es IH] using rev_ind; [done|].
  unfold run. rewrite fold_left_app. simpl. apply Hstep; [by exists es|done].
Qed.

Lemma reachable_step randomUUID w e :
  reachable randomUUID w → reachable randomUUID (step randomUUID w e).
Proof.
  intros [es ->]. exists (es ++ [e]). unfold run. by rewrite fold_left_app.
Qed.

(** [sendToFigma] past its connection check, component by component. *)
Lemma sendToFigma_connected randomUUID toolName args now sendThrows w :
  isFigmaConnected w = true →
  ∃ ws, figmaConnection (serverState w) = Some ws ∧ sockets w !! ws = Some OPEN ∧
  let r := sendToFigma randomUUID toolName args now sendThrows w in
  let requestId := randomUUID (uuidCalls w) in
  let entry := {| pr_id := requestId; pr_toolName := toolName; pr_timestamp := now;
                  pr_settle := nextPromise w; pr_timeout := nextTimer w |} in
  let timer := {| tm_delay := REQUEST_TIMEOUT; tm_requestId := requestId;
                  tm_reject := nextPromise w |} in
  r.2 = inr (nextPromise w)
  ∧ outbox r.1 = outbox w ++ [(ws, ToolRequest {| req_id := requestId;
                                                  req_tool := toolName;
                                                  req_args := serialized args |})]
  ∧ (nextSocket r.1, nextTimer r.1, nextPromise r.1, uuidCalls r.1)
    = (nextSocket w, S (nextTimer w), S (nextPromise w), S (uuidCalls w))
  ∧ connection r.1 = connection w
  ∧ pendingRequests (serverState r.1)
    = match sendThrows with
      | None => JsMap.set requestId entry (pendingRequests (serverState w))
      | Some _ => JsMap.delete requestId
                    (JsMap.set requestId entry (pendingRequests (serverState w)))
      end
  ∧ timers r.1
    = match sendThrows with
      | None => <[nextTimer w := timer]> (timers w)
      | Some _ => delete (nextTimer w) (<[nextTimer w := timer]> (timers w))
      end
  ∧ settled r.1
    = match sendThrows with
      | None => settled w
      | Some error =>
          settled w ++ [(nextPromise w,
                         Rejected (mkError ("Failed to send request to Figma: "
                                            +:+ error)))]
      end.
Proof.
  intros Hc. unfold sendToFigma. rewrite Hc.
  apply isFigmaConnected_true in Hc as (ws & Hws & Hopen).
  exists ws. split; [done|]. split; [done|].
  destruct w as [[conn tbl flag] ? ? ? ? ? ? ? ?]. simpl in *. subst conn.
  by destruct sendThrows.
Qed.

Lemma sendToFigma_refused randomUUID toolName args now sendThrows w :
  isFigmaConnected w = false →
  sendToFigma randomUUID toolName args now sendThrows w = (w, inl (mkError NOT_CONNECTED)).
Proof. intros Hc. unfold sendToFigma. by rewrite Hc. Qed.

(** What [handleFigmaResponse] can do with a value that need not inhabit
    its parameter type: nothing, or remove an entry and disarm its timer,
    with or without settling its promise. *)
Lemma handleFigmaResponse_unchecked_cases response error_text w :
  handleFigmaResponse_unchecked response error_text w = w
  ∨ ∃ id pending,
      raw_id response = Some (JStr id)
      ∧ JsMap.get id (pendingRequests (serverState w)) = Some pending
      ∧ (handleFigmaResponse_unchecked response error_text w
         = pendingRequests_delete id (clearTimeout (pr_timeout pending) w)
         ∨ ∃ o, handleFigmaResponse_unchecked response error_text w
                = resolved id pending o w).
Proof.
  unfold handleFigmaResponse_unchecked.
  destruct (raw_id response) as [[| | |id| |]|]; try (by left).
  destruct (JsMap.get id (pendingRequests (serverState w))) as [pending|] eqn:Hget;
    [|by left].
  right. exists id, pending. split; [done|]. split; [done|].
  destruct (truthy (raw_success response)); [right; by eexists|].
  destruct error_text as [error|text]; [by left|right; by eexists].
Qed.

Lemma handleFigmaResponse_counters response w :
  counters (handleFigmaResponse response w) = counters w
  ∧ connection (handleFigmaResponse response w) = connection w.
Proof.
  destruct (JsMap.get (res_id response) (pendingRequests (serverState w)))
    as [pending|] eqn:Hget.
  - by rewrite (handleFigmaResponse_known _ _ _ Hget).
  - by rewrite handleFigmaResponse_unknown.
Qed.

Lemma timeoutCallback_counters h w :
  counters (timeoutCallback h w) = counters w
  ∧ connection (timeoutCallback h w) = connection w.
Proof.
  unfold timeoutCallback. by destruct (timers w !! h).
Qed.

Lemma onMessage_counters message w :
  counters (onMessage message w) = counters w
  ∧ connection (onMessage message w) = connection w.
Proof.
  destruct message as [|data|response error_text]; simpl; [done| |].
  - case_decide; [apply handleFigmaResponse_counters|]. by case_decide.
  - by destruct (handleFigmaResponse_unchecked_cases response error_text w)
      as [->|(id & pending & _ & _ & [->| [o ->]])].
Qed.

Lemma onClose_counters w :
  counters (onClose w) = counters w.
Proof. by rewrite onClose_closed_form. Qed.

Lemma get_delete_Some {V} (m : JsMap.t V) k k' v :
  JsMap.get k (JsMap.delete k' m) = Some v → k ≠ k' ∧ JsMap.get k m = Some v.
Proof.
  intros H. destruct (decide (k' = k)) as [->|Hne].
  - by rewrite get_delete_eq in H.
  - rewrite get_delete_ne in H by done. split; [congruence|done].
Qed.

Lemma sent_requests_snoc w ws f :
  omap (λ x : nat * Outbound,
          match x.2 with ToolRequest r => Some (x.1, r) | Welcome => None end)
       (outbox w ++ [(ws, f)])
  = sent_requests w ++ match f with ToolRequest r => [(ws, r)] | Welcome => [] end.
Proof. unfold sent_requests. rewrite omap_app. by destruct f. Qed.

Lemma welcomed_snoc w ws f :
  omap (λ x : nat * Outbound,
          match x.2 with Welcome => Some x.1 | ToolRequest _ => None end)
       (outbox w ++ [(ws, f)])
  = welcomed w ++ match f with Welcome => [ws] | ToolRequest _ => [] end.
Proof. unfold welcomed. rewrite omap_app. by destruct f. Qed.

(** ** One id, one timer, one send per dispatched call *)

(** X1.  In every store the event loop reaches, the calls that passed the
    connection check, the ids drawn, the timers armed and the promises made
    are equal in number, and the tool requests handed to [ws.send] carry
    exactly the ids drawn, each once and in the order drawn: no call is sent
    twice and none is filed without a send attempt.  Every accepted socket was
    sent the welcome message exactly once, in order of arrival. *)
Theorem every_call_sent_once (randomUUID : nat → string) (es : list Event) :
  let w := run randomUUID es initial in
  nextPromise w = uuidCalls w
  ∧ nextTimer w = uuidCalls w
  ∧ (λ x, req_id x.2) <$> sent_requests w = randomUUID <$> seq 0 (uuidCalls w)
  ∧ welcomed w = seq 0 (nextSocket w).
Proof.
  intros w.
  set (P := λ w : World,
         nextPromise w = uuidCalls w ∧ nextTimer w = uuidCalls w
         ∧ (λ x, req_id x.2) <$> sent_requests w = randomUUID <$> seq 0 (uuidCalls w)
         ∧ welcomed w = seq 0 (nextSocket w)).
  assert (Hframe : ∀ w1 w2, counters w2 = counters w1 → P w1 → P w2).
  { intros w1 w2 Heq. unfold P, sent_requests, welcomed.
    unfold counters in Heq. injection Heq as -> -> -> -> ->. done. }
  apply (reachable_step_ind randomUUID P); [done| |by exists es].
  clear w. intros w e _ HP.
  destruct e as [|ws rs|ws message|ws|ws|h|toolName args now sendThrows];
    cbn [step].
  - destruct HP as (H1 & H2 & H3 & H4).
    unfold P, sent_requests, welcomed, onConnection, record_send.
    cbn [outbox nextSocket nextPromise nextTimer uuidCalls].
    rewrite sent_requests_snoc, welcomed_snoc, app_nil_r, seq_S, H4. done.
  - destruct (known_socket ws w); [|done]. by apply (Hframe w).
  - destruct (known_socket ws w); [|done].
    apply (Hframe w); [apply onMessage_counters|done].
  - destruct (known_socket ws w); [|done].
    apply (Hframe w); [by rewrite onClose_counters|done].
  - by destruct (known_socket ws w).
  - apply (Hframe w); [apply timeoutCallback_counters|done].
  - destruct (isFigmaConnected w) eqn:Hc.
    + destruct (sendToFigma_connected randomUUID toolName args now sendThrows w Hc)
        as (ws & _ & _ & _ & Hout & Hcnt & Hconn & _).
      destruct HP as (H1 & H2 & H3 & H4).
      injection Hcnt as Hs Ht Hp Hu. unfold P, sent_requests, welcomed.
      rewrite Hout, Ht, Hp, Hu, Hs, sent_requests_snoc, welcomed_snoc, app_nil_r.
      rewrite fmap_app, H3, seq_S, fmap_app, H1, H2. done.
    + by rewrite sendToFigma_refused.
Qed.

(** ** The stored connection *)

(** The invariant of the components that say which socket is connected. *)
Lemma reachable_connection randomUUID w :
  reachable randomUUID w →
  (isConnected (serverState w) = true ↔ is_Some (figmaConnection (serverState w)))
  ∧ (∀ ws, figmaConnection (serverState w) = Some ws → S ws = nextSocket w)
  ∧ (∀ ws, is_Some (sockets w !! ws) ↔ ws < nextSocket w).
Proof.
  intros Hr. revert w Hr.
  set (P := λ w : World,
         (isConnected (serverState w) = true ↔ is_Some (figmaConnection (serverState w)))
         ∧ (∀ ws, figmaConnection (serverState w) = Some ws → S ws = nextSocket w)
         ∧ (∀ ws, is_Some (sockets w !! ws) ↔ ws < nextSocket w)).
  assert (Hframe : ∀ w1 w2, connection w2 = connection w1 → P w1 → P w2).
  { intros w1 w2 Heq. unfold P. unfold connection in Heq.
    injection Heq as -> -> -> ->. done. }
  apply (reachable_step_ind randomUUID P).
  - split; [split; [done | by intros [? ?]]|]. split; [done|].
    intros ws. simpl. rewrite lookup_empty. split; [by intros [? ?] | lia].
  - intros w e _ (Hflag & Hlast & Hknown).
    destruct e as [|ws rs|ws message|ws|ws|h|toolName args now sendThrows];
      cbn [step].
    + unfold P, onConnection, record_send.
      cbn [serverState figmaConnection isConnected sockets nextSocket].
      split; [split; [eauto | done]|]. split; [by intros ws [= <-]|].
      intros ws. rewrite lookup_insert_is_Some, Hknown.
      destruct (decide (nextSocket w = ws)); split; intros; try lia; tauto.
    + unfold known_socket. case_bool_decide as Hws; [|done].
      unfold P, with_sockets.
      cbn [serverState figmaConnection isConnected sockets nextSocket].
      split; [done|]. split; [done|]. intros ws'.
      rewrite lookup_insert_is_Some, <- Hknown.
      destruct (decide (ws = ws')) as [<-|]; [tauto|]. tauto.
    + destruct (known_socket ws w); [|done].
      apply (Hframe w); [apply onMessage_counters|done].
    + unfold known_socket. case_bool_decide as Hws; [|done].
      rewrite onClose_closed_form. unfold P, with_sockets.
      cbn [serverState figmaConnection isConnected sockets nextSocket].
      split; [split; [done | by intros [? ?]]|]. split; [done|].
      intros ws'. rewrite lookup_insert_is_Some, <- Hknown.
      destruct (decide (ws = ws')) as [<-|]; [tauto|]. tauto.
    + by destruct (known_socket ws w).
    + apply (Hframe w); [apply timeoutCallback_counters|done].
    + destruct (isFigmaConnected w) eqn:Hc.
      * destruct (sendToFigma_connected randomUUID toolName args now sendThrows w Hc)
          as (ws & _ & _ & _ & _ & _ & Hconn & _).
        by apply (Hframe w).
      * by rewrite sendToFigma_refused.
Qed.

(** X2.  In every reachable store the [isConnected] flag is set exactly when
    a handle is stored, the stored handle is the socket accepted last, and
    the sockets on record are exactly those accepted so far; so whenever
    [isFigmaConnected] holds the flag is set too. *)
Theorem stored_connection_is_latest (randomUUID : nat → string) (es : list Event) :
  let w := run randomUUID es initial in
  (isConnected (serverState w) = true ↔ is_Some (figmaConnection (serverState w)))
  ∧ (∀ ws, figmaConnection (serverState w) = Some ws → S ws = nextSocket w)
  ∧ (∀ ws, is_Some (sockets w !! ws) ↔ ws < nextSocket w)
  ∧ (isFigmaConnected w = true → isConnected (serverState w) = true).
Proof.
  intros w.
  destruct (reachable_connection randomUUID w) as (Hflag & Hlast & Hknown);
    [by exists es|].
  split; [done|]. split; [done|]. split; [done|].
  intros (ws & Hws & _)%isFigmaConnected_true. apply Hflag. by rewrite Hws.
Qed.

(** ** Entries, frames and timers agree *)

Lemma timeoutCallback_table h w k e :
  JsMap.get k (pendingRequests (serverState (timeoutCallback h w))) = Some e →
  JsMap.get k (pendingRequests (serverState w)) = Some e.
Proof.
  unfold timeoutCallback. destruct (timers w !! h) as [t|]; [|done]. simpl.
  by intros [_ H]%get_delete_Some.
Qed.

Lemma handleFigmaResponse_table response w k e :
  JsMap.get k (pendingRequests (serverState (handleFigmaResponse response w))) = Some e →
  JsMap.get k (pendingRequests (serverState w)) = Some e.
Proof.
  destruct (JsMap.get (res_id response) (pendingRequests (serverState w)))
    as [pending|] eqn:Hget.
  - rewrite (handleFigmaResponse_known _ _ _ Hget). simpl.
    by intros [_ H]%get_delete_Some.
  - by rewrite handleFigmaResponse_unknown.
Qed.

Lemma onMessage_table message w k e :
  JsMap.get k (pendingRequests (serverState (onMessage message w))) = Some e →
  JsMap.get k (pendingRequests (serverState w)) = Some e.
Proof.
  destruct message as [|data|response error_text]; simpl; [done| |].
  - case_decide; [apply handleFigmaResponse_table|]. by case_decide.
  - destruct (handleFigmaResponse_unchecked_cases response error_text w)
      as [->|(id & pending & _ & _ & [->| [o ->]])]; [done| |];
      simpl; by intros [_ H]%get_delete_Some.
Qed.

(** X3.  In every reachable store, an entry of the table is filed under the
    id it records, and a tool request carrying that id and the entry's tool
    name was handed to [ws.send]: nothing is pending that was not sent. *)
Theorem every_pending_call_was_sent (randomUUID : nat → string) (es : list Event) :
  let w := run randomUUID es initial in
  ∀ k pending,
    JsMap.get k (pendingRequests (serverState w)) = Some pending →
    pr_id pending = k
    ∧ ∃ x, x ∈ sent_requests w ∧ req_id x.2 = k ∧ req_tool x.2 = pr_toolName pending.
Proof.
  intros w.
  set (P := λ w : World, ∀ k pending,
         JsMap.get k (pendingRequests (serverState w)) = Some pending →
         pr_id pending = k
         ∧ ∃ x, x ∈ sent_requests w ∧ req_id x.2 = k
                ∧ req_tool x.2 = pr_toolName pending).
  assert (Hframe : ∀ w1 w2,
            counters w2 = counters w1 →
            (∀ k e, JsMap.get k (pendingRequests (serverState w2)) = Some e →
                    JsMap.get k (pendingRequests (serverState w1)) = Some e) →
            P w1 → P w2).
  { intros w1 w2 Heq Hsub HP k e Hget. apply Hsub, HP in Hget.
    unfold sent_requests. unfold counters in Heq. injection Heq as -> _ _ _ _.
    done. }
  apply (reachable_step_ind randomUUID P); [done| |by exists es].
  clear w. intros w e _ HP.
  destruct e as [|ws rs|ws message|ws|ws|h|toolName args now sendThrows];
    cbn [step].
  - intros k e Hget. destruct (HP k e Hget) as (Hid & x & Hx & Hk & Ht).
    split; [done|]. exists x. split; [|done].
    unfold sent_requests, onConnection, record_send. cbn [outbox].
    rewrite sent_requests_snoc, app_nil_r. done.
  - destruct (known_socket ws w); [|done]. by apply (Hframe w).
  - destruct (known_socket ws w); [|done].
    apply (Hframe w); [apply onMessage_counters|apply onMessage_table|done].
  - destruct (known_socket ws w); [|done].
    intros k e. by rewrite onClose_closed_form.
  - by destruct (known_socket ws w).
  - apply (Hframe w); [apply timeoutCallback_counters|apply timeoutCallback_table|done].
  - destruct (isFigmaConnected w) eqn:Hc; [|by rewrite sendToFigma_refused].
    destruct (sendToFigma_connected randomUUID toolName args now sendThrows w Hc)
      as (ws & _ & _ & _ & Hout & _ & _ & Htbl & _).
    intros k e. rewrite Htbl. unfold sent_requests. rewrite Hout, sent_requests_snoc.
    intros Hget.
    assert (Hcases : (k = randomUUID (uuidCalls w)
                      ∧ pr_id e = k ∧ pr_toolName e = toolName)
                     ∨ JsMap.get k (pendingRequests (serverState w)) = Some e).
    { destruct sendThrows as [error|].
      - apply get_delete_Some in Hget as [Hne Hget].
        rewrite get_set_ne in Hget by done. by right.
      - destruct (decide (randomUUID (uuidCalls w) = k)) as [<-|Hne].
        + rewrite get_set_eq in Hget. injection Hget as <-. by left.
        + rewrite get_set_ne in Hget by done. by right. }
    destruct Hcases as [(-> & Hid & Htool)|Hold].
    + split; [done|]. eexists. split; [apply elem_of_app; right;
                                        apply list_elem_of_singleton; reflexivity|].
      done.
    + destruct (HP k e Hold) as (Hid & x & Hx & Hk & Ht).
      split; [done|]. exists x. split; [|done]. apply elem_of_app. by left.
Qed.

(** Timers are only ever armed with [REQUEST_TIMEOUT]. *)
Lemma reachable_timer_delay randomUUID w h t :
  reachable randomUUID w → timers w !! h = Some t → tm_delay t = REQUEST_TIMEOUT.
Proof.
  intros Hw. revert h t.
  apply (reachable_step_ind randomUUID
           (λ w, ∀ h t, timers w !! h = Some t → tm_delay t = REQUEST_TIMEOUT));
    [intros h t H; by destruct (lookup_empty_Some (M:=gmap nat) h t H)| |done].
  clear w Hw. intros w e _ HP.
  destruct e as [|ws rs|ws message|ws|ws|h0|toolName args now sendThrows];
    cbn [step]; try done.
  - by destruct (known_socket ws w).
  - destruct (known_socket ws w); [|done].
    destruct message as [|data|response error_text]; simpl; [done| |].
    + case_decide; [|by case_decide].
      destruct (JsMap.get (res_id (as_FigmaToolResponse data))
                  (pendingRequests (serverState w))) as [pending|] eqn:Hget.
      * rewrite (handleFigmaResponse_known _ _ _ Hget). simpl.
        intros h t [_ Ht]%lookup_delete_Some. eauto.
      * by rewrite handleFigmaResponse_unknown.
    + destruct (handleFigmaResponse_unchecked_cases response error_text w)
        as [->|(id & pending & _ & _ & [->| [o ->]])]; [done| |];
        simpl; intros h t [_ Ht]%lookup_delete_Some; eauto.
  - destruct (known_socket ws w); [|done]. rewrite onClose_closed_form. simpl.
    intros h t [Ht _]%disarm_all_lookup_Some. eauto.
  - by destruct (known_socket ws w).
  - unfold timeoutCallback. destruct (timers w !! h0) as [t0|] eqn:Ht0; [|done].
    simpl. intros h t [_ Ht]%lookup_delete_Some. eauto.
  - destruct (isFigmaConnected w) eqn:Hc; [|by rewrite sendToFigma_refused].
    destruct (sendToFigma_connected randomUUID toolName args now sendThrows w Hc)
      as (ws & _ & _ & _ & _ & _ & _ & _ & Hts & _).
    intros h t. rewrite Hts. destruct sendThrows as [error|].
    + intros [_ [[_ <-]|[_ Ht]]%lookup_insert_Some]%lookup_delete_Some; eauto.
    + intros [[_ <-]|[_ Ht]]%lookup_insert_Some; eauto.
Qed.

(** X4.  In every reachable store (ids pairwise distinct) the armed timers
    and the table entries correspond one to one: a timer is armed exactly when
    some entry holds its handle, it was armed with [REQUEST_TIMEOUT], and its
    closure names that entry's id and promise.  So an empty table means no
    timer is left armed. *)
Theorem timers_match_entries
    (randomUUID : nat → string) (Hunique : Inj (=) (=) randomUUID)
    (es : list Event) :
  let w := run randomUUID es initial in
  let table := pendingRequests (serverState w) in
  (∀ h, is_Some (timers w !! h)
        ↔ ∃ k pending, JsMap.get k table = Some pending ∧ pr_timeout pending = h)
  ∧ (∀ h t, timers w !! h = Some t →
       tm_delay t = REQUEST_TIMEOUT
       ∧ ∃ pending, JsMap.get (tm_requestId t) table = Some pending
                    ∧ pr_timeout pending = h ∧ pr_settle pending = tm_reject t)
  ∧ (table = [] → timers w = ∅).
Proof.
  intros w table.
  assert (Hr : reachable randomUUID w) by by exists es.
  pose proof (reachable_consistent randomUUID Hunique w Hr) as Hw.
  assert (Htimer : ∀ h t, timers w !! h = Some t →
            ∃ pending, JsMap.get (tm_requestId t) table = Some pending
                       ∧ pr_timeout pending = h ∧ pr_settle pending = tm_reject t).
  { intros h t Ht. destruct (timer_table Hw _ _ Ht) as (e & He & Hh & Hs).
    exists e. split; [|done]. apply elem_of_get; [apply (table_keys Hw)|done]. }
  split; [|split].
  - intros h. split.
    + intros [t Ht]. destruct (Htimer h t Ht) as (e & He & Hh & _). eauto.
    + intros (k & e & Hget & <-).
      destruct (table_timer Hw k e (get_Some_elem_of _ _ _ Hget)) as (t & Ht & _).
      eauto.
  - intros h t Ht. split; [by apply (reachable_timer_delay randomUUID w h)|auto].
  - intros Hempty. apply map_empty. intros h.
    destruct (timers w !! h) as [t|] eqn:Ht; [|done].
    destruct (Htimer h t Ht) as (e & He & _). by rewrite Hempty in He.
Qed.


(** ** A timer never fires into a resolved call *)

Lemma timeoutCallback_disarmed h w : timers w !! h = None → timeoutCallback h w = w.
Proof. unfold timeoutCallback. by intros ->. Qed.

(** X5.  In any store: once a response has resolved an entry, once the
    "close" handler has run, or once a failed send has been rolled back, the
    firing of the timer that belonged to the entry changes nothing; and a
    timer that fired cannot fire again. *)
Theorem timer_is_dead_after_resolution
    (randomUUID : nat → string) (w : World) :
  (∀ response pending,
     JsMap.get (res_id response) (pendingRequests (serverState w)) = Some pending →
     timeoutCallback (pr_timeout pending) (handleFigmaResponse response w)
     = handleFigmaResponse response w)
  ∧ (∀ k pending,
       (k, pending) ∈ JsMap.entries (pendingRequests (serverState w)) →
       timeoutCallback (pr_timeout pending) (onClose w) = onClose w)
  ∧ (∀ toolName args now error,
       isFigmaConnected w = true →
       let w' := (sendToFigma randomUUID toolName args now (Some error) w).1 in
       timeoutCallback (nextTimer w) w' = w')
  ∧ (∀ h, timeoutCallback h (timeoutCallback h w) = timeoutCallback h w).
Proof.
  split; [|split; [|split]].
  - intros response pending Hget. apply timeoutCallback_disarmed.
    rewrite (handleFigmaResponse_known _ _ _ Hget). simpl. apply lookup_delete_eq.
  - intros k pending Hin. apply timeoutCallback_disarmed.
    rewrite onClose_closed_form. simpl.
    apply (disarm_all_lookup_elem _ _ (k, pending)). done.
  - intros toolName args now error Hc w'. apply timeoutCallback_disarmed.
    destruct (sendToFigma_connected randomUUID toolName args now (Some error) w Hc)
      as (ws & _ & _ & _ & _ & _ & _ & _ & Hts & _).
    subst w'. rewrite Hts. apply lookup_delete_eq.
  - intros h. apply timeoutCallback_disarmed. unfold timeoutCallback.
    destruct (timers w !! h) as [t|] eqn:Ht; [|done]. simpl. apply lookup_delete_eq.
Qed.

(** ** Filing a call and resolving it is a round trip on the table *)

Lemma first_settlement_fresh p o (log : list (nat * Outcome)) :
  p ∉ log.*1 → first_settlement p (log ++ [(p, o)]) = Some o.
Proof.
  induction log as [|[q o'] log IH]; simpl.
  - intros _. by rewrite decide_True.
  - rewrite not_elem_of_cons. intros [Hne Hlog]. rewrite decide_False by done. auto.
Qed.

(** X6.  From a reachable store with an open connection (ids pairwise
    distinct), a call that is sent and then answered, or sent and then timed
    out, leaves the table and the armed timers exactly as they were before
    the call; its promise is settled with the outcome of the response, or
    rejected with the timeout reason. *)
Theorem call_and_reply_restore_the_table
    (randomUUID : nat → string) (Hunique : Inj (=) (=) randomUUID)
    (es : list Event) (toolName : string) (args : json) (now : N) :
  let w := run randomUUID es initial in
  let sent := (sendToFigma randomUUID toolName args now None w).1 in
  isFigmaConnected w = true →
  (∀ response, res_id response = randomUUID (uuidCalls w) →
     let w' := handleFigmaResponse response sent in
     pendingRequests (serverState w') = pendingRequests (serverState w)
     ∧ timers w' = timers w
     ∧ settled w' = settled w ++ [(nextPromise w, response_outcome response)]
     ∧ promise_state w' (nextPromise w) = Some (response_outcome response))
  ∧ (let w' := timeoutCallback (nextTimer w) sent in
     pendingRequests (serverState w') = pendingRequests (serverState w)
     ∧ timers w' = timers w
     ∧ settled w' = settled w ++ [(nextPromise w, Rejected (mkError TIMEOUT_MESSAGE))]
     ∧ promise_state w' (nextPromise w) = Some (Rejected (mkError TIMEOUT_MESSAGE))).
Proof.
  intros w sent Hc.
  assert (Hw : consistent randomUUID w)
    by (apply reachable_consistent; [done | by exists es]).
  pose proof (fresh_id randomUUID Hunique Hw) as Hid.
  pose proof (fresh_timer randomUUID Hw) as Htm.
  pose proof (fresh_promise randomUUID Hw) as Hpr.
  destruct (sendToFigma_connected randomUUID toolName args now None w Hc)
    as (ws & _ & _ & _ & _ & _ & _ & Htbl & Hts & Hlog).
  fold sent in Htbl, Hts, Hlog. split.
  - intros response Hres w'. subst w'.
    assert (Hget : JsMap.get (res_id response) (pendingRequests (serverState sent))
                   = Some {| pr_id := randomUUID (uuidCalls w); pr_toolName := toolName;
                             pr_timestamp := now; pr_settle := nextPromise w;
                             pr_timeout := nextTimer w |})
      by (by rewrite Htbl, Hres, get_set_eq).
    rewrite (handleFigmaResponse_known _ _ _ Hget). unfold promise_state. simpl.
    rewrite Htbl, Hts, Hlog, Hres, delete_set_fresh, delete_insert_id by done.
    repeat split. by apply first_settlement_fresh.
  - intros w'. subst w'.
    rewrite (timeoutCallback_armed (nextTimer w)
               {| tm_delay := REQUEST_TIMEOUT; tm_requestId := randomUUID (uuidCalls w);
                  tm_reject := nextPromise w |})
      by (by rewrite Hts, lookup_insert_eq).
    unfold promise_state. simpl.
    rewrite Htbl, Hts, Hlog, delete_set_fresh, delete_insert_id by done.
    repeat split. by apply first_settlement_fresh.
Qed.

(** ** A new connection supersedes the old one and nothing else *)

(** X7.  When a socket connects to a reachable store, it becomes the stored
    connection and is open; the socket it supersedes, if any, is a different
    one and keeps the [readyState] it had (it is not closed); the only frame
    sent is the welcome to the new socket; and the table, the armed timers
    and the settlements are untouched, so the calls pending on the old socket
    are neither rejected nor moved. *)
Theorem reconnect_leaves_pending_calls
    (randomUUID : nat → string) (es : list Event) :
  let w := run randomUUID es initial in
  let w' := step randomUUID w Connection in
  figmaConnection (serverState w') = Some (nextSocket w)
  ∧ isFigmaConnected w' = true
  ∧ (∀ old, figmaConnection (serverState w) = Some old →
       old ≠ nextSocket w ∧ sockets w' !! old = sockets w !! old)
  ∧ outbox w' = outbox w ++ [(nextSocket w, Welcome)]
  ∧ pendingRequests (serverState w') = pendingRequests (serverState w)
  ∧ timers w' = timers w
  ∧ settled w' = settled w.
Proof.
  intros w w'.
  destruct (reachable_connection randomUUID w) as (_ & Hlast & _); [by exists es|].
  subst w'. cbn [step]. unfold onConnection, record_send, isFigmaConnected.
  cbn [serverState figmaConnection sockets outbox pendingRequests timers settled].
  split; [done|]. split; [by rewrite lookup_insert_eq, bool_decide_eq_true|].
  split; [|done]. intros old Hold. apply Hlast in Hold.
  split; [lia|]. apply lookup_insert_ne. lia.
Qed.

(** ** Resolving one call leaves the others alone *)

Lemma step_keeps_entry randomUUID (Hunique : Inj (=) (=) randomUUID) w e k pending :
  consistent randomUUID w →
  JsMap.get k (pendingRequests (serverState w)) = Some pending →
  concerns e k (pr_timeout pending) = false →
  JsMap.get k (pendingRequests (serverState (step randomUUID w e))) = Some pending.
Proof.
  intros Hw Hget Hno.
  destruct e as [|ws rs|ws message|ws|ws|h|toolName args now sendThrows];
    cbn [step]; try done.
  - by destruct (known_socket ws w).
  - destruct (known_socket ws w); [|done].
    destruct message as [|data|response error_text]; simpl in *; [done| |].
    + apply bool_decide_eq_false in Hno.
      case_decide as Htype; [|by case_decide].
      rewrite handleFigmaResponse_other; [done|]. intros Hid. by apply Hno.
    + destruct (handleFigmaResponse_unchecked_cases response error_text w)
        as [->|(id & entry & Hid & _ & [->| [o ->]])]; [done| |];
        simpl; rewrite get_delete_ne; try done;
        intros ->; rewrite Hid in Hno; simpl in Hno;
        by rewrite String.eqb_refl in Hno.
  - by destruct (known_socket ws w).
  - simpl in Hno. apply bool_decide_eq_false in Hno.
    unfold timeoutCallback. destruct (timers w !! h) as [t|] eqn:Ht; [|done].
    simpl. rewrite get_delete_ne; [done|]. intros Heq.
    destruct (timer_table Hw _ _ Ht) as (e' & He' & Hh & _).
    rewrite Heq in He'. apply get_Some_elem_of in Hget.
    rewrite (same_key_same_entry randomUUID Hw _ _ _ He' Hget) in Hh. done.
  - destruct (isFigmaConnected w) eqn:Hc; [|by rewrite sendToFigma_refused].
    destruct (sendToFigma_connected randomUUID toolName args now sendThrows w Hc)
      as (ws & _ & _ & _ & _ & _ & _ & Htbl & _).
    rewrite Htbl.
    assert (randomUUID (uuidCalls w) ≠ k) as Hne.
    { intros <-. by rewrite (fresh_id randomUUID Hunique Hw) in Hget. }
    destruct sendThrows; [rewrite get_delete_ne by done|]; by rewrite get_set_ne.
Qed.

(** X8.  In a reachable store (ids pairwise distinct), an entry of the table
    survives every event that is not a "close", not a response carrying its
    id and not the firing of its own timer: after the event it is still filed
    under its id, its timer is still armed and its promise is still
    unsettled.  In particular the response to, the timeout of, or the sending
    of another call never resolves it. *)
Theorem other_events_leave_the_entry
    (randomUUID : nat → string) (Hunique : Inj (=) (=) randomUUID)
    (es : list Event) (e : Event) (k : string) (pending : PendingRequest) :
  let w := run randomUUID es initial in
  let w' := step randomUUID w e in
  JsMap.get k (pendingRequests (serverState w)) = Some pending →
  concerns e k (pr_timeout pending) = false →
  JsMap.get k (pendingRequests (serverState w')) = Some pending
  ∧ is_Some (timers w' !! pr_timeout pending)
  ∧ settle_count w' (pr_settle pending) = 0.
Proof.
  intros w w' Hget Hno.
  assert (Hr : reachable randomUUID w) by by exists es.
  pose proof (reachable_consistent randomUUID Hunique w Hr) as Hw.
  pose proof (reachable_consistent randomUUID Hunique w'
                (reachable_step randomUUID w e Hr)) as Hw'.
  pose proof (step_keeps_entry randomUUID Hunique w e k pending Hw Hget Hno) as Hkeep.
  split; [done|]. apply get_Some_elem_of in Hkeep. split.
  - destruct (table_timer Hw' _ _ Hkeep) as (t & Ht & _). eauto.
  - apply (pending_unsettled Hw'). apply (list_elem_of_fmap_2 promise_of _ _ Hkeep).
Qed.

(** ** A failure reported by Figma reaches the client *)

(** X9.  From a reachable store with an open connection (ids pairwise
    distinct), when the handler dispatches a call and a response carrying
    the call's id arrives, the promise the handler awaits is settled with
    the outcome of that response.  For a response with [success] false the
    handler therefore returns its failure report with the response's [error]
    as the reason, or "Unknown error from Figma" when [error] is missing or
    empty. *)
Theorem remote_failure_reaches_the_client
    (randomUUID : nat → string) (Hunique : Inj (=) (=) randomUUID)
    (es : list Event) (tools : list Tool) (t : Tool) (name : string)
    (args : any) (toolArgs : json) (now : N) (response : FigmaToolResponse) :
  let w := run randomUUID es initial in
  let c := callTool randomUUID tools name args now None w in
  let w' := handleFigmaResponse response c.1 in
  isFigmaConnected w = true →
  find_tool name tools = Some t →
  tool_prepare t args = inr toolArgs →
  res_id response = randomUUID (uuidCalls w) →
  ∃ resume,
    c.2 = Awaiting (nextPromise w) resume
    ∧ promise_state w' (nextPromise w) = Some (response_outcome response)
    ∧ (res_success response = false →
       resume (response_outcome response)
       = catch_block name (mkError (failure_text response))).
Proof.
  intros w c w' Hc Hfind Hprep Hres.
  assert (Hw : consistent randomUUID w)
    by (apply reachable_consistent; [done | by exists es]).
  pose proof (fresh_promise randomUUID Hw) as Hpr.
  destruct (sendToFigma_connected randomUUID (tool_name t) toolArgs now None w Hc)
    as (ws & _ & _ & Hret & _ & _ & _ & Htbl & _ & Hlog).
  destruct (sendToFigma randomUUID (tool_name t) toolArgs now None w)
    as [w1 ret] eqn:Hsend.
  simpl in Hret, Htbl, Hlog. subst ret.
  assert (Hcall : c = (w1, Awaiting (nextPromise w) (resumeHandler t name args))).
  { subst c. unfold callTool. by rewrite Hfind, Hprep, Hsend. }
  exists (resumeHandler t name args). subst w'. rewrite Hcall. simpl.
  split; [done|]. split.
  - assert (Hget : JsMap.get (res_id response) (pendingRequests (serverState w1))
                   = Some {| pr_id := randomUUID (uuidCalls w);
                             pr_toolName := tool_name t;
                             pr_timestamp := now; pr_settle := nextPromise w;
                             pr_timeout := nextTimer w |})
      by (by rewrite Htbl, Hres, get_set_eq).
    rewrite (handleFigmaResponse_known _ _ _ Hget). unfold promise_state. simpl.
    rewrite Hlog. by apply first_settlement_fresh.
  - intros Hfail. unfold response_outcome, failure_text. by rewrite Hfail.
Qed.

(** ** Every outcome of a dispatch is reported *)

Lemma first_settlement_None p (log : list (nat * Outcome)) :
  p ∉ log.*1 → first_settlement p log = None.
Proof.
  induction log as [|[q o] log IH]; simpl; [done|].
  rewrite not_elem_of_cons. intros [Hne Hlog]. rewrite decide_False by done. auto.
Qed.

Lemma occurrences_0_absent (p : nat) (l : list nat) : occurrences p l = 0 → p ∉ l.
Proof. intros H0 Hin. apply occurrences_present in Hin. lia. Qed.

Lemma run_keeps_entry randomUUID (Hunique : Inj (=) (=) randomUUID) es w k pending :
  consistent randomUUID w →
  JsMap.get k (pendingRequests (serverState w)) = Some pending →
  Forall (λ e, concerns e k (pr_timeout pending) = false) es →
  consistent randomUUID (run randomUUID es w)
  ∧ JsMap.get k (pendingRequests (serverState (run randomUUID es w))) = Some pending.
Proof.
  unfold run. revert w. induction es as [|e es IH]; intros w H Hget Hes; simpl; [done|].
  apply Forall_cons in Hes as [He Hes].
  apply IH; [by apply consistent_step|by apply step_keeps_entry|done].
Qed.

Lemma callTool_dispatched randomUUID tools t name args toolArgs now sendThrows w :
  find_tool name tools = Some t → tool_prepare t args = inr toolArgs →
  isFigmaConnected w = true →
  callTool randomUUID tools name args now sendThrows w
  = ((sendToFigma randomUUID (tool_name t) toolArgs now sendThrows w).1,
     Awaiting (nextPromise w) (resumeHandler t name args)).
Proof.
  intros Hfind Hprep Hc. unfold callTool. rewrite Hfind, Hprep.
  destruct (sendToFigma_connected randomUUID (tool_name t) toolArgs now sendThrows w Hc)
    as (ws & _ & _ & Hret & _).
  destruct (sendToFigma randomUUID (tool_name t) toolArgs now sendThrows w)
    as [w1 ret]. simpl in Hret. by subst ret.
Qed.

(** C8.  In every reachable store (ids pairwise distinct) the handler
    answers every request with a result.  For an unknown tool and for a call
    made without an open connection it returns at once the failure report of
    its [catch] block: a single text naming the tool and the reason, flagged
    as an error.  With an open connection it awaits the promise of its call,
    and whatever settles that promise it resumes to a result: the report, or
    a result its tool block built.  A failed send rejects the promise at
    once.  Otherwise the promise stays pending while events that do not
    concern the call go by, and is then settled by the firing of the call's
    timer, by the "close" of any accepted socket, or by a response of the
    declared interface carrying the call's id; on the timeout, the disconnect
    and a remote failure the handler resumes to the report with that reason.
    A failure reported in a frame that is not of the declared interface is
    reported too, as long as its [error] converts to a string. *)
Theorem handler_reports_every_failure
    (randomUUID : nat → string) (Hunique : Inj (=) (=) randomUUID)
    (es : list Event) (tools : list Tool) (name : string) (args : any) (now : N) :
  let w := run randomUUID es initial in
  let report reason := catch_block name (mkError reason) in
  let call sendThrows := callTool randomUUID tools name args now sendThrows w in
  (∀ reason,
     content (report reason)
     = [TextContent ("Error executing tool " +:+ dq +:+ name +:+ dq +:+ ": "
                     +:+ reason)]
     ∧ isError (report reason) = true)
  ∧ (find_tool name tools = None →
     ∀ sendThrows,
       call sendThrows = (w, Returned (report ("Unknown tool: " +:+ name))))
  ∧ (∀ t toolArgs,
       find_tool name tools = Some t → tool_prepare t args = inr toolArgs →
       (isFigmaConnected w = false →
        ∀ sendThrows, call sendThrows = (w, Returned (report NOT_CONNECTED)))
       ∧ (isFigmaConnected w = true →
          ∃ resume,
            (∀ o, (∃ reason, resume o = catch_block name reason)
                  ∨ (∃ value, o = Fulfilled value
                              ∧ tool_format t args value = inr (resume o)))
            ∧ (∀ error,
                 let reason := "Failed to send request to Figma: " +:+ error in
                 (call (Some error)).2 = Awaiting (nextPromise w) resume
                 ∧ promise_state (call (Some error)).1 (nextPromise w)
                   = Some (Rejected (mkError reason))
                 ∧ resume (Rejected (mkError reason)) = report reason)
            ∧ (call None).2 = Awaiting (nextPromise w) resume
            ∧ ∀ others,
                Forall (λ e, concerns e (randomUUID (uuidCalls w)) (nextTimer w)
                             = false) others →
                let w1 := run randomUUID others (call None).1 in
                let settles e o :=
                  promise_state (step randomUUID w1 e) (nextPromise w) = Some o in
                promise_state w1 (nextPromise w) = None
                ∧ (settles (TimerFires (nextTimer w))
                     (Rejected (mkError TIMEOUT_MESSAGE))
                   ∧ resume (Rejected (mkError TIMEOUT_MESSAGE))
                     = report TIMEOUT_MESSAGE)
                ∧ (∀ ws, known_socket ws w1 = true →
                     settles (Close ws) (Rejected (mkError DISCONNECTED))
                     ∧ resume (Rejected (mkError DISCONNECTED))
                       = report DISCONNECTED)
                ∧ (∀ ws data, known_socket ws w1 = true →
                     msg_type data = Some "tool_response" →
                     res_id (as_FigmaToolResponse data) = randomUUID (uuidCalls w) →
                     let response := as_FigmaToolResponse data in
                     settles (Message ws (Parsed data)) (response_outcome response)
                     ∧ (res_success response = false →
                        resume (response_outcome response)
                        = report (failure_text response)))
                ∧ (∀ ws frame text, known_socket ws w1 = true →
                     raw_id frame = Some (JStr (randomUUID (uuidCalls w))) →
                     truthy (raw_success frame) = false →
                     let reason := if truthy (raw_error frame) then text
                                   else UNKNOWN_FIGMA_ERROR in
                     settles (Message ws (Unchecked frame (inr text)))
                       (Rejected (mkError reason))
                     ∧ resume (Rejected (mkError reason)) = report reason))).
Proof.
  intros w report call.
  assert (Hw : consistent randomUUID w)
    by (apply reachable_consistent; [done | by exists es]).
  split; [done|]. split.
  { intros Hfind sendThrows. subst call; cbv beta. unfold callTool. by rewrite Hfind. }
  intros t toolArgs Hfind Hprep. split.
  { intros Hc sendThrows. subst call; cbv beta. unfold callTool.
    by rewrite Hfind, Hprep, sendToFigma_refused. }
  intros Hc. exists (resumeHandler t name args).
  pose proof (fresh_promise randomUUID Hw) as Hpr.
  split; [|split; [|split]].
  - intros [value|reason]; simpl; [|left; eauto].
    destruct (tool_format t args value) as [e|r] eqn:Hfmt; [left; eauto|].
    right. eauto.
  - intros error reason. subst call; cbv beta.
    rewrite (callTool_dispatched _ _ t _ _ toolArgs) by done. cbn [fst snd].
    destruct (sendToFigma_connected randomUUID (tool_name t) toolArgs now
                (Some error) w Hc) as (ws & _ & _ & _ & _ & _ & _ & _ & _ & Hlog).
    simpl in Hlog. split; [done|]. split; [|done].
    unfold promise_state. rewrite Hlog. by apply first_settlement_fresh.
  - subst call; cbv beta. by rewrite (callTool_dispatched _ _ t _ _ toolArgs).
  - intros others Hothers. subst call; cbv beta.
    rewrite (callTool_dispatched _ _ t _ _ toolArgs) by done. cbn [fst].
    set (k := randomUUID (uuidCalls w)) in *.
    set (pending := {| pr_id := k; pr_toolName := tool_name t; pr_timestamp := now;
                       pr_settle := nextPromise w; pr_timeout := nextTimer w |}).
    assert (Hsent : consistent randomUUID
                      (sendToFigma randomUUID (tool_name t) toolArgs now None w).1)
      by by apply consistent_sendToFigma.
    assert (Hfiled : JsMap.get k
                       (pendingRequests
                          (serverState
                             (sendToFigma randomUUID (tool_name t) toolArgs now
                                None w).1))
                     = Some pending).
    { destruct (sendToFigma_connected randomUUID (tool_name t) toolArgs now None w Hc)
        as (ws & _ & _ & _ & _ & _ & _ & Htbl & _).
      simpl in Htbl. rewrite Htbl. apply get_set_eq. }
    destruct (run_keeps_entry randomUUID Hunique others _ k pending Hsent Hfiled
                Hothers) as [Hw1 Hget].
    set (w1 := run randomUUID others _) in *.
    pose proof (get_Some_elem_of _ _ _ Hget) as Hin.
    assert (Hfresh : nextPromise w ∉ (settled w1).*1).
    { apply occurrences_0_absent, (pending_unsettled Hw1).
      apply (list_elem_of_fmap_2 promise_of _ _ Hin). }
    split; [by apply first_settlement_None|]. split; [|split; [|split]].
    + split; [|done]. cbn [step].
      destruct (table_timer Hw1 _ _ Hin) as (tm & Htm & _ & Hr).
      cbn [pr_timeout pr_settle pending] in Htm, Hr.
      rewrite (timeoutCallback_armed _ _ _ Htm). unfold promise_state. simpl.
      rewrite Hr. by apply first_settlement_fresh.
    + intros ws Hws. split; [|done]. cbn [step]. rewrite Hws.
      set (w0 := with_sockets (<[ws:=CLOSED]> (sockets w1)) w1).
      assert (Hw0 : consistent randomUUID w0) by exact Hw1.
      pose proof (consistent_onClose randomUUID w0 Hw0) as Hclosed.
      apply first_settlement_unique;
        [|apply (Consistent_count_le_1 _ _ _ _ _ _ _ _ Hclosed)].
      rewrite onClose_closed_form. simpl. apply elem_of_app. right.
      apply (list_elem_of_fmap_2 disconnect_rejection _ _ Hin).
    + intros ws data Hws Htype Hid. set (response := as_FigmaToolResponse data).
      cbn [step]. rewrite Hws. cbn [onMessage]. rewrite decide_True by done.
      fold response.
      assert (Hknown : JsMap.get (res_id response) (pendingRequests (serverState w1))
                       = Some pending) by (by subst response; rewrite Hid).
      rewrite (handleFigmaResponse_known _ _ _ Hknown). split.
      * unfold promise_state. simpl. by apply first_settlement_fresh.
      * intros Hfail. unfold response_outcome, failure_text. by rewrite Hfail.
    + intros ws frame text Hws Hid Hfalsy. split; [|done]. cbn [step].
      rewrite Hws. cbn [onMessage]. unfold handleFigmaResponse_unchecked.
      rewrite Hid, Hget, Hfalsy. unfold promise_state. simpl.
      by apply first_settlement_fresh.
Qed.

(** ** A response that is not of the declared interface *)

Lemma elem_of_set {V} (m : JsMap.t V) k v k' v' :
  (k', v') ∈ JsMap.set k v m → (k', v') ∈ m ∨ (k', v') = (k, v).
Proof.
  induction m as [|[k0 v0] m IH]; simpl.
  - intros ->%list_elem_of_singleton. by right.
  - destruct (decide (k = k0)) as [->|Hne].
    + intros [->|Hin]%elem_of_cons; [by right|]. left. by apply list_elem_of_further.
    + intros [->|Hin]%elem_of_cons; [left; apply list_elem_of_here|].
      destruct (IH Hin) as [Hm|Heq]; [|by right]. left. by apply list_elem_of_further.
Qed.

(** Where a step can take a settlement and an entry from: only the promise
    of an entry is settled, or the promise of the call being made; the
    entries are the old ones, or the one of the call being made. *)
Lemma step_sources randomUUID w e :
  consistent randomUUID w →
  let w' := step randomUUID w e in
  let promises w0 := promise_of <$> pendingRequests (serverState w0) in
  (∀ p, p ∈ (settled w').*1 →
        p ∈ (settled w).*1 ∨ p ∈ promises w ∨ p = nextPromise w)
  ∧ (∀ p, p ∈ promises w' → p ∈ promises w ∨ p = nextPromise w)
  ∧ nextPromise w ≤ nextPromise w'.
Proof.
  intros Hw w' promises. subst w'.
  assert (Hdel : ∀ k p, p ∈ promise_of <$> JsMap.delete k (pendingRequests (serverState w)) →
                        p ∈ promises w).
  { intros k p ([k' e'] & -> & [Hin _]%elem_of_delete)%list_elem_of_fmap.
    by apply list_elem_of_fmap_2. }
  assert (Hres : ∀ k pending o,
            (k, pending) ∈ pendingRequests (serverState w) →
            (∀ p, p ∈ (settled (resolved k pending o w)).*1 →
                  p ∈ (settled w).*1 ∨ p ∈ promises w ∨ p = nextPromise w)
            ∧ (∀ p, p ∈ promises (resolved k pending o w) →
                    p ∈ promises w ∨ p = nextPromise w)
            ∧ nextPromise w ≤ nextPromise (resolved k pending o w)).
  { intros k pending o Hin. split; [|split; [|done]].
    - intros p. simpl. rewrite fmap_app, elem_of_app. simpl.
      intros [Hp| ->%list_elem_of_singleton]; [by left|]. right. left.
      apply (list_elem_of_fmap_2 promise_of _ _ Hin).
    - intros p Hp. left. by apply (Hdel k). }
  destruct e as [|ws rs|ws message|ws|ws|h|toolName args now sendThrows];
    cbn [step].
  - split; [|split]; [intros p Hp; by left|intros p Hp; by left|done].
  - destruct (known_socket ws w);
      (split; [|split]; [intros p Hp; by left|intros p Hp; by left|done]).
  - destruct (known_socket ws w);
      [|split; [|split]; [intros p Hp; by left|intros p Hp; by left|done]].
    destruct message as [|data|response error_text]; cbn [onMessage].
    + split; [|split]; [intros p Hp; by left|intros p Hp; by left|done].
    + case_decide;
        [|case_decide;
          (split; [|split]; [intros p Hp; by left|intros p Hp; by left|done])].
      destruct (JsMap.get (res_id (as_FigmaToolResponse data))
                  (pendingRequests (serverState w))) as [pending|] eqn:Hget.
      * rewrite (handleFigmaResponse_known _ _ _ Hget).
        apply Hres. by apply get_Some_elem_of.
      * rewrite handleFigmaResponse_unknown by done.
        split; [|split]; [intros p Hp; by left|intros p Hp; by left|done].
    + destruct (handleFigmaResponse_unchecked_cases response error_text w)
        as [->|(id & pending & _ & Hget & [->| [o ->]])].
      * split; [|split]; [intros p Hp; by left|intros p Hp; by left|done].
      * split; [|split]; [intros p Hp; by left| |done].
        intros p Hp. left. by apply (Hdel id).
      * apply Hres. by apply get_Some_elem_of.
  - destruct (known_socket ws w);
      [|split; [|split]; [intros p Hp; by left|intros p Hp; by left|done]].
    rewrite onClose_closed_form. simpl. split; [|split; [|done]].
    + intros p. rewrite fmap_app, fst_disconnect_rejection, elem_of_app.
      intros [Hp|Hp]; [by left|right; by left].
    + intros p Hp. by apply elem_of_nil in Hp.
  - destruct (known_socket ws w);
      (split; [|split]; [intros p Hp; by left|intros p Hp; by left|done]).
  - unfold timeoutCallback. destruct (timers w !! h) as [t|] eqn:Ht;
      [|split; [|split]; [intros p Hp; by left|intros p Hp; by left|done]].
    destruct (timer_table Hw _ _ Ht) as (entry & Hin & _ & Hs).
    simpl. split; [|split; [|done]].
    + intros p. rewrite fmap_app, elem_of_app. simpl.
      intros [Hp| ->%list_elem_of_singleton]; [by left|]. right. left.
      rewrite <- Hs. apply (list_elem_of_fmap_2 promise_of _ _ Hin).
    + intros p Hp. left. by apply (Hdel (tm_requestId t)).
  - destruct (isFigmaConnected w) eqn:Hc;
      [|rewrite sendToFigma_refused by done;
        split; [|split]; [intros p Hp; by left|intros p Hp; by left|done]].
    destruct (sendToFigma_connected randomUUID toolName args now sendThrows w Hc)
      as (ws & _ & _ & _ & _ & Hcount & _ & Htbl & _ & Hlog).
    injection Hcount as _ _ Hnext _. split; [|split; [|lia]].
    + intros p. rewrite Hlog. destruct sendThrows as [error|]; [|by left].
      rewrite fmap_app, elem_of_app. simpl.
      intros [Hp| ->%list_elem_of_singleton]; [by left|]. right. by right.
    + intros p. unfold promises at 1. rewrite Htbl.
      assert (Hset : ∀ k' e', (k', e') ∈ JsMap.set (randomUUID (uuidCalls w))
                        {| pr_id := randomUUID (uuidCalls w); pr_toolName := toolName;
                           pr_timestamp := now; pr_settle := nextPromise w;
                           pr_timeout := nextTimer w |}
                        (pendingRequests (serverState w)) →
                      promise_of (k', e') ∈ promises w
                      ∨ promise_of (k', e') = nextPromise w).
      { intros k' e' [Hin|[= -> ->]]%elem_of_set; [|by right].
        left. by apply (list_elem_of_fmap_2 promise_of _ _ Hin). }
      destruct sendThrows as [error|].
      * intros ([k' e'] & -> & [Hin _]%elem_of_delete)%list_elem_of_fmap. auto.
      * intros ([k' e'] & -> & Hin)%list_elem_of_fmap. auto.
Qed.

(** A call that is out of the table and not settled stays so. *)
Lemma run_never_settles randomUUID (Hunique : Inj (=) (=) randomUUID) es w p :
  consistent randomUUID w →
  p < nextPromise w →
  p ∉ promise_of <$> pendingRequests (serverState w) →
  p ∉ (settled w).*1 →
  p ∉ (settled (run randomUUID es w)).*1.
Proof.
  unfold run. revert w. induction es as [|e es IH]; intros w Hw Hlt Htbl Hlog;
    simpl; [done|].
  destruct (step_sources randomUUID w e Hw) as (Hs & Ht & Hn).
  apply IH; [by apply consistent_step|lia| |].
  - intros Hp. apply Ht in Hp as [Hp| ->]; [done|lia].
  - intros Hp. apply Hs in Hp as [Hp|[Hp| ->]]; [done|done|lia].
Qed.

(** X19.  A frame of type ["tool_response"] that carries the id of a pending
    call, a falsy [success] and an [error] that cannot be converted to a
    string (an object with a member named [toString]) makes the log line on
    line 170 throw after the entry was deleted and its timer cleared and
    before [reject] is called.  The entry is gone, the timer is disarmed,
    nothing is settled, and nothing that follows settles the call: not its
    timeout, not a close, not another response with its id.  The caller of
    [sendToFigma] waits for ever. *)
Theorem unprintable_error_abandons_the_call
    (randomUUID : nat → string) (Hunique : Inj (=) (=) randomUUID)
    (es later : list Event) (ws : nat) (k : string) (pending : PendingRequest)
    (frame : UncheckedResponse) (error : Error) :
  let w := run randomUUID es initial in
  let w' := step randomUUID w (Message ws (Unchecked frame (inl error))) in
  known_socket ws w = true →
  JsMap.get k (pendingRequests (serverState w)) = Some pending →
  raw_id frame = Some (JStr k) →
  truthy (raw_success frame) = false →
  JsMap.get k (pendingRequests (serverState w')) = None
  ∧ timers w' !! pr_timeout pending = None
  ∧ settled w' = settled w
  ∧ promise_state (run randomUUID later w') (pr_settle pending) = None.
Proof.
  intros w w' Hws Hget Hid Hfalsy.
  assert (Hw : consistent randomUUID w)
    by (apply reachable_consistent; [done | by exists es]).
  assert (Hw' : consistent randomUUID w') by by apply consistent_step.
  assert (Heq : w' = pendingRequests_delete k (clearTimeout (pr_timeout pending) w)).
  { subst w'. cbn [step]. rewrite Hws. cbn [onMessage].
    unfold handleFigmaResponse_unchecked. by rewrite Hid, Hget, Hfalsy. }
  pose proof (get_Some_elem_of _ _ _ Hget) as Hin.
  assert (Hp : pr_settle pending ∈ promise_of <$> pendingRequests (serverState w))
    by apply (list_elem_of_fmap_2 promise_of _ _ Hin).
  assert (Hgone : JsMap.get k (pendingRequests (serverState w')) = None)
    by (rewrite Heq; apply get_delete_eq).
  split; [done|]. split; [rewrite Heq; apply lookup_delete_eq|].
  split; [by rewrite Heq|].
  apply first_settlement_None, (run_never_settles randomUUID Hunique); [done| | |].
  - rewrite Heq. apply (promise_bound Hw _ Hp).
  - rewrite Heq. simpl.
    intros ([k' e'] & Hs & [Hin' Hne]%elem_of_delete)%list_elem_of_fmap.
    assert ((k', e') = (k, pending)) as [= -> ->]; [|done].
    apply (NoDup_fmap_eq promise_of (pendingRequests (serverState w)));
      [apply (table_promises Hw)|done|done|done].
  - rewrite Heq. simpl. apply occurrences_0_absent, (pending_unsettled Hw _ Hp).
Qed.

(** X20.  On a value that has the declared types, the unchecked reading of
    [handleFigmaResponse] does what the typed one does.  On other values: an
    [id] that is not a string finds no entry and changes nothing; a truthy
    [success] of any type fulfils the call with [data]; with a falsy
    [success] and an [error] that converts to a string, the call is rejected
    with that string when [error] is truthy and with "Unknown error from
    Figma" when it is falsy. *)
Theorem unchecked_reading_agrees_with_the_interface
    (response : FigmaToolResponse) (frame : UncheckedResponse)
    (error_text : Error + string) (w : World) :
  handleFigmaResponse_unchecked (unchecked response)
    (inr (declared_error_text response)) w
  = handleFigmaResponse response w
  ∧ ((∀ id, raw_id frame ≠ Some (JStr id)) →
     handleFigmaResponse_unchecked frame error_text w = w)
  ∧ (∀ id pending,
       raw_id frame = Some (JStr id) →
       JsMap.get id (pendingRequests (serverState w)) = Some pending →
       (truthy (raw_success frame) = true →
        handleFigmaResponse_unchecked frame error_text w
        = resolved id pending (Fulfilled (raw_data frame)) w)
       ∧ (truthy (raw_success frame) = false → ∀ text, error_text = inr text →
          handleFigmaResponse_unchecked frame error_text w
          = resolved id pending
              (Rejected (mkError (if truthy (raw_error frame) then text
                                  else UNKNOWN_FIGMA_ERROR))) w)).
Proof.
  split; [|split].
  - unfold handleFigmaResponse_unchecked, handleFigmaResponse, unchecked,
      declared_error_text. simpl.
    destruct (JsMap.get (res_id response) (pendingRequests (serverState w)));
      [|done].
    destruct (res_success response); [done|].
    by destruct (res_error response) as [e|]; simpl;
      [destruct (String.eqb e EmptyString)|].
  - intros Hid. unfold handleFigmaResponse_unchecked.
    destruct (raw_id frame) as [[| | |id| |]|]; try done. by destruct (Hid id).
  - intros id pending Hid Hget. unfold handleFigmaResponse_unchecked.
    rewrite Hid, Hget. split.
    + by intros ->.
    + by intros -> text ->.
Qed.

(** * Argument checks of the twelve-tool handler *)

Lemma nodeIds_rejected_false (v : any) :
  nodeIds_rejected v = false ↔ ∃ x xs, v = Some (JArr (x :: xs)).
Proof.
  split.
  - intros H. destruct v as [[| | | |[|x xs]|]|];
      unfold nodeIds_rejected in H; simpl in H; rewrite ?orb_true_r in H;
      try done. eauto.
  - by intros (x & xs & ->).
Qed.

Lemma callTool_early randomUUID tools t name args now sendThrows w early :
  find_tool name tools = Some t → tool_prepare t args = inl early →
  callTool randomUUID tools name args now sendThrows w = (w, Returned early).
Proof. intros Hfind Hprep. unfold callTool. by rewrite Hfind, Hprep. Qed.

(** X10.  Each of the five blocks that take [nodeIds] ([set_selection],
    [get_node_properties], [rename_node], [set_node_visibility],
    [set_node_lock]) answers with its own refusal text, flagged as an error,
    whenever [nodeIds] is missing or is not a non-empty array: the store is
    returned as it was, connected or not, so nothing is filed, armed or sent.
    With a non-empty array, [set_selection] and [get_node_properties] pass
    exactly [{ nodeIds }] on. *)
Theorem nodeIds_checked_before_dispatch
    (format : string → any → any → Error + CallToolResult)
    (randomUUID : nat → string) (tools : list Tool) (name : string)
    (args : any) (now : N) (sendThrows : option string) (w : World) :
  let refused text :=
    callTool randomUUID tools name args now sendThrows w
    = (w, Returned (refusal text)) in
  ((∀ x xs, optional_member args "nodeIds" ≠ Some (JArr (x :: xs))) →
   (find_tool name tools = Some (set_selection format) →
    refused "Error: nodeIds parameter is required and must be a non-empty array of node IDs.")
   ∧ (find_tool name tools = Some (get_node_properties format) →
      refused "Error: nodeIds parameter is required and must be a non-empty array.")
   ∧ (find_tool name tools = Some (rename_node format) →
      refused "Error: Both nodeIds (array) and newName (string) parameters are required.")
   ∧ (find_tool name tools = Some (set_node_visibility format) →
      refused "Error: Both nodeIds (array) and visible (boolean) parameters are required.")
   ∧ (find_tool name tools = Some (set_node_lock format) →
      refused "Error: Both nodeIds (array) and locked (boolean) parameters are required."))
  ∧ (∀ x xs, optional_member args "nodeIds" = Some (JArr (x :: xs)) →
     tool_prepare (set_selection format) args
     = inr (JObj [("nodeIds", JArr (x :: xs))])
     ∧ tool_prepare (get_node_properties format) args
       = inr (JObj [("nodeIds", JArr (x :: xs))])).
Proof.
  intros refused. split.
  - intros Hbad.
    assert (Hrej : nodeIds_rejected (optional_member args "nodeIds") = true).
    { destruct (nodeIds_rejected (optional_member args "nodeIds")) eqn:Hr; [done|].
      apply nodeIds_rejected_false in Hr as (x & xs & Hr). by destruct (Hbad x xs). }
    subst refused. cbv beta.
    repeat split; intros Hfind; apply (callTool_early _ _ _ _ _ _ _ _ _ Hfind);
      simpl; by rewrite Hrej.
  - intros x xs Hids. simpl. by rewrite Hids.
Qed.

(** X11.  [set_text_content] and [create_text_node] test [text], and
    [rename_node] tests [newName], for truthiness: an empty string is refused
    like a missing argument, before any dispatch, so these tools cannot set
    an empty text or an empty name. *)
Theorem empty_text_is_refused
    (format : string → any → any → Error + CallToolResult)
    (randomUUID : nat → string) (tools : list Tool) (name : string)
    (args : any) (now : N) (sendThrows : option string) (w : World) :
  (truthy (optional_member args "text") = false →
     (find_tool name tools = Some (set_text_content format) →
      callTool randomUUID tools name args now sendThrows w
      = (w, Returned (refusal "Error: Both nodeId and text parameters are required.")))
     ∧ (find_tool name tools = Some (create_text_node format) →
        callTool randomUUID tools name args now sendThrows w
        = (w, Returned (refusal "Error: text parameter is required."))))
  ∧ (truthy (optional_member args "newName") = false →
     find_tool name tools = Some (rename_node format) →
     callTool randomUUID tools name args now sendThrows w
     = (w, Returned (refusal "Error: Both nodeIds (array) and newName (string) parameters are required.")))
  ∧ truthy (Some (JStr EmptyString)) = false.
Proof.
  split; [|split; [|done]].
  - intros Htext. split; intros Hfind;
      apply (callTool_early _ _ _ _ _ _ _ _ _ Hfind); simpl; rewrite Htext;
      by rewrite ?orb_true_r.
  - intros Hname Hfind. apply (callTool_early _ _ _ _ _ _ _ _ _ Hfind). simpl.
    by rewrite Hname, orb_true_r.
Qed.

(** X12.  [set_node_visibility] and [set_node_lock] test their flag against
    [undefined], not for truthiness: with a non-empty array of ids, a flag
    that is present is passed on as given, [false] and [null] included, and
    a flag that is missing is refused by either tool. *)
Theorem explicit_false_flag_is_accepted
    (format : string → any → any → Error + CallToolResult)
    (args : any) (id : json) (ids : list json) (flag : json) :
  optional_member args "nodeIds" = Some (JArr (id :: ids)) →
  (optional_member args "visible" = Some flag →
   tool_prepare (set_node_visibility format) args
   = inr (JObj [("nodeIds", JArr (id :: ids)); ("visible", flag)]))
  ∧ (optional_member args "locked" = Some flag →
     tool_prepare (set_node_lock format) args
     = inr (JObj [("nodeIds", JArr (id :: ids)); ("locked", flag)]))
  ∧ (optional_member args "visible" = None →
     tool_prepare (set_node_visibility format) args
     = inl (refusal "Error: Both nodeIds (array) and visible (boolean) parameters are required."))
  ∧ (optional_member args "locked" = None →
     tool_prepare (set_node_lock format) args
     = inl (refusal "Error: Both nodeIds (array) and locked (boolean) parameters are required.")).
Proof.
  intros Hids. split; [|split; [|split]]; intros Hflag; simpl;
    by rewrite Hids, Hflag.
Qed.

(** * The [ping] block and a reply without data *)

(** X13.  When the awaited promise of [ping] is fulfilled with [undefined]
    or [null] (a response with [success] true and no usable [data]), the
    handler returns a failure report, never a success text; when [String]
    never throws and the data is any other value, it returns a success
    text. *)
Theorem ping_without_data_is_an_error
    (ToString : any → Error + string) (args : any) :
  isError (resumeHandler (ping ToString) "ping" args (Fulfilled None)) = true
  ∧ isError (resumeHandler (ping ToString) "ping" args (Fulfilled (Some JNull))) = true
  ∧ ((∀ v, ∃ text, ToString v = inr text) →
     ∀ data, data ≠ JNull →
       isError (resumeHandler (ping ToString) "ping" args (Fulfilled (Some data)))
       = false).
Proof.
  unfold resumeHandler. simpl. unfold ping_format.
  split; [|split].
  - by destruct (ToString (Some (ping_message args))).
  - by destruct (ToString (Some (ping_message args))).
  - intros Htotal data Hdata.
    destruct (Htotal (Some (ping_message args))) as [s1 ->].
    assert (∃ m, read_member (Some data) "message" = inr m) as [m ->]
      by (destruct data; simpl; eauto; done).
    destruct (Htotal m) as [s2 ->].
    destruct (Htotal (optional_member (Some data) "timestamp")) as [s3 ->].
    by destruct (Htotal (optional_member (Some data) "figmaVersion")) as [s4 ->].
Qed.

(** * The plugin *)

(** ** One reply per request *)

(** X14.  Whatever the message, the plugin posts at most one message back.
    For a tool request it posts exactly one tool response, which echoes the
    request's id: with [success] true and the handler's result as [data] when
    the handler returns, with [success] false and the text of the thrown error
    when it throws.  A tool name that is neither [ping] nor found on the
    prototype of the registry is answered with "Unknown tool: <name>"; no
    other kind of message is ever answered with a tool response. *)
Theorem plugin_answers_each_request_once
    (figma_version : any) (Object_prototype : string → Plugin.Property)
    (cannot_read : any → string → Plugin.Thrown) (not_a_function : Plugin.Thrown)
    (now : string) (msg : Plugin.Message) :
  let posts := Plugin.onmessage figma_version Object_prototype cannot_read
                 not_a_function now msg in
  let outcome := Plugin.executeTool figma_version Object_prototype cannot_read
                   not_a_function now (Plugin.msg_tool msg) (Plugin.msg_args msg) in
  length posts ≤ 1
  ∧ (Plugin.msg_type msg = Some "tool_request" →
     ∃ response,
       posts = [Plugin.ToolResponse response]
       ∧ res_id response = Plugin.msg_id msg
       ∧ match outcome with
         | inr data => res_success response = true ∧ res_data response = data
                       ∧ res_error response = None
         | inl error => res_success response = false ∧ res_data response = None
                        ∧ res_error response = Some (Plugin.error_text error)
         end)
  ∧ (Plugin.msg_type msg = Some "tool_request" →
     Plugin.msg_tool msg ≠ "ping" →
     Object_prototype (Plugin.msg_tool msg) = Plugin.Missing →
     posts = [Plugin.ToolResponse
                {| res_id := Plugin.msg_id msg; res_success := false;
                   res_data := None;
                   res_error := Some ("Unknown tool: " +:+ Plugin.msg_tool msg) |}])
  ∧ (Plugin.msg_type msg ≠ Some "tool_request" →
     ∀ response, Plugin.ToolResponse response ∉ posts).
Proof.
  intros posts outcome. subst posts. unfold Plugin.onmessage. fold outcome.
  split; [|split; [|split]].
  - destruct (Plugin.msg_type msg) as [ty|]; repeat case_decide;
      simplify_eq; simpl; lia.
  - intros Hty. rewrite Hty. simpl. eexists. split; [reflexivity|].
    by destruct outcome.
  - intros Hty Hname Hmissing.
    assert (Hout : outcome
                   = inl {| Plugin.thrown_name := "Error";
                            Plugin.thrown_message :=
                              "Unknown tool: " +:+ Plugin.msg_tool msg |}).
    { subst outcome. unfold Plugin.executeTool, Plugin.toolHandlers.
      by rewrite decide_False, Hmissing. }
    rewrite Hty, Hout. done.
  - intros Hty response.
    repeat case_decide; try done; simpl;
      rewrite ?elem_of_cons, ?elem_of_nil; naive_solver.
Qed.

(** ** The ping echo *)

Lemma ping_message_truthy (args : any) : truthy (Some (ping_message args)) = true.
Proof.
  unfold ping_message. destruct (optional_member args "message") as [v|] eqn:Hm.
  - by destruct (truthy (Some v)) eqn:Hv.
  - done.
Qed.

Lemma json_nested_ind (P : json → Prop) :
  P JNull → (∀ b, P (JBool b)) → (∀ x, P (JNum x)) → (∀ s, P (JStr s)) →
  (∀ items, Forall P items → P (JArr items)) →
  (∀ members, Forall (λ m, P m.2) members → P (JObj members)) →
  ∀ v, P v.
Proof.
  intros Hnull Hbool Hnum Hstr Harr Hobj. fix IH 1.
  intros [|b|x|s|items|members]; [done|done|done|done| |].
  - apply Harr. induction items as [|item items IHitems]; constructor;
      [apply IH | apply IHitems].
  - apply Hobj. induction members as [|[k v] members IHmembers]; constructor;
      [apply IH | apply IHmembers].
Qed.

(** [JSON.stringify] writes a value without infinite numbers as it is. *)
Lemma serialized_finite (v : json) : finite v = true → serialized v = v.
Proof.
  induction v as [|b|[q|negative]|s|items IH|members IH] using json_nested_ind;
    try done; cbn [finite serialized]; intros Hfinite; f_equal.
  - induction items as [|item items IHitems]; [done|].
    apply Forall_cons in IH as [Hitem IH]. cbn [forallb] in Hfinite.
    apply andb_true_iff in Hfinite as [H1 H2]. cbn [map].
    by rewrite Hitem, IHitems.
  - induction members as [|[k v] members IHmembers]; [done|].
    apply Forall_cons in IH as [Hv IH]. cbn [forallb] in Hfinite.
    apply andb_true_iff in Hfinite as [H1 H2]. cbn [map]. simpl in *.
    by rewrite Hv, IHmembers.
Qed.

Lemma serialized_idempotent (v : json) : serialized (serialized v) = serialized v.
Proof.
  induction v as [|b|[q|negative]|s|items IH|members IH] using json_nested_ind;
    try done; cbn [serialized]; f_equal.
  - induction items as [|item items IHitems]; [done|].
    apply Forall_cons in IH as [Hitem IH]. cbn [map].
    by rewrite Hitem, IHitems.
  - induction members as [|[k v] members IHmembers]; [done|].
    apply Forall_cons in IH as [Hv IH]. cbn [map]. simpl in *.
    by rewrite Hv, IHmembers.
Qed.

(** What is truthy stays truthy on the wire, unless it is an infinite
    number. *)
Lemma serialized_falsy (v : json) :
  truthy (Some v) = true →
  truthy (Some (serialized v)) = false ↔ ∃ negative, v = JNum (Infinite negative).
Proof.
  destruct v as [|b|[q|negative]|s|items|members]; simpl; intros Hv; split;
    try done; try (by intros [? ?]); try congruence; eauto.
Qed.

(** X15.  From a reachable store with an open connection (ids pairwise
    distinct), a [ping] invocation sends a request whose arguments are
    [{ message }] as [JSON.stringify] writes it, the message being truthy
    before it is written.  The plugin answers that request with a success
    whose [message] is the message it received, or its own default text
    when what it received is falsy: that is the case exactly when the
    message is an infinite number, which is written [null].  So a message
    without infinite numbers comes back as it was sent.  Feeding the reply to
    [handleFigmaResponse] fulfils the promise the handler awaits with the
    plugin's data and restores the table.  The UI page that relays the frames
    between the two is taken to forward each as the JSON text of its
    value. *)
Theorem ping_reply_echoes_the_message
    (randomUUID : nat → string) (Hunique : Inj (=) (=) randomUUID)
    (ToString : any → Error + string)
    (figma_version : any) (Object_prototype : string → Plugin.Property)
    (cannot_read : any → string → Plugin.Thrown) (not_a_function : Plugin.Thrown)
    (es : list Event) (tools : list Tool) (args : any) (now : N)
    (plugin_now : string) :
  let w := run randomUUID es initial in
  let c := callTool randomUUID tools "ping" args now None w in
  let message := ping_message args in
  isFigmaConnected w = true →
  find_tool "ping" tools = Some (ping ToString) →
  ∃ ws request resume response,
    c.2 = Awaiting (nextPromise w) resume
    ∧ last (outbox c.1) = Some (ws, ToolRequest request)
    ∧ figmaConnection (serverState w) = Some ws
    ∧ req_tool request = "ping"
    ∧ req_args request = JObj [("message", serialized message)]
    ∧ truthy (Some message) = true
    ∧ Plugin.onmessage figma_version Object_prototype cannot_read not_a_function
        plugin_now (as_plugin_message request)
      = [Plugin.ToolResponse response]
    ∧ res_id response = req_id request
    ∧ res_success response = true
    ∧ optional_member (res_data (relayed response)) "message"
      = Some (if truthy (Some (serialized message)) then serialized message
              else JStr "Pong from Figma!")
    ∧ (truthy (Some (serialized message)) = false
       ↔ ∃ negative, message = JNum (Infinite negative))
    ∧ (finite message = true →
       optional_member (res_data (relayed response)) "message" = Some message)
    ∧ promise_state (handleFigmaResponse (relayed response) c.1) (nextPromise w)
      = Some (Fulfilled (res_data (relayed response)))
    ∧ pendingRequests (serverState (handleFigmaResponse (relayed response) c.1))
      = pendingRequests (serverState w).
Proof.
  intros w c message Hc Hfind.
  assert (Hw : consistent randomUUID w)
    by (apply reachable_consistent; [done | by exists es]).
  pose proof (fresh_id randomUUID Hunique Hw) as Hid.
  pose proof (fresh_promise randomUUID Hw) as Hpr.
  pose proof (ping_message_truthy args) as Htruthy. fold message in Htruthy.
  set (toolArgs := JObj [("message", message)]).
  destruct (sendToFigma_connected randomUUID "ping" toolArgs now None w Hc)
    as (ws & Hws & _ & Hret & Hout & _ & _ & Htbl & _ & Hlog).
  destruct (sendToFigma randomUUID "ping" toolArgs now None w) as [w1 ret] eqn:Hsend.
  simpl in Hret, Hout, Htbl, Hlog. subst ret.
  assert (Hcall : c = (w1, Awaiting (nextPromise w)
                             (resumeHandler (ping ToString) "ping" args))).
  { subst c. unfold callTool. rewrite Hfind. simpl. fold message. fold toolArgs.
    by rewrite Hsend. }
  set (request := {| req_id := randomUUID (uuidCalls w); req_tool := "ping";
                     req_args := JObj [("message", serialized message)] |}) in *.
  set (received := if truthy (Some (serialized message)) then serialized message
                   else JStr "Pong from Figma!").
  set (data := Some (object_literal
                       [("message", Some received);
                        ("timestamp", Some (JStr plugin_now));
                        ("figmaVersion", figma_version)])).
  set (response := {| res_id := randomUUID (uuidCalls w); res_success := true;
                      res_data := data; res_error := None |}).
  assert (Hreceived : serialized received = received).
  { subst received. destruct (truthy (Some (serialized message))); [|done].
    apply serialized_idempotent. }
  assert (Hmessage : optional_member (res_data (relayed response)) "message"
                     = Some received).
  { subst response data. unfold relayed, object_literal. simpl.
    by rewrite Hreceived. }
  exists ws, request, (resumeHandler (ping ToString) "ping" args), response.
  rewrite Hcall. cbn [fst snd].
  split; [done|]. split; [by rewrite Hout, last_snoc|]. split; [done|].
  split; [done|]. split; [done|]. split; [done|]. split.
  { unfold Plugin.onmessage, as_plugin_message, Plugin.executeTool,
      Plugin.toolHandlers, Plugin.ping. simpl.
    unfold or_default. simpl. subst response data received. reflexivity. }
  split; [done|]. split; [done|]. split; [done|].
  split; [by apply serialized_falsy|]. split.
  { intros Hfinite. rewrite Hmessage. subst received.
    rewrite (serialized_finite _ Hfinite). by rewrite Htruthy. }
  assert (Hget : JsMap.get (res_id (relayed response))
                   (pendingRequests (serverState w1))
                 = Some {| pr_id := randomUUID (uuidCalls w); pr_toolName := "ping";
                           pr_timestamp := now; pr_settle := nextPromise w;
                           pr_timeout := nextTimer w |})
    by (by rewrite Htbl; simpl; rewrite get_set_eq).
  rewrite (handleFigmaResponse_known _ _ _ Hget). unfold promise_state.
  cbn [settled resolved pendingRequests serverState pr_settle res_id relayed].
  rewrite Hlog, Htbl, delete_set_fresh by done.
  split; [by apply first_settlement_fresh|done].
Qed.

(** ** Serializing nodes *)

(** X16.  [serializeNode] copies the identity of the node, adds the text
    members exactly for a node of type [TEXT], and lists children only when
    asked to and only if the node has the property; the children it lists are
    the children of the node, in order, themselves serialized without
    children, so the result is never more than one level deep. *)
Theorem serializeNode_is_one_level
    (value : Type) (node : Plugin.SceneNode value) (includeChildren : bool) :
  let data := Plugin.serializeNode value node includeChildren in
  (Plugin.d_id value data, Plugin.d_name value data, Plugin.d_type value data)
  = (Plugin.node_id value node, Plugin.node_name value node,
     Plugin.node_type value node)
  ∧ (is_Some (Plugin.d_text value data) ↔ Plugin.node_type value node = "TEXT")
  ∧ (is_Some (Plugin.d_children value data)
     ↔ includeChildren = true ∧ is_Some (Plugin.node_children value node))
  ∧ (∀ children, Plugin.d_children value data = Some children →
       (∃ cs, Plugin.node_children value node = Some cs
              ∧ Plugin.d_id value <$> children = Plugin.node_id value <$> cs)
       ∧ ∀ child, child ∈ children → Plugin.d_children value child = None).
Proof.
  destruct node as [id name type visible locked x y width height
                      characters fontSize fontName children].
  simpl. split; [done|]. split; [|split].
  - case_decide; split; try done; try (by intros [? ?]).
  - destruct includeChildren, children; simpl; split;
      try done; try (by intros [? ?]); try (by intros [? [? ?]]).
    all: eauto.
  - intros listed Hlisted.
    destruct includeChildren; [|done]. destruct children as [cs|]; [|done].
    injection Hlisted as <-. split.
    + exists cs. split; [done|]. rewrite <- list_fmap_compose.
      apply list_fmap_ext. intros _ c _. by destruct c.
    + intros child (c & -> & _)%list_elem_of_fmap. by destruct c.
Qed.

(** ** Scanning a frame *)

Lemma scanChildren_unfold {value : Type} depth filter
    (node : Plugin.SceneNode value) currentDepth currentLevel :
  Plugin.scanChildren value depth filter node currentDepth currentLevel
  = if bool_decide (depth < currentDepth)%Z then []
    else match Plugin.node_children value node with
         | None => []
         | Some cs =>
             cs ≫= scan_child depth filter currentDepth currentLevel
         end.
Proof.
  destruct node as [? ? ? ? ? ? ? ? ? ? ? ? children]. simpl.
  case_bool_decide; [done|]. destruct children as [cs|]; [|done].
  induction cs as [|c cs IH]; [done|]. cbn [mbind list_bind]. by rewrite <- IH.
Qed.

Lemma node_size_child {value : Type} (node : Plugin.SceneNode value) cs c :
  Plugin.node_children value node = Some cs → c ∈ cs → node_size c < node_size node.
Proof.
  destruct node as [? ? ? ? ? ? ? ? ? ? ? ? children]. simpl. intros -> Hc.
  induction cs as [|c' cs IH]; [by apply elem_of_nil in Hc|].
  apply elem_of_cons in Hc as [->|Hc]; [lia|]. specialize (IH Hc). lia.
Qed.

Lemma scanChildren_entries {value : Type} depth filter (n : nat) :
  ∀ (node : Plugin.SceneNode value), node_size node < n →
  ∀ currentDepth currentLevel entry,
    entry ∈ Plugin.scanChildren value depth filter node currentDepth currentLevel →
    (currentLevel ≤ Plugin.se_level value entry
     ≤ currentLevel + (depth - currentDepth))%Z
    ∧ Plugin.d_children value (Plugin.se_data value entry) = None
    ∧ (truthy filter = true →
       filter = Some (JStr (Plugin.d_type value (Plugin.se_data value entry)))).
Proof.
  induction n as [|n IH]; intros node Hsize; [lia|].
  intros currentDepth currentLevel entry.
  rewrite scanChildren_unfold. case_bool_decide as Hdepth; [by intros ?%elem_of_nil|].
  destruct (Plugin.node_children value node) as [cs|] eqn:Hcs;
    [|by intros ?%elem_of_nil].
  intros (child & Hentry & Hchild)%list_elem_of_bind.
  pose proof (node_size_child node cs child Hcs Hchild) as Hsmaller.
  assert (Hrec : node_size child < n) by lia.
  specialize (IH child Hrec). unfold scan_child in Hentry.
  destruct (truthy filter && negb (Plugin.is_string filter
                                     (Plugin.node_type value child))) eqn:Hskip.
  - case_bool_decide as Hmore; [|by apply elem_of_nil in Hentry].
    destruct (IH _ _ _ Hentry) as (Hlevel & Hflat & Htype).
    split; [lia|done].
  - apply elem_of_cons in Hentry as [->|Hentry].
    + simpl. split; [lia|]. split; [by destruct child|].
      intros Hfilter. rewrite Hfilter in Hskip. simpl in Hskip.
      apply negb_false_iff in Hskip. unfold Plugin.is_string in Hskip.
      destruct filter as [[| | |s| |]|]; try done.
      apply String.eqb_eq in Hskip as ->. by destruct child.
    + destruct (bool_decide (currentDepth < depth)%Z
                && Plugin.has_children value child) eqn:Hmore;
        [|by apply elem_of_nil in Hentry].
      apply andb_true_iff in Hmore as [Hmore%bool_decide_eq_true _].
      destruct (IH _ _ _ Hentry) as (Hlevel & Hflat & Htype).
      split; [lia|done].
Qed.

(** X17.  Every element [scanChildren] returns carries a level between the
    level the scan was started at and that level plus the depths still
    allowed, was serialized without children, and, when a filter is given,
    has the type the filter names.  A scan started below the allowed depth
    returns nothing; a scan at the last allowed depth without a filter
    returns exactly the children of the node, in order. *)
Theorem scanChildren_respects_depth_and_filter
    (value : Type) (depth : Z) (filter : any)
    (node : Plugin.SceneNode value) (currentDepth currentLevel : Z) :
  let found := Plugin.scanChildren value depth filter node currentDepth currentLevel in
  (∀ entry, entry ∈ found →
     (currentLevel ≤ Plugin.se_level value entry
      ≤ currentLevel + (depth - currentDepth))%Z
     ∧ Plugin.d_children value (Plugin.se_data value entry) = None
     ∧ (truthy filter = true →
        filter = Some (JStr (Plugin.d_type value (Plugin.se_data value entry)))))
  ∧ ((depth < currentDepth)%Z → found = [])
  ∧ (truthy filter = false → depth = currentDepth →
     ∀ cs, Plugin.node_children value node = Some cs →
       found = (λ child, {| Plugin.se_data := Plugin.serializeNode value child false;
                            Plugin.se_level := currentLevel;
                            Plugin.se_childCount := Plugin.child_count value child |})
               <$> cs).
Proof.
  intros found. subst found. split; [|split].
  - intros entry.
    apply (scanChildren_entries depth filter (S (node_size node))). lia.
  - intros Hdepth. rewrite scanChildren_unfold. by rewrite bool_decide_eq_true_2.
  - intros Hfilter -> cs Hcs. rewrite scanChildren_unfold, Hcs.
    rewrite bool_decide_eq_false_2 by lia.
    clear Hcs. induction cs as [|c cs IH]; [done|].
    cbn [mbind list_bind fmap list_fmap]. rewrite IH. unfold scan_child.
    rewrite Hfilter. simpl. by rewrite bool_decide_eq_false_2 by lia.
Qed.

(** ** Selecting nodes by id *)

Lemma fold_visit {value : Type} (getNodeById : json → option (Plugin.SceneNode value))
    ids nodes missing :
  fold_left (Plugin.visit value getNodeById) ids (nodes, missing)
  = (nodes ++ omap getNodeById ids,
     missing ++ filter (λ id, getNodeById id = None) ids).
Proof.
  revert nodes missing. induction ids as [|id ids IH]; intros nodes missing; simpl.
  - by rewrite !app_nil_r.
  - rewrite filter_cons. unfold Plugin.visit at 2. cbn [fst snd omap list_omap].
    case_decide as Hid.
    + rewrite Hid, IH. by rewrite <- app_assoc.
    + destruct (getNodeById id) as [node|]; [|done].
      rewrite IH. by rewrite <- app_assoc.
Qed.

Lemma omap_filter_length {A B} (f : A → option B) (l : list A) :
  length (omap f l) + length (filter (λ x, f x = None) l) = length l.
Proof.
  induction l as [|x l IH]; [done|]. rewrite filter_cons. cbn [omap list_omap].
  case_decide as Hx.
  - rewrite Hx. simpl. lia.
  - destruct (f x); [|done]. simpl. lia.
Qed.

(** X18.  Given an array of ids, the plugin's [set_selection] replaces the
    selection by the nodes [getNodeById] finds, in the order asked, and
    reports every other id as not found: each id is counted exactly once.
    The selection is replaced even when nothing is found, which clears it,
    and the viewport is moved only when something was selected.  Without
    [nodeIds] the handler behaves as for an empty array; a [nodeIds] that is
    some other truthy value is refused with "nodeIds must be an array". *)
Theorem set_selection_partitions_the_ids
    (value : Type) (getNodeById : json → option (Plugin.SceneNode value))
    (cannot_read : any → string → Plugin.Thrown)
    (members : list (string * json)) :
  let run_it := Plugin.set_selection value getNodeById cannot_read
                  (Some (JObj members)) in
  (∀ ids, member "nodeIds" members = Some (JArr ids) →
     ∃ r, run_it = inr r
       ∧ Plugin.selection value r = omap getNodeById ids
       ∧ Plugin.notFound value r = filter (λ id, getNodeById id = None) ids
       ∧ Plugin.selectedCount value r + length (Plugin.notFound value r) = length ids
       ∧ Plugin.selected value r
         = (λ node, Plugin.serializeNode value node false) <$> Plugin.selection value r
       ∧ Plugin.zoomed value r
         = (if bool_decide (Plugin.selection value r = [])
            then None else Some (Plugin.selection value r)))
  ∧ (member "nodeIds" members = None →
     ∃ r, run_it = inr r ∧ Plugin.selection value r = []
          ∧ Plugin.notFound value r = [] ∧ Plugin.zoomed value r = None)
  ∧ (∀ v, member "nodeIds" members = Some v → truthy (Some v) = true →
     Array_isArray (Some v) = false →
     run_it = inl {| Plugin.thrown_name := "Error";
                     Plugin.thrown_message := "nodeIds must be an array" |}).
Proof.
  intros run_it. subst run_it. unfold Plugin.set_selection. simpl.
  split; [|split].
  - intros ids ->. unfold or_default. simpl. rewrite fold_visit. simpl.
    eexists. split; [reflexivity|]. simpl.
    split; [done|]. split; [done|]. split; [apply omap_filter_length|].
    split; [done|]. by destruct (omap getNodeById ids).
  - intros ->. unfold or_default. simpl. eauto.
  - intros v -> Htruthy Harray. unfold or_default.
    destruct v; simpl in *; try done; by rewrite Htruthy.
Qed.

(** * The further properties at concrete inputs *)

Lemma stored_connection_is_latest_witness :
  let w := run sample_uuid [Connection; Connection] initial in
  figmaConnection (serverState w) = Some 1
  ∧ isFigmaConnected w = true
  ∧ 2 = nextSocket w
  ∧ isConnected (serverState w) = true.
Proof.
  intros w.
  assert (H1 : figmaConnection (serverState w) = Some 1) by reflexivity.
  assert (H2 : isFigmaConnected w = true) by reflexivity.
  split; [exact H1|]. split; [exact H2|].
  destruct (stored_connection_is_latest sample_uuid [Connection; Connection])
    as (_ & Hlatest & _ & Hflag).
  split; [exact (Hlatest 1 H1) | exact (Hflag H2)].
Defined.

Lemma every_pending_call_was_sent_witness :
  let w := run sample_uuid sample_trace initial in
  let pending := {| pr_id := "0"; pr_toolName := "ping"; pr_timestamp := 10;
                    pr_settle := 0; pr_timeout := 0 |} in
  JsMap.get "0" (pendingRequests (serverState w)) = Some pending
  ∧ ∃ x, x ∈ sent_requests w ∧ req_id x.2 = "0" ∧ req_tool x.2 = "ping".
Proof.
  intros w pending.
  assert (H : JsMap.get "0" (pendingRequests (serverState w)) = Some pending)
    by reflexivity.
  split; [exact H|].
  exact (proj2 (every_pending_call_was_sent sample_uuid sample_trace "0" pending H)).
Defined.

Lemma timers_match_entries_witness :
  let w := run sample_uuid sample_trace initial in
  let table := pendingRequests (serverState w) in
  Inj (=) (=) sample_uuid
  ∧ is_Some (timers w !! 0)
  ∧ (∃ k pending, JsMap.get k table = Some pending ∧ pr_timeout pending = 0)
  ∧ (table = [] → timers w = ∅).
Proof.
  intros w table.
  assert (H : is_Some (timers w !! 0)) by (eexists; reflexivity).
  split; [exact sample_uuid_unique|]. split; [exact H|].
  destruct (timers_match_entries sample_uuid sample_uuid_unique sample_trace)
    as (Harmed & _ & Hempty).
  split; [exact (proj1 (Harmed 0) H) | exact Hempty].
Defined.

Lemma timer_is_dead_after_resolution_witness :
  let w := run sample_uuid [Connection; SendToFigma "ping" hi 10 None] initial in
  let pending := {| pr_id := "0"; pr_toolName := "ping"; pr_timestamp := 10;
                    pr_settle := 0; pr_timeout := 0 |} in
  let response := sample_response "0" hi in
  JsMap.get "0" (pendingRequests (serverState w)) = Some pending
  ∧ ("0", pending) ∈ JsMap.entries (pendingRequests (serverState w))
  ∧ isFigmaConnected w = true
  ∧ timeoutCallback 0 (handleFigmaResponse response w) = handleFigmaResponse response w
  ∧ timeoutCallback 0 (onClose w) = onClose w
  ∧ timeoutCallback 1 (sendToFigma sample_uuid "ping" hi 11 (Some "EPIPE") w).1
    = (sendToFigma sample_uuid "ping" hi 11 (Some "EPIPE") w).1.
Proof.
  intros w pending response.
  assert (H1 : JsMap.get "0" (pendingRequests (serverState w)) = Some pending)
    by reflexivity.
  assert (H2 : ("0", pending) ∈ JsMap.entries (pendingRequests (serverState w))).
  { assert (He : JsMap.entries (pendingRequests (serverState w)) = [("0", pending)])
      by reflexivity.
    rewrite He. apply list_elem_of_here. }
  assert (H3 : isFigmaConnected w = true) by reflexivity.
  split; [exact H1|]. split; [exact H2|]. split; [exact H3|].
  destruct (timer_is_dead_after_resolution sample_uuid w)
    as (Hresponse & Hclose & Hsend & _).
  split; [exact (Hresponse response pending H1)|].
  split; [exact (Hclose "0" pending H2)|].
  exact (Hsend "ping" hi 11%N "EPIPE" H3).
Defined.

Lemma call_and_reply_restore_the_table_witness :
  let w := run sample_uuid [Connection; SendToFigma "ping" hi 10 None] initial in
  let sent := (sendToFigma sample_uuid "get_selection" (JObj []) 11 None w).1 in
  let response := sample_response "1" JNull in
  Inj (=) (=) sample_uuid
  ∧ isFigmaConnected w = true
  ∧ res_id response = sample_uuid (uuidCalls w)
  ∧ pendingRequests (serverState (handleFigmaResponse response sent))
    = pendingRequests (serverState w)
  ∧ timers (timeoutCallback (nextTimer w) sent) = timers w.
Proof.
  intros w sent response.
  assert (H1 : isFigmaConnected w = true) by reflexivity.
  assert (H2 : res_id response = sample_uuid (uuidCalls w)) by reflexivity.
  split; [exact sample_uuid_unique|]. split; [exact H1|]. split; [exact H2|].
  destruct (call_and_reply_restore_the_table sample_uuid sample_uuid_unique
              [Connection; SendToFigma "ping" hi 10 None] "get_selection" (JObj [])
              11 H1) as (Hresponse & Htimeout).
  split; [exact (proj1 (Hresponse response H2))|].
  exact (proj1 (proj2 Htimeout)).
Defined.

Lemma reconnect_leaves_pending_calls_witness :
  let w := run sample_uuid [Connection; SendToFigma "ping" hi 10 None] initial in
  let w' := step sample_uuid w Connection in
  figmaConnection (serverState w) = Some 0
  ∧ figmaConnection (serverState w') = Some 1
  ∧ sockets w' !! 0 = sockets w !! 0
  ∧ pendingRequests (serverState w') = pendingRequests (serverState w).
Proof.
  intros w w'.
  assert (H : figmaConnection (serverState w) = Some 0) by reflexivity.
  split; [exact H|].
  destruct (reconnect_leaves_pending_calls sample_uuid
              [Connection; SendToFigma "ping" hi 10 None])
    as (Hnew & _ & Hold & _ & Htable & _).
  split; [exact Hnew|]. split; [exact (proj2 (Hold 0 H)) | exact Htable].
Defined.

Lemma other_events_leave_the_entry_witness :
  let es := [Connection; SendToFigma "ping" hi 10 None;
             SendToFigma "get_selection" (JObj []) 11 None] in
  let w := run sample_uuid es initial in
  let pending := {| pr_id := "0"; pr_toolName := "ping"; pr_timestamp := 10;
                    pr_settle := 0; pr_timeout := 0 |} in
  let e := Message 0 (sample_envelope (Some "tool_response") (sample_response "1" hi)) in
  let w' := step sample_uuid w e in
  Inj (=) (=) sample_uuid
  ∧ JsMap.get "0" (pendingRequests (serverState w)) = Some pending
  ∧ concerns e "0" 0 = false
  ∧ JsMap.get "0" (pendingRequests (serverState w')) = Some pending
  ∧ is_Some (timers w' !! 0)
  ∧ settle_count w' 0 = 0.
Proof.
  intros es w pending e w'.
  assert (H1 : JsMap.get "0" (pendingRequests (serverState w)) = Some pending)
    by reflexivity.
  assert (H2 : concerns e "0" (pr_timeout pending) = false) by reflexivity.
  split; [exact sample_uuid_unique|]. split; [exact H1|]. split; [exact H2|].
  exact (other_events_leave_the_entry sample_uuid sample_uuid_unique es e "0"
           pending H1 H2).
Defined.

Lemma remote_failure_reaches_the_client_witness :
  let w := run sample_uuid [Connection] initial in
  let tools := tools_index_ts sample_ToString in
  let c := callTool sample_uuid tools "ping" (Some hi) 10 None w in
  let response := {| res_id := "0"; res_success := false; res_data := None;
                     res_error := Some "Node not found" |} in
  Inj (=) (=) sample_uuid
  ∧ isFigmaConnected w = true
  ∧ find_tool "ping" tools = Some (ping sample_ToString)
  ∧ tool_prepare (ping sample_ToString) (Some hi) = inr hi
  ∧ res_id response = sample_uuid (uuidCalls w)
  ∧ res_success response = false
  ∧ ∃ resume,
      c.2 = Awaiting 0 resume
      ∧ resume (response_outcome response)
        = catch_block "ping" (mkError "Node not found").
Proof.
  intros w tools c response.
  assert (H1 : isFigmaConnected w = true) by reflexivity.
  assert (H2 : find_tool "ping" tools = Some (ping sample_ToString)) by reflexivity.
  assert (H3 : tool_prepare (ping sample_ToString) (Some hi) = inr hi) by reflexivity.
  assert (H4 : res_id response = sample_uuid (uuidCalls w)) by reflexivity.
  assert (H5 : res_success response = false) by reflexivity.
  split; [exact sample_uuid_unique|]. split; [exact H1|]. split; [exact H2|].
  split; [exact H3|]. split; [exact H4|]. split; [exact H5|].
  destruct (remote_failure_reaches_the_client sample_uuid sample_uuid_unique
              [Connection] tools (ping sample_ToString) "ping" (Some hi) hi 10
              response H1 H2 H3 H4) as (resume & Hawait & _ & Hfail).
  exists resume. split; [exact Hawait | exact (Hfail H5)].
Defined.

Lemma ping_without_data_is_an_error_witness :
  (∀ v, ∃ text, plain_ToString v = inr text)
  ∧ isError (resumeHandler (ping plain_ToString) "ping" (Some hi) (Fulfilled None))
    = true
  ∧ isError (resumeHandler (ping plain_ToString) "ping" (Some hi)
               (Fulfilled (Some (JObj []))))
    = false.
Proof.
  assert (H : ∀ v, ∃ text, plain_ToString v = inr text).
  { intros v. unfold plain_ToString. destruct (sample_ToString v); eauto. }
  split; [exact H|].
  destruct (ping_without_data_is_an_error plain_ToString (Some hi))
    as (Hundefined & _ & Hdata).
  split; [exact Hundefined|]. apply (Hdata H). discriminate.
Defined.

Lemma nodeIds_checked_before_dispatch_witness :
  let tools := [get_selection sample_format; set_selection sample_format;
                set_node_lock sample_format] in
  let w := run sample_uuid [Connection] initial in
  let ids := JArr [JStr "1:2"; JStr "1:3"] in
  let empty := Some (JObj [("nodeIds", JArr [])]) in
  (∀ x xs, optional_member empty "nodeIds" ≠ Some (JArr (x :: xs)))
  ∧ find_tool "set_selection" tools = Some (set_selection sample_format)
  ∧ find_tool "set_node_lock" tools = Some (set_node_lock sample_format)
  ∧ callTool sample_uuid tools "set_selection" empty 10 None w
    = (w, Returned (refusal "Error: nodeIds parameter is required and must be a non-empty array of node IDs."))
  ∧ callTool sample_uuid tools "set_node_lock" empty 10 None w
    = (w, Returned (refusal "Error: Both nodeIds (array) and locked (boolean) parameters are required."))
  ∧ tool_prepare (set_selection sample_format) (Some (JObj [("nodeIds", ids)]))
    = inr (JObj [("nodeIds", ids)]).
Proof.
  intros tools w ids empty.
  assert (H0 : ∀ x xs, optional_member empty "nodeIds" ≠ Some (JArr (x :: xs)))
    by (intros x xs; discriminate).
  assert (H1 : find_tool "set_selection" tools = Some (set_selection sample_format))
    by reflexivity.
  assert (H2 : find_tool "set_node_lock" tools = Some (set_node_lock sample_format))
    by reflexivity.
  split; [exact H0|]. split; [exact H1|]. split; [exact H2|]. split; [|split].
  - exact (proj1 (proj1 (nodeIds_checked_before_dispatch sample_format sample_uuid
                           tools "set_selection" empty 10 None w) H0) H1).
  - exact (proj2 (proj2 (proj2 (proj2
             (proj1 (nodeIds_checked_before_dispatch sample_format sample_uuid
                       tools "set_node_lock" empty 10 None w) H0)))) H2).
  - exact (proj1 (proj2 (nodeIds_checked_before_dispatch sample_format sample_uuid
                           tools "set_selection" (Some (JObj [("nodeIds", ids)]))
                           10 None w)
                    (JStr "1:2") [JStr "1:3"] eq_refl)).
Defined.

Lemma empty_text_is_refused_witness :
  let tools := [set_text_content sample_format; rename_node sample_format] in
  let w := run sample_uuid [Connection] initial in
  let args := Some (JObj [("nodeId", JStr "1:2"); ("text", JStr EmptyString)]) in
  truthy (optional_member args "text") = false
  ∧ find_tool "set_text_content" tools = Some (set_text_content sample_format)
  ∧ callTool sample_uuid tools "set_text_content" args 10 None w
    = (w, Returned (refusal "Error: Both nodeId and text parameters are required.")).
Proof.
  intros tools w args.
  assert (H1 : truthy (optional_member args "text") = false) by reflexivity.
  assert (H2 : find_tool "set_text_content" tools
               = Some (set_text_content sample_format)) by reflexivity.
  split; [exact H1|]. split; [exact H2|].
  exact (proj1 (proj1 (empty_text_is_refused sample_format sample_uuid tools
                         "set_text_content" args 10 None w) H1) H2).
Defined.

Lemma explicit_false_flag_is_accepted_witness :
  let args := Some (JObj [("nodeIds", JArr [JStr "1:2"]); ("visible", JBool false)]) in
  optional_member args "nodeIds" = Some (JArr [JStr "1:2"])
  ∧ optional_member args "visible" = Some (JBool false)
  ∧ optional_member args "locked" = None
  ∧ tool_prepare (set_node_visibility sample_format) args
    = inr (JObj [("nodeIds", JArr [JStr "1:2"]); ("visible", JBool false)])
  ∧ tool_prepare (set_node_lock sample_format) args
    = inl (refusal "Error: Both nodeIds (array) and locked (boolean) parameters are required.").
Proof.
  intros args.
  assert (H1 : optional_member args "nodeIds" = Some (JArr [JStr "1:2"]))
    by reflexivity.
  assert (H2 : optional_member args "visible" = Some (JBool false)) by reflexivity.
  assert (H3 : optional_member args "locked" = None) by reflexivity.
  split; [exact H1|]. split; [exact H2|]. split; [exact H3|].
  destruct (explicit_false_flag_is_accepted sample_format args (JStr "1:2") []
              (JBool false) H1) as (Hvisible & _ & _ & Hlocked).
  split; [exact (Hvisible H2) | exact (Hlocked H3)].
Defined.

Lemma plugin_answers_each_request_once_witness :
  let msg := {| Plugin.msg_type := Some "tool_request"; Plugin.msg_id := "7";
                Plugin.msg_tool := "export_png"; Plugin.msg_args := Some (JObj []) |} in
  Plugin.msg_type msg = Some "tool_request"
  ∧ Plugin.msg_tool msg ≠ "ping"
  ∧ sample_prototype (Plugin.msg_tool msg) = Plugin.Missing
  ∧ Plugin.onmessage None sample_prototype sample_cannot_read sample_not_a_function
      "2025-01-01T00:00:00.000Z" msg
    = [Plugin.ToolResponse
         {| res_id := "7"; res_success := false; res_data := None;
            res_error := Some "Unknown tool: export_png" |}].
Proof.
  intros msg.
  assert (H1 : Plugin.msg_type msg = Some "tool_request") by reflexivity.
  assert (H2 : Plugin.msg_tool msg ≠ "ping") by discriminate.
  assert (H3 : sample_prototype (Plugin.msg_tool msg) = Plugin.Missing) by reflexivity.
  split; [exact H1|]. split; [exact H2|]. split; [exact H3|].
  exact (proj1 (proj2 (proj2 (plugin_answers_each_request_once None sample_prototype
                                sample_cannot_read sample_not_a_function
                                "2025-01-01T00:00:00.000Z" msg))) H1 H2 H3).
Defined.

Lemma ping_reply_echoes_the_message_witness :
  let w := run sample_uuid [Connection] initial in
  let tools := tools_index_ts sample_ToString in
  let c := callTool sample_uuid tools "ping" (Some hi) 10 None w in
  Inj (=) (=) sample_uuid
  ∧ isFigmaConnected w = true
  ∧ find_tool "ping" tools = Some (ping sample_ToString)
  ∧ finite (ping_message (Some hi)) = true
  ∧ ∃ request response,
      last (outbox c.1) = Some (0, ToolRequest request)
      ∧ Plugin.onmessage None sample_prototype sample_cannot_read
          sample_not_a_function "2025-01-01T00:00:00.000Z" (as_plugin_message request)
        = [Plugin.ToolResponse response]
      ∧ optional_member (res_data (relayed response)) "message" = Some (JStr "hi")
      ∧ pendingRequests (serverState (handleFigmaResponse (relayed response) c.1))
        = [].
Proof.
  intros w tools c.
  assert (H1 : isFigmaConnected w = true) by reflexivity.
  assert (H2 : find_tool "ping" tools = Some (ping sample_ToString)) by reflexivity.
  assert (H3 : finite (ping_message (Some hi)) = true) by reflexivity.
  split; [exact sample_uuid_unique|]. split; [exact H1|]. split; [exact H2|].
  split; [exact H3|].
  destruct (ping_reply_echoes_the_message sample_uuid sample_uuid_unique
              sample_ToString None sample_prototype sample_cannot_read
              sample_not_a_function [Connection] tools (Some hi) 10
              "2025-01-01T00:00:00.000Z" H1 H2)
    as (ws & request & resume & response & _ & Hlast & Hws & _ & _ & _ & Hpost
        & _ & _ & _ & _ & Hecho & _ & Htable).
  exists request, response.
  assert (Hzero : ws = 0) by (injection Hws as <-; reflexivity).
  rewrite Hzero in Hlast.
  split; [exact Hlast|]. split; [exact Hpost|].
  split; [exact (Hecho H3) | exact Htable].
Defined.

Lemma serializeNode_is_one_level_witness :
  let data := Plugin.serializeNode Z sample_frame true in
  let children := [Plugin.serializeNode Z (sample_leaf "1:2" "Title" "TEXT") false;
                   Plugin.serializeNode Z
                     (sample_group "1:3" "Row" [sample_leaf "1:4" "Label" "TEXT";
                                                sample_leaf "1:5" "Icon" "VECTOR"])
                     false] in
  Plugin.d_children Z data = Some children
  ∧ ∀ child, child ∈ children → Plugin.d_children Z child = None.
Proof.
  intros data children.
  assert (H : Plugin.d_children Z data = Some children) by reflexivity.
  split; [exact H|].
  exact (proj2 (proj2 (proj2 (proj2 (serializeNode_is_one_level Z sample_frame true)))
                  children H)).
Defined.

Lemma scanChildren_respects_depth_and_filter_witness :
  let found := Plugin.scanChildren Z 2 (Some (JStr "TEXT")) sample_frame 1 0 in
  let label := {| Plugin.se_data :=
                    Plugin.serializeNode Z (sample_leaf "1:4" "Label" "TEXT") false;
                  Plugin.se_level := 0%Z; Plugin.se_childCount := 0 |} in
  label ∈ found
  ∧ truthy (Some (JStr "TEXT")) = true
  ∧ (0 ≤ Plugin.se_level Z label ≤ 0 + (2 - 1))%Z
  ∧ Some (JStr "TEXT")
    = Some (JStr (Plugin.d_type Z (Plugin.se_data Z label))).
Proof.
  intros found label.
  assert (H1 : label ∈ found).
  { apply list_elem_of_further, list_elem_of_here. }
  assert (H2 : truthy (Some (JStr "TEXT")) = true) by reflexivity.
  split; [exact H1|]. split; [exact H2|].
  destruct (proj1 (scanChildren_respects_depth_and_filter Z 2 (Some (JStr "TEXT"))
                     sample_frame 1 0) label H1) as (Hlevel & _ & Htype).
  split; [exact Hlevel | exact (Htype H2)].
Defined.

Lemma set_selection_partitions_the_ids_witness :
  let ids := [JStr "1:2"; JStr "9:9"; JStr "1:1"] in
  let members := [("nodeIds", JArr ids)] in
  member "nodeIds" members = Some (JArr ids)
  ∧ ∃ r, Plugin.set_selection Z sample_getNodeById sample_cannot_read
           (Some (JObj members)) = inr r
         ∧ Plugin.selection Z r = omap sample_getNodeById ids
         ∧ Plugin.selectedCount Z r + length (Plugin.notFound Z r) = 3.
Proof.
  intros ids members.
  assert (H : member "nodeIds" members = Some (JArr ids)) by reflexivity.
  split; [exact H|].
  destruct (proj1 (set_selection_partitions_the_ids Z sample_getNodeById
                     sample_cannot_read members) ids H)
    as (r & Hr & Hselection & _ & Hcount & _).
  exists r. split; [exact Hr|]. split; [exact Hselection | exact Hcount].
Defined.

Lemma handler_reports_every_failure_witness :
  let w := run sample_uuid [Connection] initial in
  let tools := tools_index_ts sample_ToString in
  let others :=
    [SendToFigma "get_selection" (JObj []) 11 None;
     Message 0 (sample_envelope (Some "tool_response") (sample_response "1" JNull))] in
  let c := callTool sample_uuid tools "ping" (Some hi) 10 None w in
  let w1 := run sample_uuid others c.1 in
  Inj (=) (=) sample_uuid
  ∧ find_tool "ping" tools = Some (ping sample_ToString)
  ∧ tool_prepare (ping sample_ToString) (Some hi) = inr hi
  ∧ isFigmaConnected w = true
  ∧ Forall (λ e, concerns e (sample_uuid (uuidCalls w)) (nextTimer w) = false) others
  ∧ known_socket 0 w1 = true
  ∧ ∃ resume,
      c.2 = Awaiting 0 resume
      ∧ promise_state w1 0 = None
      ∧ promise_state (step sample_uuid w1 (TimerFires 0)) 0
        = Some (Rejected (mkError TIMEOUT_MESSAGE))
      ∧ resume (Rejected (mkError TIMEOUT_MESSAGE))
        = catch_block "ping" (mkError TIMEOUT_MESSAGE)
      ∧ promise_state (step sample_uuid w1 (Close 0)) 0
        = Some (Rejected (mkError DISCONNECTED)).
Proof.
  intros w tools others c w1.
  assert (H1 : find_tool "ping" tools = Some (ping sample_ToString)) by reflexivity.
  assert (H2 : tool_prepare (ping sample_ToString) (Some hi) = inr hi) by reflexivity.
  assert (H3 : isFigmaConnected w = true) by reflexivity.
  assert (H4 : Forall (λ e, concerns e (sample_uuid (uuidCalls w)) (nextTimer w)
                            = false) others) by (repeat constructor).
  assert (H5 : known_socket 0 w1 = true) by reflexivity.
  split; [exact sample_uuid_unique|]. split; [exact H1|]. split; [exact H2|].
  split; [exact H3|]. split; [exact H4|]. split; [exact H5|].
  destruct (handler_reports_every_failure sample_uuid sample_uuid_unique
              [Connection] tools "ping" (Some hi) 10) as (_ & _ & Hcall).
  destruct (proj2 (Hcall (ping sample_ToString) hi H1 H2) H3)
    as (resume & _ & _ & Hawait & Houtcomes).
  destruct (Houtcomes others H4) as (Hpending & [Htimeout Hreport] & Hclose & _).
  exists resume. split; [exact Hawait|]. split; [exact Hpending|].
  split; [exact Htimeout|]. split; [exact Hreport|].
  exact (proj1 (Hclose 0 H5)).
Defined.

Lemma unprintable_error_abandons_the_call_witness :
  let w := run sample_uuid [Connection; SendToFigma "ping" hi 10 None] initial in
  let pending := {| pr_id := "0"; pr_toolName := "ping"; pr_timestamp := 10;
                    pr_settle := 0; pr_timeout := 0 |} in
  let error := mkError "Cannot convert object to primitive value" in
  let w' := step sample_uuid w (Message 0 (Unchecked sample_unprintable (inl error))) in
  let later :=
    [TimerFires 0;
     Message 0 (sample_envelope (Some "tool_response") (sample_response "0" hi));
     Close 0] in
  Inj (=) (=) sample_uuid
  ∧ known_socket 0 w = true
  ∧ JsMap.get "0" (pendingRequests (serverState w)) = Some pending
  ∧ raw_id sample_unprintable = Some (JStr "0")
  ∧ truthy (raw_success sample_unprintable) = false
  ∧ sample_ToString (raw_error sample_unprintable) = inl error
  ∧ JsMap.get "0" (pendingRequests (serverState w')) = None
  ∧ timers w' !! 0 = None
  ∧ promise_state (run sample_uuid later w') 0 = None.
Proof.
  intros w pending error w' later.
  assert (H1 : known_socket 0 w = true) by reflexivity.
  assert (H2 : JsMap.get "0" (pendingRequests (serverState w)) = Some pending)
    by reflexivity.
  assert (H3 : raw_id sample_unprintable = Some (JStr "0")) by reflexivity.
  assert (H4 : truthy (raw_success sample_unprintable) = false) by reflexivity.
  assert (H5 : sample_ToString (raw_error sample_unprintable) = inl error)
    by reflexivity.
  split; [exact sample_uuid_unique|]. split; [exact H1|]. split; [exact H2|].
  split; [exact H3|]. split; [exact H4|]. split; [exact H5|].
  destruct (unprintable_error_abandons_the_call sample_uuid sample_uuid_unique
              [Connection; SendToFigma "ping" hi 10 None] later 0 "0" pending
              sample_unprintable error H1 H2 H3 H4)
    as (Hgone & Htimer & _ & Hnever).
  split; [exact Hgone|]. split; [exact Htimer | exact Hnever].
Defined.

Lemma unchecked_reading_agrees_with_the_interface_witness :
  let w := run sample_uuid [Connection; SendToFigma "ping" hi 10 None] initial in
  let pending := {| pr_id := "0"; pr_toolName := "ping"; pr_timestamp := 10;
                    pr_settle := 0; pr_timeout := 0 |} in
  let frame := {| raw_id := Some (JStr "0");
                  raw_success := Some (JNum (Finite (Qc_of_Z 1)));
                  raw_data := Some hi; raw_error := None |} in
  raw_id frame = Some (JStr "0")
  ∧ JsMap.get "0" (pendingRequests (serverState w)) = Some pending
  ∧ truthy (raw_success frame) = true
  ∧ handleFigmaResponse_unchecked frame (inr "undefined") w
    = resolved "0" pending (Fulfilled (Some hi)) w.
Proof.
  intros w pending frame.
  assert (H1 : raw_id frame = Some (JStr "0")) by reflexivity.
  assert (H2 : JsMap.get "0" (pendingRequests (serverState w)) = Some pending)
    by reflexivity.
  assert (H3 : truthy (raw_success frame) = true) by reflexivity.
  split; [exact H1|]. split; [exact H2|]. split; [exact H3|].
  destruct (unchecked_reading_agrees_with_the_interface (sample_response "0" hi)
              frame (inr "undefined") w) as (_ & _ & Hknown).
  exact (proj1 (Hknown "0" pending H1 H2) H3).
Defined.

(** [ping] with [{"message": 1e999}]: the message is an infinite number,
    which is truthy, so the handler keeps it; [JSON.stringify] writes it
    [null], and the plugin answers with its own default text. *)
Example ping_infinite_message_gets_the_default :
  let args := Some (JObj [("message", JNum (Infinite false))]) in
  let c := callTool sample_uuid (tools_index_ts sample_ToString) "ping" args 10 None
             (run sample_uuid [Connection] initial) in
  let request := {| req_id := "0"; req_tool := "ping";
                    req_args := JObj [("message", JNull)] |} in
  ping_message args = JNum (Infinite false)
  ∧ sent_requests c.1 = [(0, request)]
  ∧ Plugin.onmessage None sample_prototype sample_cannot_read sample_not_a_function
      "2025-01-01T00:00:00.000Z" (as_plugin_message request)
    = [Plugin.ToolResponse
         {| res_id := "0"; res_success := true;
            res_data := Some (JObj [("message", JStr "Pong from Figma!");
                                    ("timestamp", JStr "2025-01-01T00:00:00.000Z")]);
            res_error := None |}].
Proof. split; [reflexivity|]. split; [by vm_compute|reflexivity]. Qed.
